(** * IRTOMS scheduling and estimation core: a shallow embedding

  The development follows the two services that make up the core of the
  repository:

  - [services/RealTimeDataHub.js]: telemetry normalisation, the per-train
    state estimator and the conflict detector;
  - [services/AlgorithmicBrain.js]: the schedule evaluation and the
    real-time reconciler ([services/AITrafficOptimizer.js] supplies the
    sibling metric computation).

  Numbers.  A JavaScript number is an IEEE-754 binary64 value, so the
  quality scores, Kalman weights and metrics are computed on Rocq's
  primitive floats, NaN included.  The sine, cosine and arc tangent of
  the safety-distance check, whose values the language leaves to the
  implementation, are parameters on floats.  The schedule evaluation
  keeps a [Date] as its time value in milliseconds (an integer); the
  reconciler is also modelled on [Date]s that can be invalid and on
  delays that are any value of the language, with the arithmetic of
  whole numbers in binary64 derived from the specification of the float
  operations. *)

From Stdlib Require Import ZArith List Bool Floats Lia.
From Stdlib Require Import Permutation Sorted.
From stdpp Require Import base gmap list strings.

Set Warnings "-inexact-float".

(** ** JavaScript number helpers *)

Module JS.

Open Scope float_scope.

(** [Math.max] on two arguments: NaN if either is NaN, and of the two
    zeros the positive one is the larger. *)
Definition Math_max (a b : float) : float :=
  if is_nan a || is_nan b then nan
  else if a <? b then b
  else if b <? a then a
  else if is_zero a && get_sign a then b else a.

(** [Math.min], symmetrically: of the two zeros the negative one. *)
Definition Math_min (a b : float) : float :=
  if is_nan a || is_nan b then nan
  else if a <? b then a
  else if b <? a then b
  else if is_zero a && get_sign a then a else b.

(** A non-negative count ([array.length], a counter) as a number. *)
Definition of_nat (n : nat) : float :=
  PrimFloat.of_uint63 (Uint63.of_Z (Z.of_nat n)).

(** An integer (a time value, a difference of time values) as a number. *)
Definition of_Z (z : Z) : float :=
  if (z <? 0)%Z then - PrimFloat.of_uint63 (Uint63.of_Z (- z))
  else PrimFloat.of_uint63 (Uint63.of_Z z).

(** A value of the language as far as the estimator meets it: a number
    or [undefined], which arithmetic coerces to NaN. *)
Inductive value : Type :=
| Undefined
| Number (x : float).

Definition ToNumber (v : value) : float :=
  match v with
  | Undefined => nan
  | Number x => x
  end.

(** What a call of an [async] method hands to a caller that does not
    [await] it: a promise.  The object is truthy whatever it will settle
    to, and it has no data property of its own. *)
Inductive promise (A : Type) : Type :=
| Promise (settles_to : A).
Arguments Promise {A} _.

Definition truthy_promise {A : Type} (p : promise A) : bool := true.

Definition promise_get {A : Type} (p : promise A) (property : string) : value :=
  Undefined.

(** Truthiness of a string-or-null. *)
Definition truthy_string (s : option string) : bool :=
  match s with
  | Some s => negb (String.eqb s "")
  | None => false
  end.

End JS.

(** ** Telemetry normaliser: quality of a positional reading *)

Module Telemetry.

Import JS.
Open Scope float_scope.

(** The fields of a raw positional reading that [calculateGPSQuality]
    reads, each after the numeric coercion the comparison applies (an
    absent field is NaN).  [timestamp] is
    [new Date(gpsData.timestamp).getTime()]. *)
Record gpsData : Type := {
  accuracy : float;
  speed : float;
  timestamp : float
}.

(** [calculateGPSQuality(gpsData)]; [now] is the value of [Date.now()]. *)
Definition calculateGPSQuality (now : float) (g : gpsData) : float :=
  let quality := 1.0 in
  let quality := if 10 <? accuracy g then quality * 0.8 else quality in
  let quality := if 50 <? accuracy g then quality * 0.6 else quality in
  let quality := if 200 <? speed g then quality * 0.5 else quality in
  let age := now - timestamp g in
  let quality := if 30000 <? age then quality * 0.7 else quality in
  Math_max 0.1 quality.

(** The score as the specification words it: start from 1.0 and apply
    one factor per degradation that holds. *)
Definition degraded (holds : bool) (factor q : float) : float :=
  if holds then q * factor else q.

Definition spec_gps_product (g : gpsData) (age_seconds_over_30 : bool) : float :=
  degraded age_seconds_over_30 0.7
    (degraded (200 <? speed g) 0.5
       (degraded (50 <? accuracy g) 0.6
          (degraded (10 <? accuracy g) 0.8 1.0))).

(** C9.  For every positional raw reading the quality is 1.0 multiplied
    by 0.8 when the accuracy radius exceeds 10, further by 0.6 when it
    exceeds 50, by 0.5 when the speed exceeds 200 and by 0.7 when the
    reading is more than 30 s (30000 ms) old, floored at 0.1; the result
    lies in [0.1, 1].  The floor is never the binding term. *)
Theorem calculateGPSQuality_spec (now : float) (g : gpsData) :
  let q := calculateGPSQuality now g in
  let p := spec_gps_product g (30 * 1000 <? now - timestamp g) in
  q = Math_max 0.1 p /\ q = p /\ (0.1 <=? q) = true /\ (q <=? 1) = true.
Proof.
  unfold calculateGPSQuality, spec_gps_product, degraded.
  replace (30 * 1000) with 30000 by reflexivity.
  destruct (10 <? accuracy g), (50 <? accuracy g), (200 <? speed g),
    (30000 <? now - timestamp g); vm_compute; repeat split; reflexivity.
Qed.

End Telemetry.


(** ** State estimator: per-train fusion of normalised readings *)

Module Estimator.

Import JS.
Open Scope float_scope.

Record latlon : Type := { lat : float; lon : float }.

Record speed_heading : Type := { speed : float; heading : float }.

(** [estimator.state] *)
Record kalman : Type := {
  position : latlon;
  velocity : speed_heading;
  acceleration : float
}.

(** [estimator.covariance] and [estimator.processNoise] *)
Record per_component : Type := {
  of_position : float;
  of_velocity : float;
  of_acceleration : float
}.

(** [estimator.measurementNoise] *)
Record per_source : Type := {
  gps : float;
  trackCircuit : float;
  stationReport : float
}.

Record estimator : Type := {
  trainId : string;
  state : kalman;
  covariance : per_component;
  processNoise : per_component;
  measurementNoise : per_source
}.

(** *** Normalised readings, one shape per [source] *)

Record gps_reading : Type := {
  gps_trainId : option string;
  gps_timestamp : Z;
  latitude : float;
  longitude : float;
  gps_accuracy : float;
  gps_speed : float;
  gps_heading : float;
  gps_quality : float
}.

Record circuit_reading : Type := {
  sectionId : string;
  circuit_timestamp : Z;
  occupied : bool;
  trainDetected : option string;
  signalState : string;
  circuit_quality : float
}.

Record station_reading : Type := {
  stationId : string;
  report_timestamp : Z;
  report_trainId : option string;
  event : option string;
  platform : option string;
  delay : float;
  passengerCount : float;
  reportedBy : option string;
  report_quality : float
}.

(** [OTHER] stands for an object whose [source] is none of the three the
    [switch] of [fuseDataSources] names. *)
Inductive reading : Type :=
| GPS (g : gps_reading)
| TRACK_CIRCUIT (c : circuit_reading)
| STATION_REPORT (s : station_reading)
| OTHER (source : string) (other_timestamp : Z).

(** [data.timestamp.getTime()] *)
Definition timestamp (d : reading) : Z :=
  match d with
  | GPS g => gps_timestamp g
  | TRACK_CIRCUIT c => circuit_timestamp c
  | STATION_REPORT s => report_timestamp s
  | OTHER _ t => t
  end.

(** [data.quality] *)
Definition quality (d : reading) : value :=
  match d with
  | GPS g => Number (gps_quality g)
  | TRACK_CIRCUIT c => Number (circuit_quality c)
  | STATION_REPORT s => Number (report_quality s)
  | OTHER _ _ => Undefined
  end.

(** [data.trainId]: a track-circuit reading has no such property (its
    train is under [trainDetected]). *)
Definition data_trainId (d : reading) : option string :=
  match d with
  | GPS g => gps_trainId g
  | TRACK_CIRCUIT _ => None
  | STATION_REPORT s => report_trainId s
  | OTHER _ _ => None
  end.

(** *** What the estimator reads from outside

    [random n] is the value of the [n]-th call of [Math.random()];
    [findStation] is the outcome of [Station.findById] (with the
    coordinates of the station found). *)
Record env : Type := {
  random : nat -> float;
  findStation : string -> option latlon
}.

Definition initializeKalmanFilter (trainId : string) : estimator :=
  {| trainId := trainId;
     state := {| position := {| lat := 0; lon := 0 |};
                 velocity := {| speed := 0; heading := 0 |};
                 acceleration := 0 |};
     covariance := {| of_position := 10.0; of_velocity := 5.0;
                      of_acceleration := 2.0 |};
     processNoise := {| of_position := 0.1; of_velocity := 0.5;
                        of_acceleration := 1.0 |};
     measurementNoise := {| gps := 3.0; trackCircuit := 50.0;
                            stationReport := 100.0 |} |}.

Definition calculateKalmanGain (covariance measurementNoise : float) : float :=
  covariance / (covariance + measurementNoise).

(** [async getTrackSectionPosition(sectionId)]: draws two random numbers
    ([drawn] counts the draws so far) and returns a promise. *)
Definition getTrackSectionPosition (E : env) (drawn : nat) (sectionId : string)
  : promise latlon * nat :=
  (Promise {| lat := 28.6139 + random E drawn * 0.1;
              lon := 77.2090 + random E (S drawn) * 0.1 |},
   S (S drawn)).

(** [async getStationPosition(stationId)]: the station's coordinates or
    [null] (also when the lookup throws), inside a promise. *)
Definition getStationPosition (E : env) (stationId : string)
  : promise (option latlon) :=
  Promise (findStation E stationId).

Definition updateWithGPS (st : kalman) (gpsData : gps_reading) (e : estimator)
  : kalman :=
  let weight :=
    calculateKalmanGain (of_position (covariance e)) (gps (measurementNoise e)) in
  {| position :=
       {| lat := lat (position st) + weight * (latitude gpsData - lat (position st));
          lon := lon (position st) + weight * (longitude gpsData - lon (position st)) |};
     velocity :=
       {| speed := speed (velocity st)
                   + weight * (gps_speed gpsData - speed (velocity st));
          heading := heading (velocity st) |};
     acceleration := acceleration st |}.

(** [updateWithTrackCircuit] is not [async]: it uses the promise itself
    as [sectionPosition]. *)
Definition updateWithTrackCircuit (E : env) (drawn : nat) (st : kalman)
    (circuitData : circuit_reading) (e : estimator) : kalman * nat :=
  if occupied circuitData && truthy_string (trainDetected circuitData) then
    let '(sectionPosition, drawn) :=
      getTrackSectionPosition E drawn (sectionId circuitData) in
    if truthy_promise sectionPosition then
      let weight :=
        calculateKalmanGain (of_position (covariance e))
                            (trackCircuit (measurementNoise e)) in
      ({| position :=
            {| lat := lat (position st)
                      + weight * (ToNumber (promise_get sectionPosition "lat")
                                  - lat (position st));
               lon := lon (position st)
                      + weight * (ToNumber (promise_get sectionPosition "lon")
                                  - lon (position st)) |};
          velocity := velocity st;
          acceleration := acceleration st |}, drawn)
    else (st, drawn)
  else (st, drawn).

Definition is_arrival_or_departure (ev : option string) : bool :=
  match ev with
  | Some s => String.eqb s "ARRIVAL" || String.eqb s "DEPARTURE"
  | None => false
  end.

(** [updateWithStationReport], not [async] either. *)
Definition updateWithStationReport (E : env) (st : kalman)
    (reportData : station_reading) (e : estimator) : kalman :=
  let stationPosition := getStationPosition E (stationId reportData) in
  if truthy_promise stationPosition then
    let weight :=
      calculateKalmanGain (of_position (covariance e))
                          (stationReport (measurementNoise e)) in
    {| position :=
         {| lat := lat (position st)
                   + weight * (ToNumber (promise_get stationPosition "lat")
                               - lat (position st));
            lon := lon (position st)
                   + weight * (ToNumber (promise_get stationPosition "lon")
                               - lon (position st)) |};
       velocity :=
         {| speed := if is_arrival_or_departure (event reportData) then 0
                     else speed (velocity st);
            heading := heading (velocity st) |};
       acceleration := acceleration st |}
  else st.

Definition calculateConfidence (e : estimator) : float :=
  let positionConfidence :=
    1.0 - Math_min (of_position (covariance e) / 100) 1.0 in
  let velocityConfidence :=
    1.0 - Math_min (of_velocity (covariance e) / 50) 1.0 in
  (positionConfidence + velocityConfidence) / 2.

(** The object [fuseDataSources] returns. *)
Record fused : Type := {
  fused_trainId : string;
  fused_position : latlon;
  fused_speed : float;
  fused_heading : float;
  confidence : float;
  fused_timestamp : Z
}.

(** One turn of the [for ... switch] loop. *)
Definition fuse_one (E : env) (e : estimator) (acc : kalman * nat) (data : reading)
  : kalman * nat :=
  let '(fusedState, drawn) := acc in
  match data with
  | GPS g => (updateWithGPS fusedState g e, drawn)
  | TRACK_CIRCUIT c => updateWithTrackCircuit E drawn fusedState c e
  | STATION_REPORT s => (updateWithStationReport E fusedState s e, drawn)
  | OTHER _ _ => (fusedState, drawn)
  end.

(** [fuseDataSources(estimator, newDataArray)]: the estimator with its
    [state] overwritten, the returned object, and the draw count. *)
Definition fuseDataSources (E : env) (now : Z) (drawn : nat) (e : estimator)
    (newDataArray : list reading) : estimator * fused * nat :=
  let '(fusedState, drawn) :=
    fold_left (fuse_one E e) newDataArray (state e, drawn) in
  let e' := {| trainId := trainId e;
               state := fusedState;
               covariance := covariance e;
               processNoise := processNoise e;
               measurementNoise := measurementNoise e |} in
  (e',
   {| fused_trainId := trainId e';
      fused_position := position fusedState;
      fused_speed := speed (velocity fusedState);
      fused_heading := heading (velocity fusedState);
      confidence := calculateConfidence e';
      fused_timestamp := now |},
   drawn).

(** *** The hub's two maps and the ingestion path *)

(** An entry of [activeTrains]: the fused object spread, with two more
    fields. *)
Record active_train : Type := {
  current : fused;
  lastUpdate : Z;
  dataQuality : float
}.

(** The hub's two maps, and the ['train-state-updated'] events it has
    emitted so far, oldest first. *)
Record hub : Type := {
  activeTrains : gmap string active_train;
  stateEstimators : gmap string estimator;
  emitted : list fused
}.

Definition new_hub : hub :=
  {| activeTrains := ∅; stateEstimators := ∅; emitted := [] |}.

(** [data.quality || 0] *)
Definition quality_or_0 (d : reading) : float :=
  match quality d with
  | Undefined => 0
  | Number q => if is_nan q || is_zero q then 0 else q
  end.

Definition calculateOverallQuality (dataArray : list reading) : float :=
  match dataArray with
  | [] => 0
  | _ => fold_left (fun sum data => sum + quality_or_0 data) dataArray 0
         / of_nat (length dataArray)
  end.

(** [updateTrainState(trainId, newData)], with [broadcastTrainUpdate]
    reduced to the event it emits. *)
Definition updateTrainState (E : env) (now : Z) (h : hub) (drawn : nat)
    (trainId : string) (newData : list reading) : hub * nat * fused :=
  let estimator :=
    match stateEstimators h !! trainId with
    | Some estimator => estimator
    | None => initializeKalmanFilter trainId
    end in
  let '(estimator, fusedState, drawn) :=
    fuseDataSources E now drawn estimator newData in
  ({| activeTrains :=
        <[trainId := {| current := fusedState;
                        lastUpdate := now;
                        dataQuality := calculateOverallQuality newData |}]>
          (activeTrains h);
      stateEstimators := <[trainId := estimator]> (stateEstimators h);
      emitted := emitted h ++ [fusedState] |},
   drawn, fusedState).

(** [getTrainDataBuffer(trainId)]: the class never assigns
    [this.trainDataBuffers], so [this.trainDataBuffers?.get(trainId) || []]
    is a fresh empty array on every call. *)
Definition getTrainDataBuffer (h : hub) (trainId : string) : list reading := [].

Definition processNormalizedData (E : env) (now : Z) (h : hub) (drawn : nat)
    (data : reading) : hub * nat :=
  if truthy_string (data_trainId data) then
    match data_trainId data with
    | Some trainId =>
        let existingData := getTrainDataBuffer h trainId ++ [data] in
        let fiveMinutesAgo := (now - 5 * 60 * 1000)%Z in
        let recentData :=
          List.filter (fun d => (fiveMinutesAgo <? timestamp d)%Z) existingData in
        let '(h, drawn, _) := updateTrainState E now h drawn trainId recentData in
        (h, drawn)
    | None => (h, drawn)
    end
  else (h, drawn).

(** A call on the hub that leads to a fusion update, with the outside
    world and the clock at that moment: a normalised reading handed to
    [processNormalizedData], or [updateTrainState] called with a batch. *)
Inductive call : Type :=
| process (E : env) (now : Z) (data : reading)
| update (E : env) (now : Z) (trainId : string) (newData : list reading).

Definition step (acc : hub * nat) (c : call) : hub * nat :=
  match c with
  | process E now data => processNormalizedData E now acc.1 acc.2 data
  | update E now trainId newData =>
      (updateTrainState E now acc.1 acc.2 trainId newData).1
  end.

(** The hub (and the number of random draws) after a sequence of calls
    on a new hub. *)
Definition run (calls : list call) : hub * nat :=
  fold_left step calls (new_hub, 0%nat).

(** *** Covariance is read, never written *)

Lemma fuseDataSources_covariance E now drawn e l :
  covariance (fuseDataSources E now drawn e l).1.1 = covariance e.
Proof.
  unfold fuseDataSources.
  destruct (fold_left (fuse_one E e) l (state e, drawn)) as [st n].
  reflexivity.
Qed.

Lemma fuseDataSources_confidence E now drawn e l :
  confidence (fuseDataSources E now drawn e l).1.2 = calculateConfidence e.
Proof.
  unfold fuseDataSources.
  destruct (fold_left (fuse_one E e) l (state e, drawn)) as [st n].
  reflexivity.
Qed.

Lemma initial_confidence e :
  covariance e = covariance (initializeKalmanFilter (trainId e)) ->
  calculateConfidence e = 0.9.
Proof.
  intros H. unfold calculateConfidence. rewrite H. reflexivity.
Qed.

(** The invariant of the hub. *)
Record hub_inv (h : hub) : Prop := {
  estimators_initial :
    forall id e, stateEstimators h !! id = Some e ->
                 covariance e = covariance (initializeKalmanFilter id);
  active_confident :
    forall id t, activeTrains h !! id = Some t ->
                 confidence (current t) = 0.9;
  emitted_confident :
    Forall (fun f => confidence f = 0.9) (emitted h)
}.

Lemma new_hub_inv : hub_inv new_hub.
Proof.
  split; [| |constructor]; intros id x H; cbn in H;
    rewrite lookup_empty in H; discriminate.
Qed.

Lemma updateTrainState_inv E now h drawn id l :
  hub_inv h -> hub_inv (updateTrainState E now h drawn id l).1.1.
Proof.
  intros [Hest Hact Hem]. unfold updateTrainState.
  set (e0 := match stateEstimators h !! id with
             | Some e => e | None => initializeKalmanFilter id end).
  assert (He0 : covariance e0 = covariance (initializeKalmanFilter id)).
  { subst e0. destruct (stateEstimators h !! id) eqn:Hl; [eauto | reflexivity]. }
  pose proof (fuseDataSources_covariance E now drawn e0 l) as Hc.
  pose proof (fuseDataSources_confidence E now drawn e0 l) as Hf.
  destruct (fuseDataSources E now drawn e0 l) as [[e1 f1] n1].
  cbn in Hc, Hf |- *.
  assert (Hf1 : confidence f1 = 0.9)
    by (rewrite Hf; apply initial_confidence; exact He0).
  split; cbn.
  - intros id' x Hl. destruct (decide (id = id')) as [->|Hne].
    + rewrite lookup_insert_eq in Hl. injection Hl as <-.
      rewrite Hc. exact He0.
    + rewrite lookup_insert_ne in Hl by assumption. exact (Hest _ _ Hl).
  - intros id' x Hl. destruct (decide (id = id')) as [->|Hne].
    + rewrite lookup_insert_eq in Hl. injection Hl as <-. exact Hf1.
    + rewrite lookup_insert_ne in Hl by assumption. exact (Hact _ _ Hl).
  - apply Forall_app. split; [exact Hem|]. constructor; [exact Hf1|constructor].
Qed.

Lemma processNormalizedData_inv E now h drawn d :
  hub_inv h -> hub_inv (processNormalizedData E now h drawn d).1.
Proof.
  intros Hinv. unfold processNormalizedData.
  destruct (truthy_string (data_trainId d)); [|exact Hinv].
  destruct (data_trainId d) as [id|]; [|exact Hinv].
  match goal with
  | |- context [updateTrainState E now h drawn id ?l] =>
      pose proof (updateTrainState_inv E now h drawn id l Hinv) as H;
      destruct (updateTrainState E now h drawn id l) as [[h1 n1] f1]
  end.
  exact H.
Qed.

Lemma step_inv acc c : hub_inv acc.1 -> hub_inv (step acc c).1.
Proof.
  intros Hinv. destruct c as [E now d | E now id l]; cbn [step].
  - apply processNormalizedData_inv. exact Hinv.
  - apply updateTrainState_inv. exact Hinv.
Qed.

Lemma run_from_inv calls acc :
  hub_inv acc.1 -> hub_inv (fold_left step calls acc).1.
Proof.
  revert acc. induction calls as [|c calls IH]; intros acc Hacc.
  - exact Hacc.
  - cbn. apply IH. apply step_inv. exact Hacc.
Qed.

Lemma run_inv calls : hub_inv (run calls).1.
Proof. apply run_from_inv. exact new_hub_inv. Qed.

(** *** Occupancy readings *)

(** The sentence of the specification, with "the expected train" read as
    the train the estimator belongs to. *)
Definition occupancy_corrects_only_for_expected_train : Prop :=
  forall (E : env) (drawn : nat) (st : kalman) (c : circuit_reading)
         (e : estimator),
    (updateWithTrackCircuit E drawn st c e).1 <> st ->
    occupied c = true /\ trainDetected c = Some (trainId e).

Definition steady_world : env :=
  {| random := fun _ => 0.5; findStation := fun _ => None |}.

Definition section_occupied_by (train : string) : circuit_reading :=
  {| sectionId := "SECTION_MUMBAI_SURAT";
     circuit_timestamp := 1700000000000;
     occupied := true;
     trainDetected := Some train;
     signalState := "RED";
     circuit_quality := 1.0 |}.

Lemma latlon_changed (st st' : kalman) :
  is_nan (lat (position st')) <> is_nan (lat (position st)) -> st' <> st.
Proof. intros H ->. apply H. reflexivity. Qed.

(** C3, as stated, fails: a section occupied by train 12619 corrects the
    position held for train 12951. *)
Lemma occupancy_by_another_train_corrects :
  ~ occupancy_corrects_only_for_expected_train.
Proof.
  intros claim.
  destruct (claim steady_world 0%nat (state (initializeKalmanFilter "12951"))
              (section_occupied_by "12619") (initializeKalmanFilter "12951"))
    as [_ Hid].
  - apply latlon_changed. vm_compute. discriminate.
  - discriminate Hid.
Qed.

(** C3, amended.  An occupancy reading changes the fused state only when
    it reports the section occupied, names a detected train (whichever it
    is) and the section-position lookup hands back an object; in every
    other case the state is returned as it was and no random number is
    drawn.  Speed, heading and acceleration are kept in all cases. *)
Theorem updateWithTrackCircuit_guard (E : env) (drawn : nat) (st : kalman)
    (c : circuit_reading) (e : estimator) :
  ((updateWithTrackCircuit E drawn st c e).1 <> st ->
     occupied c = true
     /\ truthy_string (trainDetected c) = true
     /\ truthy_promise (getTrackSectionPosition E drawn (sectionId c)).1 = true)
  /\ (occupied c && truthy_string (trainDetected c) = false ->
      updateWithTrackCircuit E drawn st c e = (st, drawn))
  /\ velocity (updateWithTrackCircuit E drawn st c e).1 = velocity st
  /\ acceleration (updateWithTrackCircuit E drawn st c e).1 = acceleration st.
Proof.
  unfold updateWithTrackCircuit.
  destruct (occupied c); cbn [andb];
    [destruct (truthy_string (trainDetected c)); cbn|];
    (split; [intros Hchanged|split; [intros Hguard|split]]);
    try reflexivity; try discriminate;
    try (exfalso; apply Hchanged; reflexivity).
  repeat split.
Qed.

Lemma updateWithTrackCircuit_guard_witness :
  occupied (section_occupied_by "12619") = true
  /\ truthy_string (trainDetected (section_occupied_by "12619")) = true
  /\ truthy_promise
       (getTrackSectionPosition steady_world 0
          (sectionId (section_occupied_by "12619"))).1 = true.
Proof.
  apply (proj1 (updateWithTrackCircuit_guard steady_world 0%nat
                  (state (initializeKalmanFilter "12951"))
                  (section_occupied_by "12619")
                  (initializeKalmanFilter "12951"))).
  apply latlon_changed. vm_compute. discriminate.
Defined.

(** *** Confidence *)

(** C10.  The covariance set by [initializeKalmanFilter] (position 10.0,
    velocity 5.0) is never modified: a fusion update returns an estimator
    with the covariance it was given.  So after any sequence of calls,
    with readings of any sources and qualities, every estimator of the
    hub still has the initial values, and every fused state, stored in
    [activeTrains] or emitted, reports the confidence 0.9. *)
Theorem covariance_is_never_updated (calls : list call) :
  (forall E now drawn e batch,
     covariance (fuseDataSources E now drawn e batch).1.1 = covariance e)
  /\ (forall id e,
       stateEstimators (run calls).1 !! id = Some e ->
       of_position (covariance e) = 10.0 /\ of_velocity (covariance e) = 5.0)
  /\ (forall id t,
       activeTrains (run calls).1 !! id = Some t ->
       confidence (current t) = 0.9)
  /\ Forall (fun f => confidence f = 0.9) (emitted (run calls).1).
Proof.
  destruct (run_inv calls) as [Hest Hact Hem].
  split; [|split; [|split]].
  - intros. apply fuseDataSources_covariance.
  - intros id e Hl. rewrite (Hest id e Hl). split; reflexivity.
  - exact Hact.
  - exact Hem.
Qed.

(** C5.  Whatever the readings and their qualities, every fused state
    produced by a sequence of fusion updates, stored in [activeTrains] or
    emitted, has a confidence in [0,1]. *)
Theorem confidence_in_unit_interval (calls : list call) :
  (forall id t,
     activeTrains (run calls).1 !! id = Some t ->
     (0 <=? confidence (current t)) = true
     /\ (confidence (current t) <=? 1) = true)
  /\ Forall (fun f => (0 <=? confidence f) = true
                      /\ (confidence f <=? 1) = true)
            (emitted (run calls).1).
Proof.
  destruct (run_inv calls) as [_ Hact Hem]. split.
  - intros id t Hl. rewrite (Hact id t Hl). split; reflexivity.
  - eapply List.Forall_impl; [|exact Hem].
    intros f Hf. cbn in Hf. rewrite Hf. split; reflexivity.
Qed.

(** *** Determinism of the fusion *)

(** A list of readings in strictly increasing timestamp order. *)
Definition by_timestamp (l : list reading) : Prop :=
  StronglySorted (fun a b => (timestamp a < timestamp b)%Z) l.

Lemma by_timestamp_tail_above a l x :
  by_timestamp (a :: l) -> In x l -> (timestamp a < timestamp x)%Z.
Proof.
  intros Hs Hin. apply StronglySorted_inv in Hs as [_ Hall].
  rewrite List.Forall_forall in Hall. exact (Hall x Hin).
Qed.

(** Two timestamp-ordered presentations of the same readings are the same
    sequence. *)
Lemma by_timestamp_unique l1 :
  forall l2, by_timestamp l1 -> by_timestamp l2 -> Permutation l1 l2 -> l1 = l2.
Proof.
  induction l1 as [|a l1 IH]; intros l2 H1 H2 Hp.
  - symmetry. apply Permutation_nil. exact Hp.
  - destruct l2 as [|b l2].
    + apply Permutation_sym, Permutation_nil in Hp. discriminate Hp.
    + assert (Hab : a = b).
      { assert (Ha : In a (b :: l2))
          by (apply (Permutation_in _ Hp); left; reflexivity).
        assert (Hb : In b (a :: l1))
          by (apply (Permutation_in _ (Permutation_sym Hp)); left; reflexivity).
        destruct Ha as [Ha | Ha]; [congruence|].
        destruct Hb as [Hb | Hb]; [congruence|].
        pose proof (by_timestamp_tail_above _ _ _ H2 Ha).
        pose proof (by_timestamp_tail_above _ _ _ H1 Hb). lia. }
      subst b. f_equal. apply IH.
      * apply StronglySorted_inv in H1. tauto.
      * apply StronglySorted_inv in H2. tauto.
      * eapply Permutation_cons_inv. exact Hp.
Qed.

(** One reading moves the fused state the same way in any outside world
    and at any draw count. *)
Lemma fuse_one_world_independent E1 E2 e st n1 n2 d :
  (fuse_one E1 e (st, n1) d).1 = (fuse_one E2 e (st, n2) d).1.
Proof.
  destruct d as [g | c | s | src t]; cbn; try reflexivity.
  unfold updateWithTrackCircuit.
  destruct (occupied c && truthy_string (trainDetected c)); reflexivity.
Qed.

Lemma fold_fuse_world_independent E1 E2 e l :
  forall st n1 n2,
    (fold_left (fuse_one E1 e) l (st, n1)).1
    = (fold_left (fuse_one E2 e) l (st, n2)).1.
Proof.
  induction l as [|d l IH]; intros st n1 n2; [reflexivity|].
  cbn [fold_left].
  pose proof (fuse_one_world_independent E1 E2 e st n1 n2 d) as Hd.
  destruct (fuse_one E1 e (st, n1) d) as [s1 m1].
  destruct (fuse_one E2 e (st, n2) d) as [s2 m2].
  cbn in Hd. subst s2. apply IH.
Qed.

Lemma fuseDataSources_world_independent E1 E2 now1 now2 n1 n2 e l :
  let r1 := fuseDataSources E1 now1 n1 e l in
  let r2 := fuseDataSources E2 now2 n2 e l in
  r1.1.1 = r2.1.1
  /\ fused_position r1.1.2 = fused_position r2.1.2
  /\ fused_speed r1.1.2 = fused_speed r2.1.2
  /\ fused_heading r1.1.2 = fused_heading r2.1.2
  /\ confidence r1.1.2 = confidence r2.1.2.
Proof.
  unfold fuseDataSources.
  pose proof (fold_fuse_world_independent E1 E2 e l (state e) n1 n2) as Hf.
  destruct (fold_left (fuse_one E1 e) l (state e, n1)) as [s1 m1].
  destruct (fold_left (fuse_one E2 e) l (state e, n2)) as [s2 m2].
  cbn in Hf. subst s2. cbn. repeat split; reflexivity.
Qed.

Lemma updateTrainState_world_independent E1 E2 now1 now2 n1 n2 h id l :
  let r1 := updateTrainState E1 now1 h n1 id l in
  let r2 := updateTrainState E2 now2 h n2 id l in
  stateEstimators r1.1.1 = stateEstimators r2.1.1
  /\ fused_position r1.2 = fused_position r2.2
  /\ fused_speed r1.2 = fused_speed r2.2
  /\ fused_heading r1.2 = fused_heading r2.2
  /\ confidence r1.2 = confidence r2.2.
Proof.
  unfold updateTrainState.
  set (e0 := match stateEstimators h !! id with
             | Some e => e | None => initializeKalmanFilter id end).
  pose proof (fuseDataSources_world_independent E1 E2 now1 now2 n1 n2 e0 l)
    as (He & Hp & Hs & Hh & Hc).
  destruct (fuseDataSources E1 now1 n1 e0 l) as [[e1 f1] m1].
  destruct (fuseDataSources E2 now2 n2 e0 l) as [[e2 f2] m2].
  cbn in *. subst e2. repeat split; assumption.
Qed.

(** What two runs of the fusion agree on: the new estimator and the
    position, speed, heading and confidence returned, for
    [fuseDataSources] on an estimator and for [updateTrainState] on a
    hub. *)
Definition same_fused_state (E1 E2 : env) (now1 now2 : Z) (n1 n2 : nat)
    (e : estimator) (l1 l2 : list reading) : Prop :=
  let r1 := fuseDataSources E1 now1 n1 e l1 in
  let r2 := fuseDataSources E2 now2 n2 e l2 in
  r1.1.1 = r2.1.1
  /\ fused_position r1.1.2 = fused_position r2.1.2
  /\ fused_speed r1.1.2 = fused_speed r2.1.2
  /\ fused_heading r1.1.2 = fused_heading r2.1.2
  /\ confidence r1.1.2 = confidence r2.1.2
  /\ (forall h id,
        let u1 := updateTrainState E1 now1 h n1 id l1 in
        let u2 := updateTrainState E2 now2 h n2 id l2 in
        stateEstimators u1.1.1 = stateEstimators u2.1.1
        /\ fused_position u1.2 = fused_position u2.2
        /\ fused_speed u1.2 = fused_speed u2.2
        /\ fused_heading u1.2 = fused_heading u2.2
        /\ confidence u1.2 = confidence u2.2).

(** C7, for readings with pairwise distinct timestamps.  Fusion is a
    function of the estimator and of the sequence of readings presented:
    two runs on the same sequence agree on the new estimator state and on
    position, speed, heading and confidence, whatever [Math.random], the
    station lookup and the clock give in each run.  Hence two arrival
    orders of the same readings, each put in (strictly increasing)
    timestamp order before fusion, are presented as the same sequence and
    fuse to the same state. *)
Theorem fusion_deterministic (E1 E2 : env) (now1 now2 : Z) (n1 n2 : nat)
    (e : estimator) :
  (forall l, same_fused_state E1 E2 now1 now2 n1 n2 e l l)
  /\ (forall l1 l2,
        Permutation l1 l2 -> by_timestamp l1 -> by_timestamp l2 ->
        l1 = l2 /\ same_fused_state E1 E2 now1 now2 n1 n2 e l1 l2).
Proof.
  assert (Hsame : forall l, same_fused_state E1 E2 now1 now2 n1 n2 e l l).
  { intros l. unfold same_fused_state.
    pose proof (fuseDataSources_world_independent E1 E2 now1 now2 n1 n2 e l)
      as (He & Hpos & Hs & Hh & Hc).
    repeat (split; [assumption|]).
    intros h id. apply updateTrainState_world_independent. }
  split; [exact Hsame|].
  intros l1 l2 Hp H1 H2.
  assert (Heq : l1 = l2) by (apply by_timestamp_unique; assumption).
  subst l2. split; [reflexivity | apply Hsame].
Qed.

(** *** Concrete runs *)

Definition gps_fix : reading :=
  GPS {| gps_trainId := Some "12951";
         gps_timestamp := 1700000000000;
         latitude := 19.0760; longitude := 72.8777;
         gps_accuracy := 3.0; gps_speed := 85; gps_heading := 45;
         gps_quality := 1.0 |}.

Definition arrival_report : reading :=
  STATION_REPORT
    {| stationId := "SURAT_STATION";
       report_timestamp := 1700000060000;
       report_trainId := Some "12951";
       event := Some "ARRIVAL";
       platform := Some "Platform 1";
       delay := 8; passengerCount := 450;
       reportedBy := Some "SM_SURAT_001";
       report_quality := 1.0 |}.

Definition surveyed_world : env :=
  {| random := fun _ => 0.25;
     findStation := fun _ => Some {| lat := 21.17; lon := 72.83 |} |}.

Lemma fusion_deterministic_witness :
  [gps_fix; arrival_report] = [gps_fix; arrival_report]
  /\ same_fused_state steady_world surveyed_world
       1700000061000 1700000099000 0 6
       (initializeKalmanFilter "12951")
       [gps_fix; arrival_report] [gps_fix; arrival_report].
Proof.
  apply (proj2 (fusion_deterministic steady_world surveyed_world
                  1700000061000 1700000099000 0 6
                  (initializeKalmanFilter "12951"))).
  - apply Permutation_refl.
  - repeat constructor.
  - repeat constructor.
Defined.

(** Fixes that carry the same timestamp have no timestamp order of their
    own: presented one way round or the other they fuse differently. *)
Definition later_fix : reading :=
  GPS {| gps_trainId := Some "12951";
         gps_timestamp := 1700000000000;
         latitude := 19.2; longitude := 72.9;
         gps_accuracy := 3.0; gps_speed := 90; gps_heading := 45;
         gps_quality := 1.0 |}.

Example equal_timestamps_keep_presented_order :
  let e := initializeKalmanFilter "12951" in
  timestamp gps_fix = timestamp later_fix
  /\ fused_speed (fuseDataSources steady_world 0 0 e [gps_fix; later_fix]).1.2
     = 84.319526627218934
  /\ fused_speed (fuseDataSources steady_world 0 0 e [later_fix; gps_fix]).1.2
     = 81.360946745562131.
Proof. vm_compute. repeat split. Qed.

(** C7 as it is stated, for every reading set, fails on readings that
    share a timestamp.  The two fixes are one reading set; presented in
    either arrival order they are in timestamp order, and a stable sort
    by timestamp leaves either order as it arrived; the two
    presentations fuse to different states. *)
Lemma equal_timestamps_fuse_differently :
  Permutation [gps_fix; later_fix] [later_fix; gps_fix]
  /\ StronglySorted (fun a b => (timestamp a <= timestamp b)%Z)
       [gps_fix; later_fix]
  /\ StronglySorted (fun a b => (timestamp a <= timestamp b)%Z)
       [later_fix; gps_fix]
  /\ ~ same_fused_state steady_world steady_world 0 0 0 0
         (initializeKalmanFilter "12951")
         [gps_fix; later_fix] [later_fix; gps_fix].
Proof.
  split; [apply perm_swap|].
  split; [repeat (constructor; cbn; try lia)|].
  split; [repeat (constructor; cbn; try lia)|].
  intros (_ & _ & Hspeed & _).
  apply (f_equal (fun v => v <? 82)) in Hspeed. vm_compute in Hspeed.
  discriminate Hspeed.
Qed.

Lemma confidence_in_unit_interval_witness :
  Forall (fun f => (0 <=? confidence f) = true
                   /\ (confidence f <=? 1) = true)
         (emitted (run [process steady_world 1700000000500 gps_fix;
                        process surveyed_world 1700000061000 arrival_report]).1).
Proof.
  apply (proj2 (confidence_in_unit_interval
                  [process steady_world 1700000000500 gps_fix;
                   process surveyed_world 1700000061000 arrival_report])).
Defined.

Lemma covariance_is_never_updated_witness :
  Forall (fun f => confidence f = 0.9)
         (emitted (run [process steady_world 1700000000500 gps_fix;
                        update surveyed_world 1700000061000 "12951"
                          [TRACK_CIRCUIT (section_occupied_by "12951");
                           arrival_report]]).1).
Proof.
  apply (proj2 (proj2 (proj2 (covariance_is_never_updated
                  [process steady_world 1700000000500 gps_fix;
                   update surveyed_world 1700000061000 "12951"
                     [TRACK_CIRCUIT (section_occupied_by "12951");
                      arrival_report]])))).
Defined.

(** After one positional fix the train is active, a weight of 10/13 of
    the way from the origin to the fix, with confidence 0.9; the fix's
    own heading is not used. *)
Example one_fix_is_fused :
  let h := (run [process steady_world 1700000000500 gps_fix]).1 in
  exists t,
    activeTrains h !! "12951" = Some t
    /\ emitted h = [current t]
    /\ fused_position (current t)
       = {| lat := 14.673846153846155; lon := 56.059769230769234 |}
    /\ fused_speed (current t) = 65.384615384615387
    /\ fused_heading (current t) = 0
    /\ confidence (current t) = 0.9.
Proof.
  eexists. split; [vm_compute; reflexivity|]. vm_compute. repeat split.
Qed.

(** A track-circuit reading handed to [processNormalizedData] has no
    [trainId] and leads to no fusion update at all. *)
Example circuit_reading_is_not_routed E now h drawn c :
  processNormalizedData E now h drawn (TRACK_CIRCUIT c) = (h, drawn).
Proof. reflexivity. Qed.

(** The ingestion path drops a reading that is more than five minutes
    old by the clock: the train becomes active with nothing fused. *)
Example stale_reading_is_dropped :
  let h := (run [process steady_world (1700000000000 + 5 * 60 * 1000) gps_fix]).1 in
  exists t,
    activeTrains h !! "12951" = Some t
    /\ fused_position (current t) = {| lat := 0; lon := 0 |}
    /\ fused_speed (current t) = 0
    /\ dataQuality t = 0.
Proof.
  eexists. split; [vm_compute; reflexivity|]. vm_compute. repeat split.
Qed.

(** A station report, and likewise an occupied track section, leaves the
    fused position at NaN: the coordinates are read off the promise. *)
Example report_position_is_nan :
  let f := (fuseDataSources surveyed_world 1700000061000 0
              (initializeKalmanFilter "12951") [gps_fix; arrival_report]).1.2 in
  is_nan (lat (fused_position f)) = true
  /\ is_nan (lon (fused_position f)) = true
  /\ fused_speed f = 0.
Proof. vm_compute. repeat split. Qed.

Example occupied_section_position_is_nan :
  let st := (updateWithTrackCircuit surveyed_world 0
               (state (initializeKalmanFilter "12951"))
               (section_occupied_by "12951")
               (initializeKalmanFilter "12951")).1 in
  is_nan (lat (position st)) = true /\ is_nan (lon (position st)) = true.
Proof. vm_compute. repeat split. Qed.

End Estimator.


(** ** Conflict detector: safety-distance violations *)

Module SafetyDistance.

Import JS Estimator.
Open Scope float_scope.

(** The conflict object, without its [description] (a rendering of the
    two train ids and of the distance to two decimals). *)
Record conflict : Type := {
  type : string;
  severity : string;
  trains : list string;
  distance : float;
  location : latlon;
  recommendedAction : string
}.

(** [Math.PI] *)
Definition Math_PI : float := 3.141592653589793.

Section Distance.

(** [Math.sin], [Math.cos] and [Math.atan2] are functions on binary64
    numbers whose values the language leaves to the implementation;
    [Math.sqrt] is the correctly rounded square root. *)
Variable Math_sin Math_cos : float -> float.
Variable Math_atan2 : float -> float -> float.

(** Haversine formula, in kilometres, as the code evaluates it. *)
Definition calculateDistance (pos1 pos2 : latlon) : float :=
  let R := 6371 in
  let dLat := (lat pos2 - lat pos1) * Math_PI / 180 in
  let dLon := (lon pos2 - lon pos1) * Math_PI / 180 in
  let a := Math_sin (dLat / 2) * Math_sin (dLat / 2)
           + Math_cos (lat pos1 * Math_PI / 180)
             * Math_cos (lat pos2 * Math_PI / 180)
             * Math_sin (dLon / 2) * Math_sin (dLon / 2) in
  let c := 2 * Math_atan2 (PrimFloat.sqrt a) (PrimFloat.sqrt (1 - a)) in
  R * c.

Definition SAFETY_DISTANCE_KM : float := 2.

(** The scanned trains are [activeTrains] entries: [train.trainId] and
    [train.position] are fields of the fused state spread into them. *)
Definition violation (train1 train2 : active_train) : conflict :=
  {| type := "SAFETY_DISTANCE_VIOLATION";
     severity := "CRITICAL";
     trains := [fused_trainId (current train1); fused_trainId (current train2)];
     distance := calculateDistance (fused_position (current train1))
                                   (fused_position (current train2));
     location := fused_position (current train1);
     recommendedAction := "EMERGENCY_HALT" |}.

(** The body of the inner loop. *)
Definition check_pair (train1 train2 : active_train) : list conflict :=
  let distance := calculateDistance (fused_position (current train1))
                                    (fused_position (current train2)) in
  if distance <? SAFETY_DISTANCE_KM then [violation train1 train2] else [].

(** The two nested loops: [trains[i]] against every later [trains[j]]. *)
Fixpoint detectSafetyDistanceViolations (trains : list active_train)
  : list conflict :=
  match trains with
  | [] => []
  | train1 :: later =>
      flat_map (check_pair train1) later ++ detectSafetyDistanceViolations later
  end.

(** *** Which pairs are flagged *)

(** The distance the check computes for the pair is below 2. *)
Definition too_close (train1 train2 : active_train) : Prop :=
  (calculateDistance (fused_position (current train1))
                     (fused_position (current train2)) <? 2) = true.

Lemma check_pair_spec train1 train2 c :
  In c (check_pair train1 train2) <->
  too_close train1 train2 /\ c = violation train1 train2.
Proof.
  unfold check_pair, too_close, SAFETY_DISTANCE_KM.
  destruct (calculateDistance _ _ <? 2); cbn.
  - split; [intros [<- | []]; auto | intros [_ ->]; auto].
  - split; [intros [] | intros [Hlt _]; discriminate Hlt].
Qed.

Lemma inner_loop_spec train1 later c :
  In c (flat_map (check_pair train1) later) <->
  exists j train2,
    later !! j = Some train2
    /\ too_close train1 train2
    /\ c = violation train1 train2.
Proof.
  rewrite in_flat_map. split.
  - intros (train2 & Hin & Hc). apply check_pair_spec in Hc as [Hlt ->].
    apply list_elem_of_In, list_elem_of_lookup in Hin as [j Hj].
    exists j, train2. auto.
  - intros (j & train2 & Hj & Hlt & ->). exists train2. split.
    + apply list_elem_of_In, list_elem_of_lookup. exists j. exact Hj.
    + apply check_pair_spec. auto.
Qed.

Lemma detect_spec trains :
  forall c,
    In c (detectSafetyDistanceViolations trains) <->
    exists i j train1 train2,
      (i < j)%nat
      /\ trains !! i = Some train1
      /\ trains !! j = Some train2
      /\ too_close train1 train2
      /\ c = violation train1 train2.
Proof.
  induction trains as [|t later IH]; intros c; cbn [detectSafetyDistanceViolations].
  - split; [intros [] | intros (i & j & t1 & t2 & _ & Hi & _)].
    rewrite lookup_nil in Hi. discriminate.
  - rewrite in_app_iff, inner_loop_spec, IH. split.
    + intros [(j & t2 & Hj & Hlt & ->) | (i & j & t1 & t2 & Hij & Hi & Hj & Hlt & ->)].
      * exists 0%nat, (S j), t, t2. repeat split; auto. lia.
      * exists (S i), (S j), t1, t2. repeat split; auto. lia.
    + intros (i & j & t1 & t2 & Hij & Hi & Hj & Hlt & ->).
      destruct j as [|j]; [lia|]. destruct i as [|i].
      * left. cbn in Hi. injection Hi as <-. exists j, t2. auto.
      * right. exists i, j, t1, t2. repeat split; auto. lia.
Qed.



End Distance.

End SafetyDistance.


(** ** Conflict detector: resource over-allocation *)

Module PlatformOccupancy.

Import JS.

(** The fields of an [activeTrains] entry this check reads. *)
Record train : Type := {
  trainId : string;
  speed : float
}.

Record conflict : Type := {
  type : string;
  severity : string;
  trains : list string;
  location : string;
  description : string;
  recommendedAction : string
}.

(** The map key [`${currentStation}_${bucket}`].  The bucket is rendered
    as an integer, so the text after the last underscore is the bucket
    and the text before it the station: the key names the pair. *)
Abbreviation key := (string * Z)%type.

Definition bucket (now : Z) : Z := (now / (10 * 60 * 1000))%Z.

(** State of the scan.  A conflict pushed for a key holds the array
    stored under that key, not a copy of it, so it is kept as the key
    and read when the scan is over. *)
Record scan : Type := {
  platformOccupancy : gmap key (list string);
  conflicts : list key
}.

Definition overallocation (currentStation : string) (occupants : list string)
  : conflict :=
  {| type := "RESOURCE_OVERALLOCATION";
     severity := "MEDIUM";
     trains := occupants;
     location := currentStation;
     description := String.append "Platform overallocation at " currentStation;
     recommendedAction := "STAGGER_ARRIVALS" |}.

Section Detect.

(** [getCurrentStation(trainId)]: the station recorded for the train, or
    [null]. *)
Variable getCurrentStation : string -> option string.

(** [Date_now i] is the value of [Date.now()] in the turn of the loop that
    handles [trains[i]]. *)
Variable Date_now : nat -> Z.

(** One turn of the loop. *)
Definition visit (st : scan) (t : train) (now : Z) : scan :=
  let currentStation := getCurrentStation (trainId t) in
  if truthy_string currentStation && (speed t <? 5)%float then
    match currentStation with
    | Some station =>
        let k : key := (station, bucket now) in
        let occupants :=
          default [] (platformOccupancy st !! k) ++ [trainId t] in
        {| platformOccupancy := <[k := occupants]> (platformOccupancy st);
           conflicts := if (2 <? length occupants)%nat
                        then conflicts st ++ [k]
                        else conflicts st |}
    | None => st
    end
  else st.

Fixpoint scan_from (i : nat) (trains : list train) (st : scan) : scan :=
  match trains with
  | [] => st
  | t :: later => scan_from (S i) later (visit st t (Date_now i))
  end.

Definition detectResourceOverallocation (trains : list train) : list conflict :=
  let final :=
    scan_from 0 trains {| platformOccupancy := ∅; conflicts := [] |} in
  map (fun k : key =>
         overallocation k.1 (default [] (platformOccupancy final !! k)))
      (conflicts final).

(** The train is near-stationary at [station]. *)
Definition halted_at (station : string) (t : train) : bool :=
  truthy_string (getCurrentStation (trainId t))
  && (speed t <? 5)%float
  && bool_decide (getCurrentStation (trainId t) = Some station).

Definition at_station (station : string) (k : key) : bool :=
  bool_decide (k.1 = station).

(** *** One turn of the loop, seen from one station *)

Lemma visit_halted station t now st :
  halted_at station t = true ->
  let k : key := (station, bucket now) in
  let occupants := default [] (platformOccupancy st !! k) ++ [trainId t] in
  visit st t now
  = {| platformOccupancy := <[k := occupants]> (platformOccupancy st);
       conflicts := if (2 <? length occupants)%nat
                    then conflicts st ++ [k] else conflicts st |}.
Proof.
  unfold halted_at, visit. intros H.
  apply andb_true_iff in H as [Hguard Hst].
  apply bool_decide_eq_true in Hst. rewrite Hguard, Hst. reflexivity.
Qed.

Lemma visit_elsewhere station t now st :
  halted_at station t = false ->
  (forall b, platformOccupancy (visit st t now) !! (station, b)
             = platformOccupancy st !! (station, b))
  /\ List.filter (at_station station) (conflicts (visit st t now))
     = List.filter (at_station station) (conflicts st).
Proof.
  unfold halted_at, visit. intros H.
  destruct (truthy_string (getCurrentStation (trainId t)) && (speed t <? 5)%float);
    [|split; reflexivity].
  destruct (getCurrentStation (trainId t)) as [s|]; [|split; reflexivity].
  cbn in H. apply bool_decide_eq_false in H.
  assert (Hne : s <> station) by congruence.
  cbn [platformOccupancy conflicts]. split.
  - intros b. apply lookup_insert_ne. congruence.
  - destruct (2 <? _)%nat; [|reflexivity].
    rewrite List.filter_app. cbn [List.filter]. unfold at_station at 2.
    cbn [fst]. rewrite bool_decide_eq_false_2 by exact Hne.
    apply app_nil_r.
Qed.

(** *** The whole scan, seen from one station and one bucket *)

(** Number of conflicts pushed while an array grows from [n] to [n + m]
    entries: one per push that leaves it longer than 2. *)
Definition pushes_over_capacity (n m : nat) : nat := ((n + m - 2) - (n - 2))%nat.

Lemma scan_from_station station B trains :
  forall i st,
    (forall j t, trains !! j = Some t -> halted_at station t = true ->
                 bucket (Date_now (i + j)) = B) ->
    let before := default [] (platformOccupancy st !! (station, B)) in
    let halted := map trainId (List.filter (halted_at station) trains) in
    default [] (platformOccupancy (scan_from i trains st) !! (station, B))
    = before ++ halted
    /\ List.filter (at_station station) (conflicts (scan_from i trains st))
       = List.filter (at_station station) (conflicts st)
         ++ replicate (pushes_over_capacity (length before) (length halted))
                      (station, B).
Proof.
  induction trains as [|t later IH]; intros i st HB; cbn zeta.
  - cbn. unfold pushes_over_capacity.
    replace (length _ + 0 - 2 - (length _ - 2))%nat with 0%nat by lia.
    rewrite !app_nil_r. split; reflexivity.
  - cbn [scan_from List.filter].
    assert (HB' : forall j t', later !! j = Some t' ->
                               halted_at station t' = true ->
                               bucket (Date_now (S i + j)) = B).
    { intros j t' Hj Ht'. replace (S i + j)%nat with (i + S j)%nat by lia.
      apply (HB (S j) t'); assumption. }
    specialize (IH (S i) (visit st t (Date_now i)) HB') as [IHocc IHconf].
    cbn zeta in IHocc, IHconf. rewrite IHocc, IHconf. clear IHocc IHconf.
    destruct (halted_at station t) eqn:Hh.
    + assert (HBi : bucket (Date_now i) = B).
      { replace i with (i + 0)%nat by lia. apply (HB 0%nat t); auto. }
      pose proof (visit_halted station t (Date_now i) st Hh) as Hv.
      cbn zeta in Hv. rewrite HBi in Hv. rewrite Hv. clear Hv.
      cbn [platformOccupancy conflicts]. rewrite lookup_insert_eq.
      change (default [] (Some ?l)) with l. cbn [map].
      set (before := default [] (platformOccupancy st !! (station, B))).
      set (halted := map trainId (List.filter (halted_at station) later)).
      rewrite <- List.app_assoc. split; [reflexivity|].
      rewrite !length_app. cbn [length]. unfold pushes_over_capacity.
      destruct (2 <? length before + 1)%nat eqn:Hover.
      * apply Nat.ltb_lt in Hover.
        rewrite List.filter_app. cbn [List.filter]. unfold at_station at 2.
        cbn [fst]. rewrite bool_decide_eq_true_2 by reflexivity.
        rewrite <- app_assoc. f_equal. cbn [app].
        replace (length before + S (length halted) - 2 - (length before - 2))%nat
          with (S (length before + 1 + length halted - 2
                   - (length before + 1 - 2)))%nat by lia.
        reflexivity.
      * apply Nat.ltb_ge in Hover. f_equal. f_equal. lia.
    + destruct (visit_elsewhere station t (Date_now i) st Hh) as [Hocc Hconf].
      rewrite Hocc, Hconf. split; reflexivity.
Qed.

Lemma filter_location_map station (final : scan) (ks : list key) :
  List.filter (fun x => bool_decide (location x = station))
    (map (fun k : key =>
            overallocation k.1 (default [] (platformOccupancy final !! k))) ks)
  = map (fun k : key =>
           overallocation k.1 (default [] (platformOccupancy final !! k)))
        (List.filter (at_station station) ks).
Proof.
  induction ks as [|k ks IH]; [reflexivity|].
  cbn [map List.filter]. unfold at_station at 1. cbn [location overallocation].
  destruct (bool_decide (k.1 = station)); cbn [map]; rewrite IH; reflexivity.
Qed.

(** C6.  When exactly three of the scanned trains are near-stationary
    (speed below 5) at a station, and the clock readings of their three
    turns fall in one 10-minute bucket, the check emits exactly one conflict for that station: a
    RESOURCE_OVERALLOCATION of severity MEDIUM with action
    STAGGER_ARRIVALS whose trains are the three ids, in scan order. *)
Theorem third_halted_train_one_conflict (station : string) (B : Z)
    (trains : list train) (a b c : string) :
  (forall i t, trains !! i = Some t -> halted_at station t = true ->
               bucket (Date_now i) = B) ->
  map trainId (List.filter (halted_at station) trains) = [a; b; c] ->
  List.filter (fun x => bool_decide (location x = station))
    (detectResourceOverallocation trains)
  = [ {| type := "RESOURCE_OVERALLOCATION";
         severity := "MEDIUM";
         trains := [a; b; c];
         location := station;
         description := String.append "Platform overallocation at " station;
         recommendedAction := "STAGGER_ARRIVALS" |} ].
Proof.
  intros HB Hthree. unfold detectResourceOverallocation. cbn zeta.
  rewrite filter_location_map.
  destruct (scan_from_station station B trains 0
              {| platformOccupancy := ∅; conflicts := [] |}) as [Hocc Hconf].
  { intros j t Hj Ht. apply (HB j t); assumption. }
  cbn zeta in Hocc, Hconf. cbn [platformOccupancy conflicts] in Hocc, Hconf.
  rewrite lookup_empty in Hocc, Hconf. cbn [default] in Hocc, Hconf.
  rewrite Hthree in Hocc, Hconf. cbn in Hconf.
  rewrite Hconf. cbn [map fst]. rewrite Hocc. reflexivity.
Qed.

End Detect.

(** *** A scan of New Delhi *)

Definition station_of (trainId : string) : option string :=
  if String.eqb trainId "14000" then Some "CNB" else Some "NDLS".

Definition scan_clock (i : nat) : Z := (1700000000000 + Z.of_nat i)%Z.

Definition halted (id : string) (v : float) : train :=
  {| trainId := id; speed := v |}.

Definition evening_trains : list train :=
  [halted "12951" 0; halted "14000" 0; halted "12619" 3;
   halted "22222" 80; halted "12301" 4.5].

Lemma third_halted_train_one_conflict_witness :
  List.filter (fun x => bool_decide (location x = "NDLS"))
    (detectResourceOverallocation station_of scan_clock evening_trains)
  = [ {| type := "RESOURCE_OVERALLOCATION";
         severity := "MEDIUM";
         trains := ["12951"; "12619"; "12301"];
         location := "NDLS";
         description := String.append "Platform overallocation at " "NDLS";
         recommendedAction := "STAGGER_ARRIVALS" |} ].
Proof.
  apply (third_halted_train_one_conflict station_of scan_clock
           "NDLS" 2833333 evening_trains "12951" "12619" "12301").
  - intros i t Hi _. do 5 (destruct i as [|i]; [reflexivity|]).
    discriminate Hi.
  - vm_compute. reflexivity.
Defined.

(** The same scan emits nothing else. *)
Example evening_scan :
  detectResourceOverallocation station_of scan_clock evening_trains
  = [overallocation "NDLS" ["12951"; "12619"; "12301"]].
Proof. vm_compute. reflexivity. Qed.

(** A fourth halted train adds a second conflict, and both then list all
    four trains: the two conflicts hold the same array. *)
Example fourth_halted_train :
  detectResourceOverallocation station_of scan_clock
    (evening_trains ++ [halted "12002" 1])
  = [overallocation "NDLS" ["12951"; "12619"; "12301"; "12002"];
     overallocation "NDLS" ["12951"; "12619"; "12301"; "12002"]].
Proof. vm_compute. reflexivity. Qed.

End PlatformOccupancy.


(** ** Schedules: evaluation and real-time reconciliation *)

Module Brain.

Import JS.
Open Scope Z_scope.

(** A station stop is an object that [rightShiftSchedule] and [mutate]
    write in place, so stops live in a store and a schedule lists
    references to them.  Times are the time values of valid [Date]s,
    whole numbers of milliseconds; invalid dates, the range of [Date]
    and the rounding of numbers are the matter of [Reconciler] below. *)
Record stationStop : Type := {
  stationId : string;
  arrivalTime : Z;
  departureTime : Z;
  isHalt : bool;
  haltDuration : Z
}.

Abbreviation ref := nat.

Abbreviation store := (gmap ref stationStop).

(** The schedule of one train.  [departure] is its own [departureTime]. *)
Record trainSchedule : Type := {
  trainId : string;
  trainNumber : string;
  trainType : string;
  priority : Z;
  departure : Z;
  stations : list ref;
  totalDelay : Z;
  halts : Z
}.

(** The object the genetic algorithm evaluates and returns; [trains] is a
    [Map] in insertion order. *)
Record individual : Type := {
  id : string;
  trains : list (string * trainSchedule);
  fitness : float;
  conflicts : Z
}.

(** *** [detectConflicts]: two stops at one station with one arrival time *)

Definition occupy (h : store) (train : string)
    (acc : Z * gmap (string * Z) string) (r : ref)
  : Z * gmap (string * Z) string :=
  match h !! r with
  | Some stop =>
      let key := (stationId stop, arrivalTime stop) in
      match acc.2 !! key with
      | Some _ => (acc.1 + 1, acc.2)
      | None => (acc.1, <[key := train]> acc.2)
      end
  | None => acc
  end.

Definition detectConflicts (h : store) (schedule : individual) : Z :=
  (fold_left
     (fun acc (entry : string * trainSchedule) =>
        fold_left (occupy h (trainId entry.2)) (stations entry.2) acc)
     (trains schedule) (0, ∅)).1.

(** *** Real-time reconciliation *)

Definition shift (delayMs : Z) (stop : stationStop) : stationStop :=
  {| stationId := stationId stop;
     arrivalTime := arrivalTime stop + delayMs;
     departureTime := departureTime stop + delayMs;
     isHalt := isHalt stop;
     haltDuration := haltDuration stop |}.

(** [rightShiftSchedule(schedule, delayMinutes)]: a shallow copy of the
    schedule whose stops, shared with the original, are moved in place.
    Here the delay is a whole number of minutes and every time stays a
    valid date; [Reconciler.rightShiftSchedule] takes the delay as any
    value of the language and agrees with this one on that domain
    ([ShiftProperties.integer_model_agrees]). *)
Definition rightShiftSchedule (h : store) (schedule : trainSchedule)
    (delayMinutes : Z) : store * trainSchedule :=
  let delayMs := delayMinutes * 60 * 1000 in
  (fold_left (fun h r => alter (shift delayMs) r h) (stations schedule) h,
   {| trainId := trainId schedule;
      trainNumber := trainNumber schedule;
      trainType := trainType schedule;
      priority := priority schedule;
      departure := departure schedule;
      stations := stations schedule;
      totalDelay := totalDelay schedule + delayMinutes;
      halts := halts schedule |}).

(** [localRepair(affectedSchedule, conflictingSchedule)]: a shallow copy
    of the affected schedule, returned as it is. *)
Definition localRepair (affectedSchedule conflictingSchedule : trainSchedule)
  : trainSchedule :=
  affectedSchedule.

(** [Map.prototype.set] on a map kept in insertion order. *)
Fixpoint map_set {V : Type} (k : string) (v : V) (m : list (string * V))
  : list (string * V) :=
  match m with
  | [] => [(k, v)]
  | (k', v') :: m => if String.eqb k' k then (k', v) :: m
                     else (k', v') :: map_set k v m
  end.

Record brain : Type := {
  currentSchedule : gmap string trainSchedule;
  stops : store
}.

(** What [handleRealTimeUpdate] returns, without the processing time and
    the explanation text. *)
Record update : Type := {
  updatedSchedule : trainSchedule;
  affectedSchedules : list (string * trainSchedule)
}.

Inductive outcome : Type :=
| Threw (message : string)
| Returned (b : brain) (result : update).

Definition handleRealTimeUpdate (b : brain) (trainId : string)
    (currentPosition : Estimator.latlon) (currentDelay : Z)
    (affectedTrains : list string) : outcome :=
  match currentSchedule b !! trainId with
  | None => Threw (String.append "No schedule found for train " trainId)
  | Some currentSchedule_ =>
      let '(h, updatedSchedule) :=
        rightShiftSchedule (stops b) currentSchedule_ currentDelay in
      let affectedSchedules :=
        fold_left
          (fun acc affectedTrainId =>
             match currentSchedule b !! affectedTrainId with
             | Some affectedSchedule =>
                 map_set affectedTrainId
                   (localRepair affectedSchedule updatedSchedule) acc
             | None => acc
             end)
          affectedTrains [] in
      Returned
        {| currentSchedule :=
             fold_left
               (fun m (entry : string * trainSchedule) => <[entry.1 := entry.2]> m)
               affectedSchedules
               (<[trainId := updatedSchedule]> (currentSchedule b));
           stops := h |}
        {| updatedSchedule := updatedSchedule;
           affectedSchedules := affectedSchedules |}
  end.

(** A train's reconciler calls in succession, each with its delay and
    its list of affected trains; a call that throws changes nothing. *)
Definition reconcile (trainId : string) (currentPosition : Estimator.latlon)
    (b : brain) (call : Z * list string) : brain :=
  match handleRealTimeUpdate b trainId currentPosition call.1 call.2 with
  | Returned b' _ => b'
  | Threw _ => b
  end.

Definition reconcile_all (trainId : string) (currentPosition : Estimator.latlon)
    (b : brain) (calls : list (Z * list string)) : brain :=
  fold_left (reconcile trainId currentPosition) calls b.

(** The cumulative delay the brain holds for a train (0 without a
    schedule). *)
Definition total_delay_of (b : brain) (trainId : string) : Z :=
  match currentSchedule b !! trainId with
  | Some s => totalDelay s
  | None => 0
  end.

(** *** The right shift, stop by stop *)

Lemma shift_stops_elsewhere (f : stationStop -> stationStop) (rs : list ref) :
  forall (h : store) (r : ref),
    r ∉ rs -> fold_left (fun h r => alter f r h) rs h !! r = h !! r.
Proof.
  induction rs as [|a rs IH]; intros h r Hr; [reflexivity|].
  apply not_elem_of_cons in Hr as [Hne Hr].
  cbn [fold_left]. rewrite (IH _ _ Hr). apply lookup_alter_ne. congruence.
Qed.

Lemma shift_stops_listed (f : stationStop -> stationStop) (rs : list ref) :
  forall (h : store) (r : ref),
    NoDup rs -> r ∈ rs ->
    fold_left (fun h r => alter f r h) rs h !! r = f <$> h !! r.
Proof.
  induction rs as [|a rs IH]; intros h r Hnd Hr.
  - apply elem_of_nil in Hr. contradiction.
  - apply NoDup_cons in Hnd as [Ha Hnd]. cbn [fold_left].
    apply elem_of_cons in Hr as [-> | Hr].
    + rewrite shift_stops_elsewhere by exact Ha. apply lookup_alter_eq.
    + rewrite (IH _ _ Hnd Hr). rewrite lookup_alter_ne; [reflexivity|].
      intros ->. exact (Ha Hr).
Qed.

(** *** What a call leaves in [currentSchedule] *)

Lemma map_set_Forall {V : Type} (P : string * V -> Prop) k v
    (m : list (string * V)) :
  Forall P m -> P (k, v) -> Forall P (map_set k v m).
Proof.
  intros Hm Hkv. induction m as [|[k' v'] m IH]; cbn.
  - constructor; [exact Hkv | constructor].
  - apply Forall_cons in Hm as [Hhd Htl].
    destruct (String.eqb k' k) eqn:Hk.
    + apply String.eqb_eq in Hk. subst k'. constructor; assumption.
    + constructor; [exact Hhd | exact (IH Htl)].
Qed.

(** Every entry of the affected-schedule map is the schedule the brain
    already held for that train, and its train is one of the affected. *)
Lemma affected_are_held (cs : gmap string trainSchedule)
    (updated : trainSchedule) (all ids : list string) :
  forall acc,
    (forall x, x ∈ ids -> x ∈ all) ->
    Forall (fun e : string * trainSchedule =>
              cs !! e.1 = Some e.2 /\ e.1 ∈ all) acc ->
    Forall (fun e : string * trainSchedule =>
              cs !! e.1 = Some e.2 /\ e.1 ∈ all)
      (fold_left
         (fun acc affectedTrainId =>
            match cs !! affectedTrainId with
            | Some affectedSchedule =>
                map_set affectedTrainId
                  (localRepair affectedSchedule updated) acc
            | None => acc
            end)
         ids acc).
Proof.
  induction ids as [|x ids IH]; intros acc Hsub Hacc; [exact Hacc|].
  cbn [fold_left]. apply IH.
  - intros y Hy. apply Hsub. right. exact Hy.
  - destruct (cs !! x) as [sx|] eqn:Hx; [|exact Hacc].
    apply map_set_Forall; [exact Hacc|]. cbn. split; [exact Hx|].
    apply Hsub. left.
Qed.

Lemma store_back_lookup (l : list (string * trainSchedule)) :
  forall (m : gmap string trainSchedule) k,
    (forall v, fold_left (fun m (e : string * trainSchedule) => <[e.1 := e.2]> m) l m
                 !! k = Some v ->
               m !! k = Some v \/ (k, v) ∈ l)
    /\ (is_Some (m !! k) ->
        is_Some (fold_left (fun m (e : string * trainSchedule) => <[e.1 := e.2]> m) l m
                   !! k)).
Proof.
  induction l as [|[k' v'] l IH]; intros m k; cbn [fold_left].
  - split; [intros v Hv; left; exact Hv | intros H; exact H].
  - destruct (IH (<[k' := v']> m) k) as [IH1 IH2]. split.
    + intros v Hv. destruct (IH1 v Hv) as [Hins | Hin].
      * cbn in Hins. destruct (decide (k' = k)) as [->|Hne].
        -- rewrite lookup_insert_eq in Hins. injection Hins as ->.
           right. left.
        -- rewrite lookup_insert_ne in Hins by exact Hne. left. exact Hins.
      * right. right. exact Hin.
    + intros Hsome. apply IH2. cbn. destruct (decide (k' = k)) as [->|Hne].
      * rewrite lookup_insert_eq. eauto.
      * rewrite lookup_insert_ne by exact Hne. exact Hsome.
Qed.

(** One call, seen from the reporting train. *)
Lemma handleRealTimeUpdate_reporting (b : brain) (X : string)
    (pos : Estimator.latlon) (d : Z) (affected : list string)
    (s : trainSchedule) :
  currentSchedule b !! X = Some s ->
  exists b' result s',
    handleRealTimeUpdate b X pos d affected = Returned b' result
    /\ (stops b', updatedSchedule result) = rightShiftSchedule (stops b) s d
    /\ currentSchedule b' !! X = Some s'
    /\ (s' = updatedSchedule result \/ X ∈ affected /\ s' = s)
    /\ (X ∉ affected -> s' = updatedSchedule result).
Proof.
  intros Hs. unfold handleRealTimeUpdate. rewrite Hs.
  destruct (rightShiftSchedule (stops b) s d) as [h upd] eqn:Hshift.
  set (aff := fold_left _ affected []).
  assert (Haff : Forall (fun e : string * trainSchedule =>
                           currentSchedule b !! e.1 = Some e.2 /\ e.1 ∈ affected)
                        aff).
  { apply affected_are_held; [auto | constructor]. }
  rewrite Forall_forall in Haff.
  destruct (store_back_lookup aff (<[X := upd]> (currentSchedule b)) X)
    as [Hfrom Hkept].
  destruct Hkept as [s' Hs']; [rewrite lookup_insert_eq; eauto|].
  eexists _, _, s'. split; [reflexivity|]. cbn.
  split; [reflexivity|]. split; [exact Hs'|].
  destruct (Hfrom s' Hs') as [Hupd | Hin].
  - rewrite lookup_insert_eq in Hupd. injection Hupd as <-.
    split; [left; reflexivity | reflexivity].
  - destruct (Haff _ Hin) as [Hheld Hmem]. cbn in Hheld, Hmem.
    assert (s' = s) by congruence. subst s'.
    split; [right; split; [exact Hmem | reflexivity]|].
    intros Hnot. contradiction.
Qed.

Lemma rightShiftSchedule_total (h : store) (s : trainSchedule) (d : Z) :
  totalDelay (rightShiftSchedule h s d).2 = totalDelay s + d
  /\ stations (rightShiftSchedule h s d).2 = stations s.
Proof. split; reflexivity. Qed.

Lemma reconcile_total_delay (X : string) (pos : Estimator.latlon) (b : brain)
    (call : Z * list string) :
  0 <= call.1 ->
  total_delay_of b X <= total_delay_of (reconcile X pos b call) X
  /\ (X ∉ call.2 -> is_Some (currentSchedule b !! X) ->
      total_delay_of (reconcile X pos b call) X = total_delay_of b X + call.1).
Proof.
  intros Hd. unfold reconcile.
  destruct (currentSchedule b !! X) as [s|] eqn:Hs.
  - destruct (handleRealTimeUpdate_reporting b X pos call.1 call.2 s Hs)
      as (b' & result & s' & Hcall & Hshift & Hs' & Hcases & Hexact).
    rewrite Hcall. unfold total_delay_of. rewrite Hs, Hs'.
    assert (Hupd : updatedSchedule result = (rightShiftSchedule (stops b) s call.1).2)
      by (rewrite <- Hshift; reflexivity).
    split.
    + destruct Hcases as [-> | [_ ->]]; [|lia].
      rewrite Hupd. cbn. lia.
    + intros Hnot _. rewrite (Hexact Hnot), Hupd. reflexivity.
  - unfold handleRealTimeUpdate. rewrite Hs.
    split; [lia|]. intros _ [x Hx]. discriminate Hx.
Qed.

Lemma reconcile_all_total_delay (X : string) (pos : Estimator.latlon)
    (calls : list (Z * list string)) :
  forall b,
    Forall (fun call : Z * list string => 0 <= call.1) calls ->
    total_delay_of b X <= total_delay_of (reconcile_all X pos b calls) X.
Proof.
  induction calls as [|call calls IH]; intros b Hcalls; [cbn; lia|].
  apply Forall_cons in Hcalls as [Hd Hcalls]. cbn [reconcile_all fold_left].
  pose proof (reconcile_total_delay X pos b call Hd) as [Hstep _].
  specialize (IH (reconcile X pos b call) Hcalls).
  unfold reconcile_all in IH. lia.
Qed.

(** A call leaves the schedule of every other train as the brain held
    it; the stops of such a train move only if it shares them with the
    reporting train. *)
Lemma handleRealTimeUpdate_others (b : brain) (X : string)
    (pos : Estimator.latlon) (d : Z) (affected : list string)
    (s : trainSchedule) :
  currentSchedule b !! X = Some s ->
  exists b' result,
    handleRealTimeUpdate b X pos d affected = Returned b' result
    /\ (forall Y, Y <> X -> currentSchedule b' !! Y = currentSchedule b !! Y)
    /\ (forall r, r ∉ stations s -> stops b' !! r = stops b !! r)
    /\ Forall (fun e : string * trainSchedule =>
                 currentSchedule b !! e.1 = Some e.2 /\ e.1 ∈ affected)
              (affectedSchedules result).
Proof.
  intros Hs. unfold handleRealTimeUpdate. rewrite Hs.
  unfold rightShiftSchedule.
  set (upd := {| trainId := trainId s; totalDelay := totalDelay s + d |}).
  set (aff := fold_left _ affected []).
  assert (Haff : Forall (fun e : string * trainSchedule =>
                           currentSchedule b !! e.1 = Some e.2 /\ e.1 ∈ affected)
                        aff).
  { apply affected_are_held; [auto | constructor]. }
  eexists _, _. split; [reflexivity|]. cbn [currentSchedule stops affectedSchedules].
  split; [|split; [|exact Haff]].
  - intros Y HY. rewrite Forall_forall in Haff.
    destruct (store_back_lookup aff (<[X := upd]> (currentSchedule b)) Y)
      as [Hfrom Hkept].
    assert (Hback : forall v,
               fold_left (fun m (e : string * trainSchedule) => <[e.1 := e.2]> m)
                 aff (<[X := upd]> (currentSchedule b)) !! Y = Some v ->
               currentSchedule b !! Y = Some v).
    { intros v Hv. destruct (Hfrom v Hv) as [Hins | Hin].
      - rewrite lookup_insert_ne in Hins by congruence. exact Hins.
      - destruct (Haff _ Hin) as [Hheld _]. exact Hheld. }
    destruct (currentSchedule b !! Y) as [sy|] eqn:HsY.
    + destruct Hkept as [v Hv].
      { rewrite lookup_insert_ne by congruence. rewrite HsY. eauto. }
      rewrite Hv. f_equal. specialize (Hback v Hv). congruence.
    + destruct (fold_left _ aff _ !! Y) as [v|] eqn:Hv; [|reflexivity].
      specialize (Hback v eq_refl). discriminate Hback.
  - intros r Hr. apply shift_stops_elsewhere. exact Hr.
Qed.

(** *** An evening on the Delhi-Kanpur line *)

Definition T0 : Z := 1700000000000.

Definition minutes (n : Z) : Z := n * 60 * 1000.

Definition stop_at (station : string) (arrive halt : Z) : stationStop :=
  {| stationId := station;
     arrivalTime := T0 + minutes arrive;
     departureTime := T0 + minutes (arrive + halt);
     isHalt := 0 <? halt;
     haltDuration := halt |}.

Definition evening_stops : store :=
  list_to_map
    [(0%nat, stop_at "NDLS" 0 2); (1%nat, stop_at "CNB" 60 2);
     (2%nat, stop_at "CNB" 75 15); (3%nat, stop_at "ALD" 150 15);
     (4%nat, stop_at "LKO" 20 5)].

Definition timetable (id number kind : string) (prio : Z) (leave : Z)
    (rs : list ref) : trainSchedule :=
  {| trainId := id; trainNumber := number; trainType := kind;
     priority := prio; departure := T0 + minutes leave;
     stations := rs; totalDelay := 0; halts := Z.of_nat (length rs) |}.

Definition rajdhani : trainSchedule :=
  timetable "train_vip_001" "12951" "VIP" 1 0 [0%nat; 1%nat].

Definition goods : trainSchedule :=
  timetable "train_freight_003" "FR_12345" "FREIGHT" 5 75 [2%nat; 3%nat].

Definition mail : trainSchedule :=
  timetable "train_express_002" "12619" "EXPRESS" 3 20 [4%nat].

Definition evening : brain :=
  {| currentSchedule :=
       list_to_map [("train_vip_001", rajdhani); ("train_freight_003", goods);
                    ("train_express_002", mail)];
     stops := evening_stops |}.

Definition mumbai : Estimator.latlon :=
  {| Estimator.lat := 19.0760%float; Estimator.lon := 72.8777%float |}.

(** The schedules the brain holds for the listed trains, as the object
    [detectConflicts] takes. *)
Definition held (b : brain) (ids : list string) : individual :=
  {| id := "current";
     trains := omap (fun i => pair i <$> currentSchedule b !! i) ids;
     fitness := 0%float;
     conflicts := 0 |}.

Definition everyone : list string :=
  ["train_vip_001"; "train_freight_003"; "train_express_002"].

(** A schedule that lists one stop object twice has it shifted twice:
    the entries of a schedule are taken to be distinct objects, as
    [generateRandomTrainSchedule] pushes them. *)
Example shared_stop_is_shifted_twice :
  (rightShiftSchedule evening_stops
     (timetable "train_vip_001" "12951" "VIP" 1 0 [1%nat; 1%nat]) 15).1 !! 1%nat
  = Some (shift (minutes 30) (stop_at "CNB" 60 2)).
Proof. vm_compute. reflexivity. Qed.

(** C4 on the code.  The Rajdhani (priority 1) reports 15 minutes of
    delay with the goods train (priority 5) and the mail in its affected
    list.  Its shifted arrival at CNB now coincides with the goods
    train's: [detectConflicts] goes from 0 to 1.  The call returns the
    goods train's schedule as it was, with its stops where they were, and
    the new conflict stands. *)
Theorem local_repair_leaves_new_conflict :
  match handleRealTimeUpdate evening "train_vip_001" mumbai 15
          ["train_freight_003"; "train_express_002"] with
  | Threw _ => False
  | Returned b' result =>
      detectConflicts (stops evening) (held evening everyone) = 0
      /\ detectConflicts (stops b') (held b' everyone) = 1
      /\ stops b' !! 1%nat = Some (shift (minutes 15) (stop_at "CNB" 60 2))
      /\ arrivalTime (shift (minutes 15) (stop_at "CNB" 60 2))
         = arrivalTime (stop_at "CNB" 75 15)
      /\ affectedSchedules result
         = [("train_freight_003", goods); ("train_express_002", mail)]
      /\ currentSchedule b' !! "train_freight_003" = Some goods
      /\ stops b' !! 2%nat = Some (stop_at "CNB" 75 15)
      /\ stops b' !! 3%nat = Some (stop_at "ALD" 150 15)
      /\ priority rajdhani < priority goods
  end.
Proof. vm_compute. repeat split; reflexivity. Qed.

(** [localRepair] is the identity, whatever the conflicting schedule. *)
Lemma localRepair_changes_nothing (affectedSchedule conflictingSchedule : trainSchedule) :
  localRepair affectedSchedule conflictingSchedule = affectedSchedule.
Proof. reflexivity. Qed.

(** When the reporting train is listed among its own affected trains the
    stops are shifted but the stored total delay is the old one. *)
Example self_affected_keeps_old_total :
  match handleRealTimeUpdate evening "train_vip_001" mumbai 15
          ["train_vip_001"] with
  | Threw _ => False
  | Returned b' result =>
      totalDelay (updatedSchedule result) = 15
      /\ total_delay_of b' "train_vip_001" = 0
      /\ stops b' !! 1%nat = Some (shift (minutes 15) (stop_at "CNB" 60 2))
  end.
Proof. vm_compute. repeat split; reflexivity. Qed.

(** *** Discrete-event evaluation *)

Inductive event_type : Type := ARRIVAL | DEPARTURE.

Record event : Type := {
  kind : event_type;
  time : Z;
  event_trainId : string;
  event_stationId : string
}.

Record metrics : Type := {
  totalJourneyTime : float;
  averageDelay : float;
  onTimePerformance : float;
  residual_conflicts : Z;
  trackUtilization : float
}.

(** The [simulation] object returned; [residual_conflicts] is its
    [metrics.conflicts]. *)
Record simulation : Type := {
  events : list event;
  currentTime : Z;
  simulation_metrics : metrics
}.

Definition events_of_stop (h : store) (trainSchedule_ : trainSchedule) (r : ref)
  : list event :=
  match h !! r with
  | Some stop =>
      {| kind := ARRIVAL; time := arrivalTime stop;
         event_trainId := trainId trainSchedule_;
         event_stationId := stationId stop |}
      :: (if isHalt stop
          then [ {| kind := DEPARTURE; time := departureTime stop;
                    event_trainId := trainId trainSchedule_;
                    event_stationId := stationId stop |} ]
          else [])
  | None => []
  end.

(** [events.sort((a, b) => a.time - b.time)]: a stable sort. *)
Fixpoint insert_by_time (e : event) (sorted : list event) : list event :=
  match sorted with
  | [] => [e]
  | e' :: rest => if time e <=? time e' then e :: e' :: rest
                  else e' :: insert_by_time e rest
  end.

Definition sort_by_time (l : list event) : list event :=
  fold_right insert_by_time [] l.

(** One turn of the processing loop on [(totalDelay, onTimeCount)]. *)
Definition process (acc : Z * nat) (ev : event) : Z * nat :=
  match kind ev with
  | ARRIVAL =>
      let expectedTime := time ev in
      let actualTime := time ev in
      let delay := Z.max 0 (actualTime - expectedTime) in
      (acc.1 + delay, if delay <=? 5 * 60 * 1000 then S acc.2 else acc.2)
  | DEPARTURE => acc
  end.

Definition runDiscreteEventSimulation (h : store) (now : Z)
    (schedule : individual) : simulation :=
  let trainSchedules := map snd (trains schedule) in
  let events :=
    sort_by_time
      (flat_map (fun ts => flat_map (events_of_stop h ts) (stations ts))
                trainSchedules) in
  let '(totalDelay, onTimeCount) := fold_left process events (0, 0%nat) in
  {| events := events;
     currentTime := now;
     simulation_metrics :=
       {| totalJourneyTime := 0%float;
          averageDelay :=
            (JS.of_Z totalDelay / JS.of_nat (length trainSchedules)
             / (60 * 1000))%float;
          onTimePerformance :=
            (JS.of_nat onTimeCount / JS.of_nat (length events) * 100)%float;
          residual_conflicts := detectConflicts h schedule;
          trackUtilization := 0%float |} |}.

(** The evening timetable replayed: five stops, all halts, so ten events
    of which the five arrivals count as on time. *)
Example evening_replayed :
  let sim := runDiscreteEventSimulation evening_stops T0 (held evening everyone) in
  length (events sim) = 10%nat
  /\ map time (events sim)
     = map (fun m => T0 + minutes m) [0; 2; 20; 25; 60; 62; 75; 90; 150; 165]
  /\ averageDelay (simulation_metrics sim) = 0%float
  /\ onTimePerformance (simulation_metrics sim) = 50%float
  /\ residual_conflicts (simulation_metrics sim) = 0.
Proof. vm_compute. repeat split. Qed.

End Brain.

(** ** Whole numbers in binary64

    A JavaScript number is a binary64 float.  Time values and whole
    minutes are integers of magnitude below 2^53, and on those the
    arithmetic of the floats is exact; this is derived here from the
    specification of the float operations. *)

Module SafeIntegers.

Import JS.
Open Scope Z_scope.

(** [q * 2 ^ n] on positives *)
Definition shl (q : positive) (n : Z) : positive :=
  match n with
  | Zpos k => Pos.iter xO q k
  | _ => q
  end.

Lemma iter_xO_Z q k : Zpos (Pos.iter xO q k) = Zpos q * 2 ^ Zpos k.
Proof.
  induction k as [|k IH] using Pos.peano_ind.
  - cbn. lia.
  - rewrite Pos.iter_succ, Pos2Z.inj_xO, IH, Pos2Z.inj_succ, Z.pow_succ_r by lia. lia.
Qed.

Lemma shl_Z q n : 0 <= n -> Zpos (shl q n) = Zpos q * 2 ^ n.
Proof.
  intros Hn. destruct n as [|k|k]; cbn [shl]; [lia | apply iter_xO_Z | lia].
Qed.

Lemma digits_iter_xO q k :
  Zpos (digits2_pos (Pos.iter xO q k)) = Zpos (digits2_pos q) + Zpos k.
Proof.
  induction k as [|k IH] using Pos.peano_ind.
  - cbn. lia.
  - rewrite Pos.iter_succ. cbn [digits2_pos]. rewrite Pos2Z.inj_succ, IH. lia.
Qed.

Lemma digits_shl q n :
  0 <= n -> Zpos (digits2_pos (shl q n)) = Zpos (digits2_pos q) + n.
Proof.
  intros Hn. destruct n as [|k|k]; cbn [shl]; [lia | apply digits_iter_xO | lia].
Qed.

Lemma digits_bounds p :
  2 ^ Zpos (digits2_pos p) <= 2 * Zpos p /\ Zpos p < 2 ^ Zpos (digits2_pos p).
Proof.
  induction p as [p IH | p IH |]; cbn [digits2_pos].
  - rewrite Pos2Z.inj_succ, Z.pow_succ_r by lia. lia.
  - rewrite Pos2Z.inj_succ, Z.pow_succ_r by lia. lia.
  - cbn. lia.
Qed.

Lemma digits_le_53 p : Zpos p < 2 ^ 53 -> Zpos (digits2_pos p) <= 53.
Proof.
  intros Hp. destruct (Z_le_gt_dec (Zpos (digits2_pos p)) 53) as [H | H]; [exact H|].
  exfalso. pose proof (digits_bounds p) as [Hlo _].
  assert (2 ^ 54 <= 2 ^ Zpos (digits2_pos p)) by (apply Z.pow_le_mono_r; lia).
  lia.
Qed.

Lemma iter_pos_iter {A} (f : A -> A) n : forall x, SpecFloat.iter_pos f n x = Pos.iter f x n.
Proof.
  induction n as [n IH | n IH |]; intros x; cbn [SpecFloat.iter_pos Pos.iter].
  - rewrite !IH, !Pos.iter_swap. reflexivity.
  - rewrite !IH. reflexivity.
  - reflexivity.
Qed.

Lemma shr_exact q n :
  SpecFloat.iter_pos shr_1 n {| shr_m := Zpos (Pos.iter xO q n); shr_r := false; shr_s := false |}
  = {| shr_m := Zpos q; shr_r := false; shr_s := false |}.
Proof.
  rewrite iter_pos_iter. revert q.
  induction n as [|n IH] using Pos.peano_ind; intros q.
  - reflexivity.
  - rewrite (Pos.iter_succ_r n _ shr_1), (Pos.iter_succ n _ xO).
    cbn [shr_1 orb]. apply IH.
Qed.

Lemma shl_shl q a b : 0 <= a -> 0 <= b -> shl (shl q a) b = shl q (a + b).
Proof.
  intros Ha Hb. apply Pos2Z.inj. rewrite !shl_Z by lia.
  rewrite Z.pow_add_r by lia. lia.
Qed.

Definition exact (m : Z) : shr_record :=
  {| shr_m := m; shr_r := false; shr_s := false |}.

Lemma shr_shl q a n :
  0 <= n <= a ->
  shr (exact (Zpos (shl q a))) (- a) n = (exact (Zpos (shl q (a - n))), n - a).
Proof.
  intros Hn. unfold shr. destruct n as [|k|k]; [| |lia].
  - rewrite Z.sub_0_r. reflexivity.
  - replace (shl q a) with (Pos.iter xO (shl q (a - Zpos k)) k).
    + unfold exact. rewrite shr_exact. f_equal. lia.
    + change (Pos.iter xO (shl q (a - Zpos k)) k)
        with (shl (shl q (a - Zpos k)) (Zpos k)).
      rewrite shl_shl by lia. f_equal. lia.
Qed.

Definition canon (s : bool) (p : positive) : spec_float :=
  S754_finite s (shl p (53 - Zpos (digits2_pos p))) (Zpos (digits2_pos p) - 53).

Lemma fexp_normal e : -1021 <= e -> fexp prec emax e = e - 53.
Proof. intros He. unfold fexp, SpecFloat.emin, prec, emax. lia. Qed.

Lemma binary_round_aux_canon s q J :
  0 <= J -> Zpos (digits2_pos q) <= 53 -> 53 <= Zpos (digits2_pos q) + J ->
  binary_round_aux prec emax s (Zpos (shl q J)) (- J) loc_Exact = canon s q.
Proof.
  intros HJ Hq Hn. set (dq := Zpos (digits2_pos q)) in *.
  assert (Hdq : 1 <= dq) by (unfold dq; lia).
  unfold binary_round_aux.
  assert (H1 : shr_fexp prec emax (Zpos (shl q J)) (- J) loc_Exact
               = (exact (Zpos (shl q (53 - dq))), dq - 53)).
  { unfold shr_fexp. cbn [Zdigits2 shr_record_of_loc].
    rewrite digits_shl by lia. fold dq.
    rewrite fexp_normal by lia. fold (exact (Zpos (shl q J))).
    rewrite shr_shl by lia. f_equal; [do 3 f_equal|]; lia. }
  rewrite H1. cbn [exact shr_m loc_of_shr_record round_nearest_even].
  assert (H2 : shr_fexp prec emax (Zpos (shl q (53 - dq))) (dq - 53) loc_Exact
               = (exact (Zpos (shl q (53 - dq))), dq - 53)).
  { unfold shr_fexp. cbn [Zdigits2 shr_record_of_loc].
    rewrite digits_shl by lia. fold dq.
    rewrite fexp_normal by lia.
    replace (dq + (53 - dq) + (dq - 53) - 53 - (dq - 53)) with 0 by lia.
    reflexivity. }
  rewrite H2. cbn [exact shr_m].
  replace (dq - 53 <=? emax - prec) with true
    by (symmetry; apply Z.leb_le; unfold emax, prec; lia).
  reflexivity.
Qed.

Lemma binary_round_canon s q J :
  0 <= J -> Zpos (digits2_pos q) <= 53 ->
  binary_round prec emax s (shl q J) (- J) = canon s q.
Proof.
  intros HJ Hq. set (dq := Zpos (digits2_pos q)) in *.
  assert (Hdq : 1 <= dq) by (unfold dq; lia).
  unfold binary_round. rewrite digits_shl by lia. fold dq.
  rewrite fexp_normal by lia. unfold shl_align.
  replace (dq + J + - J - 53 - - J) with (dq + J - 53) by lia.
  destruct (dq + J - 53) as [|k|k] eqn:Hk.
  - apply binary_round_aux_canon; fold dq; lia.
  - apply binary_round_aux_canon; fold dq; lia.
  - change (Pos.iter xO (shl q J) k) with (shl (shl q J) (Zpos k)).
    rewrite shl_shl by lia.
    replace (dq + J + - J - 53) with (- (J + Zpos k)) by lia.
    apply binary_round_aux_canon; fold dq; lia.
Qed.

(** The binary64 number that holds a non-zero integer below 2^53. *)
Definition SFZ (z : Z) : spec_float :=
  match z with
  | Z0 => S754_zero false
  | Zpos p => canon false p
  | Zneg p => canon true p
  end.

Lemma binary_normalize_shl z J :
  0 <= J -> Z.abs z < 2 ^ 53 ->
  binary_normalize prec emax (z * 2 ^ J) (- J) false = SFZ z.
Proof.
  intros HJ Hz. destruct z as [|p|p]; cbn [SFZ].
  - rewrite Z.mul_0_l. reflexivity.
  - rewrite <- shl_Z by lia. cbn [binary_normalize].
    apply binary_round_canon; [lia|]. apply digits_le_53. lia.
  - rewrite <- (Pos2Z.opp_pos p), Z.mul_opp_l.
    rewrite <- shl_Z by lia. cbn [Z.opp binary_normalize].
    apply binary_round_canon; [lia|]. apply digits_le_53. lia.
Qed.

Lemma of_Z_spec z : Z.abs z < 2 ^ 53 -> Prim2SF (of_Z z) = SFZ z.
Proof.
  intros Hz. unfold of_Z. destruct (z <? 0) eqn:Hneg.
  - apply Z.ltb_lt in Hneg. rewrite FloatAxioms.opp_spec, of_uint63_spec, Uint63.of_Z_spec.
    rewrite Z.mod_small by (change Uint63.wB with (2 ^ 63); lia).
    pose proof (binary_normalize_shl (- z) 0) as H. rewrite Z.mul_1_r in H.
    change (- 0) with 0 in H. rewrite H by lia.
    destruct z as [|p|p]; try lia. reflexivity.
  - apply Z.ltb_ge in Hneg. rewrite of_uint63_spec, Uint63.of_Z_spec.
    rewrite Z.mod_small by (change Uint63.wB with (2 ^ 63); lia).
    pose proof (binary_normalize_shl z 0) as H. rewrite Z.mul_1_r in H.
    change (- 0) with 0 in H. apply H; lia.
Qed.

Lemma shl_align_fst m ex ez :
  ez <= ex -> fst (shl_align m ex ez) = shl m (ex - ez).
Proof.
  intros H. unfold shl_align.
  destruct (ez - ex) as [|k|k] eqn:Hk; cbn [fst].
  - replace (ex - ez) with 0 by lia. reflexivity.
  - lia.
  - replace (ex - ez) with (Zpos k) by lia. reflexivity.
Qed.

(** The integer a finite canonical number holds, scaled by [2 ^ j]. *)
Lemma canon_scaled s p j :
  Zpos (digits2_pos p) <= 53 -> Zpos (digits2_pos p) - 53 + j >= 0 ->
  cond_Zopp s (Zpos (shl (shl p (53 - Zpos (digits2_pos p)))
                         (Zpos (digits2_pos p) - 53 + j)))
  = cond_Zopp s (Zpos p) * 2 ^ j.
Proof.
  intros Hd Hj. rewrite shl_shl by lia.
  replace (53 - Zpos (digits2_pos p) + (Zpos (digits2_pos p) - 53 + j)) with j by lia.
  rewrite shl_Z by lia. destruct s; cbn [cond_Zopp]; lia.
Qed.

Lemma SFZ_cases z :
  Z.abs z < 2 ^ 53 ->
  z = 0 /\ SFZ z = S754_zero false
  \/ exists s p, z = cond_Zopp s (Zpos p) /\ Zpos (digits2_pos p) <= 53
                 /\ SFZ z = canon s p.
Proof.
  intros Hz. destruct z as [|p|p]; [left; auto| |]; right.
  - exists false, p. repeat split. apply digits_le_53. lia.
  - exists true, p. repeat split. apply digits_le_53. lia.
Qed.

Lemma SFadd_exact a b :
  Z.abs a < 2 ^ 53 -> Z.abs b < 2 ^ 53 -> Z.abs (a + b) < 2 ^ 53 ->
  SFadd prec emax (SFZ a) (SFZ b) = SFZ (a + b).
Proof.
  intros Ha Hb Hab.
  destruct (SFZ_cases a Ha) as [[-> ->] | (sa & pa & -> & Hda & ->)];
    destruct (SFZ_cases b Hb) as [[-> ->] | (sb & pb & -> & Hdb & ->)].
  - reflexivity.
  - rewrite Z.add_0_l. destruct sb; reflexivity.
  - rewrite Z.add_0_r. destruct sa; reflexivity.
  - unfold canon. cbn [SFadd].
    set (da := Zpos (digits2_pos pa)) in *. set (db := Zpos (digits2_pos pb)) in *.
    set (ez := Z.min (da - 53) (db - 53)).
    assert (Hez : ez <= 0 /\ ez <= da - 53 /\ ez <= db - 53) by (unfold ez; lia).
    rewrite !shl_align_fst by lia.
    replace (da - 53 - ez) with (da - 53 + (- ez)) by lia.
    replace (db - 53 - ez) with (db - 53 + (- ez)) by lia.
    unfold da, db. rewrite !canon_scaled by (fold da db; lia).
    rewrite <- Z.mul_add_distr_r.
    replace ez with (- (- ez)) at 2 by lia.
    apply binary_normalize_shl; lia.
Qed.

Lemma SFsub_exact a b :
  Z.abs a < 2 ^ 53 -> Z.abs b < 2 ^ 53 -> Z.abs (a - b) < 2 ^ 53 ->
  SFsub prec emax (SFZ a) (SFZ b) = SFZ (a - b).
Proof.
  intros Ha Hb Hab.
  destruct (SFZ_cases a Ha) as [[-> ->] | (sa & pa & -> & Hda & ->)];
    destruct (SFZ_cases b Hb) as [[-> ->] | (sb & pb & -> & Hdb & ->)].
  - reflexivity.
  - rewrite Z.sub_0_l. destruct sb; reflexivity.
  - rewrite Z.sub_0_r. destruct sa; reflexivity.
  - unfold canon. cbn [SFsub].
    set (da := Zpos (digits2_pos pa)) in *. set (db := Zpos (digits2_pos pb)) in *.
    set (ez := Z.min (da - 53) (db - 53)).
    assert (Hez : ez <= 0 /\ ez <= da - 53 /\ ez <= db - 53) by (unfold ez; lia).
    rewrite !shl_align_fst by lia.
    replace (da - 53 - ez) with (da - 53 + (- ez)) by lia.
    replace (db - 53 - ez) with (db - 53 + (- ez)) by lia.
    unfold da, db. rewrite !canon_scaled by (fold da db; lia).
    rewrite <- Z.mul_sub_distr_r.
    replace ez with (- (- ez)) at 2 by lia.
    apply binary_normalize_shl; lia.
Qed.

Lemma digits_mul pa pb :
  Zpos (digits2_pos pa) + Zpos (digits2_pos pb) - 1
  <= Zpos (digits2_pos (pa * pb)).
Proof.
  pose proof (digits_bounds pa) as [Ha _]. pose proof (digits_bounds pb) as [Hb _].
  pose proof (digits_bounds (pa * pb)) as [_ Hab].
  set (da := Zpos (digits2_pos pa)) in *. set (db := Zpos (digits2_pos pb)) in *.
  set (dab := Zpos (digits2_pos (pa * pb))) in *.
  destruct (Z_le_gt_dec (da + db - 1) dab) as [H | H]; [exact H|]. exfalso.
  assert (Hpow : 2 ^ dab * 4 <= 2 ^ da * 2 ^ db).
  { rewrite <- Z.pow_add_r by (unfold da, db; lia).
    change 4 with (2 ^ 2). rewrite <- Z.pow_add_r by (unfold dab; lia).
    apply Z.pow_le_mono_r; lia. }
  rewrite Pos2Z.inj_mul in Hab.
  assert (2 ^ da * 2 ^ db <= (2 * Zpos pa) * (2 * Zpos pb))
    by (apply Z.mul_le_mono_nonneg; lia).
  lia.
Qed.

Lemma SFmul_exact a b :
  0 < b -> Z.abs a < 2 ^ 53 -> Z.abs b < 2 ^ 53 -> Z.abs (a * b) < 2 ^ 53 ->
  SFmul prec emax (SFZ a) (SFZ b) = SFZ (a * b).
Proof.
  intros Hpos Ha Hb Hab. destruct b as [|pb|pb]; try lia.
  assert (Hdb : Zpos (digits2_pos pb) <= 53) by (apply digits_le_53; lia).
  destruct a as [|pa|pa]; [reflexivity| |].
  - assert (Hda : Zpos (digits2_pos pa) <= 53) by (apply digits_le_53; lia).
    assert (Hdab : Zpos (digits2_pos (pa * pb)) <= 53)
      by (apply digits_le_53; rewrite Pos2Z.inj_mul; lia).
    pose proof (digits_mul pa pb) as Hlow.
    change (Zpos pa * Zpos pb) with (Zpos (pa * pb)). cbn [SFZ canon SFmul xorb].
    unfold canon.
    set (da := Zpos (digits2_pos pa)) in *. set (db := Zpos (digits2_pos pb)) in *.
    replace (shl pa (53 - da) * shl pb (53 - db))%positive
      with (shl (pa * pb) (106 - da - db)).
    + replace (da - 53 + (db - 53)) with (- (106 - da - db)) by lia.
      apply binary_round_aux_canon; lia.
    + apply Pos2Z.inj. rewrite Pos2Z.inj_mul, !shl_Z by lia.
      replace (106 - da - db) with ((53 - da) + (53 - db)) by lia.
      rewrite Z.pow_add_r by lia. rewrite Pos2Z.inj_mul. ring.
  - assert (Hda : Zpos (digits2_pos pa) <= 53) by (apply digits_le_53; lia).
    assert (Hdab : Zpos (digits2_pos (pa * pb)) <= 53)
      by (apply digits_le_53; rewrite Pos2Z.inj_mul; lia).
    pose proof (digits_mul pa pb) as Hlow.
    change (Zneg pa * Zpos pb) with (Zneg (pa * pb)). cbn [SFZ canon SFmul xorb].
    unfold canon.
    set (da := Zpos (digits2_pos pa)) in *. set (db := Zpos (digits2_pos pb)) in *.
    replace (shl pa (53 - da) * shl pb (53 - db))%positive
      with (shl (pa * pb) (106 - da - db)).
    + replace (da - 53 + (db - 53)) with (- (106 - da - db)) by lia.
      apply binary_round_aux_canon; lia.
    + apply Pos2Z.inj. rewrite Pos2Z.inj_mul, !shl_Z by lia.
      replace (106 - da - db) with ((53 - da) + (53 - db)) by lia.
      rewrite Z.pow_add_r by lia. rewrite Pos2Z.inj_mul. ring.
Qed.

Lemma add_exact a b :
  Z.abs a < 2 ^ 53 -> Z.abs b < 2 ^ 53 -> Z.abs (a + b) < 2 ^ 53 ->
  (of_Z a + of_Z b)%float = of_Z (a + b).
Proof.
  intros Ha Hb Hab. apply Prim2SF_inj.
  rewrite FloatAxioms.add_spec, !of_Z_spec by assumption. apply SFadd_exact; assumption.
Qed.

Lemma sub_exact a b :
  Z.abs a < 2 ^ 53 -> Z.abs b < 2 ^ 53 -> Z.abs (a - b) < 2 ^ 53 ->
  (of_Z a - of_Z b)%float = of_Z (a - b).
Proof.
  intros Ha Hb Hab. apply Prim2SF_inj.
  rewrite FloatAxioms.sub_spec, !of_Z_spec by assumption. apply SFsub_exact; assumption.
Qed.

Lemma mul_exact a b :
  0 < b -> Z.abs a < 2 ^ 53 -> Z.abs b < 2 ^ 53 -> Z.abs (a * b) < 2 ^ 53 ->
  (of_Z a * of_Z b)%float = of_Z (a * b).
Proof.
  intros Hpos Ha Hb Hab. apply Prim2SF_inj.
  rewrite FloatAxioms.mul_spec, !of_Z_spec by assumption. apply SFmul_exact; assumption.
Qed.


(** *** Order and truncation *)

Lemma SFZ_abs z : SFabs (SFZ z) = SFZ (Z.abs z).
Proof. destruct z; reflexivity. Qed.

Lemma SFcompare_canon p q :
  SFcompare (canon false p) (canon false q) = Some (Zpos p ?= Zpos q).
Proof.
  unfold canon. cbn [SFcompare]. f_equal.
  pose proof (digits_bounds p) as [Hp1 Hp2].
  pose proof (digits_bounds q) as [Hq1 Hq2].
  set (dp := Zpos (digits2_pos p)) in *. set (dq := Zpos (digits2_pos q)) in *.
  destruct (Z.compare_spec (dp - 53) (dq - 53)) as [He | He | He].
  - replace dq with dp by lia.
    change (PosDef.Pos.compare_cont Eq ?a ?b) with (a ?= b)%positive.
    rewrite (Pos2Z.inj_compare (shl p _) (shl q _)).
    destruct (Z_le_gt_dec dp 53) as [Hd | Hd].
    + rewrite !shl_Z by lia.
      assert (Hpow : 0 < 2 ^ (53 - dp)) by (apply Z.pow_pos_nonneg; lia).
      destruct (Z.compare_spec (Zpos p) (Zpos q)) as [Hc | Hc | Hc].
      * apply Z.compare_eq_iff. rewrite Hc. reflexivity.
      * apply Z.compare_lt_iff. nia.
      * apply Z.compare_gt_iff. nia.
    + destruct (53 - dp) eqn:Hk; try lia. reflexivity.
  - symmetry. apply Z.compare_lt_iff.
    assert (2 ^ dp <= 2 ^ (dq - 1)) by (apply Z.pow_le_mono_r; lia).
    replace dq with (Z.succ (dq - 1)) in Hq1 by lia.
    rewrite Z.pow_succ_r in Hq1 by lia. lia.
  - symmetry. apply Z.compare_gt_iff.
    assert (2 ^ dq <= 2 ^ (dp - 1)) by (apply Z.pow_le_mono_r; lia).
    replace dp with (Z.succ (dp - 1)) in Hp1 by lia.
    rewrite Z.pow_succ_r in Hp1 by lia. lia.
Qed.

Lemma SFcompare_SFZ a b :
  0 <= a -> 0 <= b -> SFcompare (SFZ a) (SFZ b) = Some (a ?= b).
Proof.
  intros Ha Hb. destruct a as [|p|p], b as [|q|q]; try lia; try reflexivity.
  apply SFcompare_canon.
Qed.

Lemma ltb_of_Z a b :
  0 <= a < 2 ^ 53 -> 0 <= b < 2 ^ 53 -> (of_Z a <? of_Z b)%float = (a <? b).
Proof.
  intros Ha Hb. rewrite FloatAxioms.ltb_spec, !of_Z_spec by lia.
  unfold SFltb, Z.ltb. rewrite SFcompare_SFZ by lia. reflexivity.
Qed.


Lemma of_Z_abs z : Z.abs z < 2 ^ 53 -> abs (of_Z z) = of_Z (Z.abs z).
Proof.
  intros Hz. apply Prim2SF_inj.
  rewrite FloatAxioms.abs_spec, !of_Z_spec by lia. apply SFZ_abs.
Qed.

Lemma of_Z_is_finite z : Z.abs z < 2 ^ 53 -> is_finite (of_Z z) = true.
Proof.
  intros Hz. unfold is_finite, is_nan, is_infinity.
  rewrite of_Z_abs by assumption.
  rewrite !FloatAxioms.eqb_spec, !of_Z_spec by lia.
  change (Prim2SF infinity) with (S754_infinity false). unfold SFeqb.
  destruct z as [|p|p]; cbn [SFZ canon SFcompare Z.abs];
    rewrite ?Z.compare_refl;
    change (PosDef.Pos.compare_cont Eq ?a ?a) with (a ?= a)%positive;
    rewrite ?Pos.compare_refl; reflexivity.
Qed.

(** The integer part of a finite number, the fraction dropped
    ([ToIntegerOrInfinity]). *)
Definition truncate (x : float) : Z :=
  match Prim2SF x with
  | S754_finite s m e =>
      let i := match e with
               | Zneg k => Zpos m / 2 ^ Zpos k
               | _ => Zpos m * 2 ^ e
               end in
      if s then - i else i
  | _ => 0
  end.

Lemma truncate_canon (s : bool) (p : positive) :
  Zpos (digits2_pos p) <= 53 ->
  (let i := match Zpos (digits2_pos p) - 53 with
            | Zneg k => Zpos (shl p (53 - Zpos (digits2_pos p))) / 2 ^ Zpos k
            | _ => Zpos (shl p (53 - Zpos (digits2_pos p)))
                   * 2 ^ (Zpos (digits2_pos p) - 53)
            end in
   if s then - i else i) = cond_Zopp s (Zpos p).
Proof.
  intros Hd. set (d := Zpos (digits2_pos p)) in *. cbv zeta.
  assert (Hi : match d - 53 with
               | Zneg k => Zpos (shl p (53 - d)) / 2 ^ Zpos k
               | _ => Zpos (shl p (53 - d)) * 2 ^ (d - 53)
               end = Zpos p).
  { rewrite shl_Z by lia. destruct (d - 53) as [|k|k] eqn:Hk; try lia.
    - replace (53 - d) with 0 by lia. cbn. lia.
    - replace (53 - d) with (Zpos k) by lia. apply Z.div_mul.
      apply Z.pow_nonzero; lia. }
  rewrite Hi. destruct s; reflexivity.
Qed.

Lemma truncate_of_Z z : Z.abs z < 2 ^ 53 -> truncate (of_Z z) = z.
Proof.
  intros Hz. unfold truncate. rewrite of_Z_spec by assumption.
  destruct z as [|p|p]; [reflexivity| |]; cbn [SFZ canon].
  - apply (truncate_canon false p), digits_le_53. lia.
  - apply (truncate_canon true p), digits_le_53. lia.
Qed.

End SafeIntegers.

(** ** The reconciler on JavaScript values

    [handleRealTimeUpdate] is reached from the HTTP route and the socket
    handlers of the server with whatever [currentDelay] the request body
    holds, and its [Date]s have a limited range.  Here the right shift
    is modelled on the values of the language: binary64 numbers,
    strings, and [Date]s that can be invalid. *)

Module Reconciler.

Import JS SafeIntegers.
Open Scope Z_scope.

(** A [Date]: its time value is a whole number of milliseconds, at most
    100,000,000 days from the epoch, or NaN (an Invalid Date). *)
Inductive date : Type :=
| Invalid
| Valid (t : Z).

(** [date.getTime()] *)
Definition getTime (d : date) : float :=
  match d with
  | Invalid => nan
  | Valid t => of_Z t
  end.

(** [new Date(time)] for a number [time]: the time value is
    [TimeClip(time)]. *)
Definition TimeClip (time : float) : date :=
  if negb (is_finite time) then Invalid
  else if (8640000000000000 <? abs time)%float then Invalid
  else Valid (truncate time).

(** A time value a valid [Date] can hold. *)
Definition in_Date_range (t : Z) : bool :=
  (-8640000000000000 <=? t) && (t <=? 8640000000000000).

Lemma in_Date_range_spec (t : Z) :
  in_Date_range t = true <-> -8640000000000000 <= t <= 8640000000000000.
Proof. unfold in_Date_range. rewrite andb_true_iff, !Z.leb_le. tauto. Qed.

(** A primitive value, as [currentDelay] and [totalDelay] can hold one
    (a request body can also hold an array or an object there, which is
    left out). *)
Inductive primitive : Type :=
| VUndefined
| VNull
| VBoolean (b : bool)
| VNumber (x : float)
| VString (s : string).

Record stationStop : Type := {
  stationId : string;
  arrivalTime : date;
  departureTime : date;
  isHalt : bool;
  haltDuration : float
}.

Abbreviation ref := nat.

Abbreviation store := (gmap ref stationStop).

Record trainSchedule : Type := {
  trainId : string;
  trainNumber : string;
  trainType : string;
  priority : float;
  departure : date;
  stations : list ref;
  totalDelay : primitive;
  halts : float
}.

Record brain : Type := {
  currentSchedule : gmap string trainSchedule;
  stops : store
}.

Record update : Type := {
  updatedSchedule : trainSchedule;
  affectedSchedules : list (string * trainSchedule)
}.

Inductive outcome : Type :=
| Threw (message : string)
| Returned (b : brain) (result : update).

Section Conversions.

(** The value of a string as a number and the rendering of a number as
    a string are the language's. *)
Variable StringToNumber : string -> float.
Variable NumberToString : float -> string.

Definition ToNumber (v : primitive) : float :=
  match v with
  | VUndefined => nan
  | VNull => 0
  | VBoolean b => if b then 1 else 0
  | VNumber x => x
  | VString s => StringToNumber s
  end.

Definition ToString (v : primitive) : string :=
  match v with
  | VUndefined => "undefined"
  | VNull => "null"
  | VBoolean b => if b then "true" else "false"
  | VNumber x => NumberToString x
  | VString s => s
  end.

(** [a + b]: concatenation when either operand is a string. *)
Definition plus (a b : primitive) : primitive :=
  match a, b with
  | VString _, _ | _, VString _ => VString (ToString a +:+ ToString b)
  | _, _ => VNumber (ToNumber a + ToNumber b)
  end.

(** The two assignments of the loop body of [rightShiftSchedule]. *)
Definition shift (delayMs : float) (stop : stationStop) : stationStop :=
  {| stationId := stationId stop;
     arrivalTime := TimeClip (getTime (arrivalTime stop) + delayMs);
     departureTime := TimeClip (getTime (departureTime stop) + delayMs);
     isHalt := isHalt stop;
     haltDuration := haltDuration stop |}.

(** [rightShiftSchedule(schedule, delayMinutes)]: a shallow copy of the
    schedule whose stops, shared with the original, are moved in
    place. *)
Definition rightShiftSchedule (h : store) (schedule : trainSchedule)
    (delayMinutes : primitive) : store * trainSchedule :=
  let delayMs := (ToNumber delayMinutes * 60 * 1000)%float in
  (fold_left (fun h r => alter (shift delayMs) r h) (stations schedule) h,
   {| trainId := trainId schedule;
      trainNumber := trainNumber schedule;
      trainType := trainType schedule;
      priority := priority schedule;
      departure := departure schedule;
      stations := stations schedule;
      totalDelay := plus (totalDelay schedule) delayMinutes;
      halts := halts schedule |}).

Definition localRepair (affectedSchedule conflictingSchedule : trainSchedule)
  : trainSchedule :=
  affectedSchedule.

Definition handleRealTimeUpdate (b : brain) (trainId : string)
    (currentPosition : Estimator.latlon) (currentDelay : primitive)
    (affectedTrains : list string) : outcome :=
  match currentSchedule b !! trainId with
  | None => Threw (String.append "No schedule found for train " trainId)
  | Some currentSchedule_ =>
      let '(h, updatedSchedule) :=
        rightShiftSchedule (stops b) currentSchedule_ currentDelay in
      let affectedSchedules :=
        fold_left
          (fun acc affectedTrainId =>
             match currentSchedule b !! affectedTrainId with
             | Some affectedSchedule =>
                 Brain.map_set affectedTrainId
                   (localRepair affectedSchedule updatedSchedule) acc
             | None => acc
             end)
          affectedTrains [] in
      Returned
        {| currentSchedule :=
             fold_left
               (fun m (entry : string * trainSchedule) => <[entry.1 := entry.2]> m)
               affectedSchedules
               (<[trainId := updatedSchedule]> (currentSchedule b));
           stops := h |}
        {| updatedSchedule := updatedSchedule;
           affectedSchedules := affectedSchedules |}
  end.

(** A train's reconciler calls in succession, each with its delay and
    its list of affected trains; a call that throws changes nothing. *)
Definition reconcile (trainId : string) (currentPosition : Estimator.latlon)
    (b : brain) (call : primitive * list string) : brain :=
  match handleRealTimeUpdate b trainId currentPosition call.1 call.2 with
  | Returned b' _ => b'
  | Threw _ => b
  end.

Definition reconcile_all (trainId : string) (currentPosition : Estimator.latlon)
    (b : brain) (calls : list (primitive * list string)) : brain :=
  fold_left (reconcile trainId currentPosition) calls b.

(** The cumulative delay the brain holds for a train (0 without a
    schedule). *)
Definition total_delay_of (b : brain) (trainId : string) : primitive :=
  match currentSchedule b !! trainId with
  | Some s => totalDelay s
  | None => VNumber 0
  end.



(** *** The right shift, stop by stop *)

Lemma alter_all_elsewhere (f : stationStop -> stationStop) (rs : list ref) :
  forall (h : store) (r : ref),
    r ∉ rs -> fold_left (fun h r => alter f r h) rs h !! r = h !! r.
Proof.
  induction rs as [|a rs IH]; intros h r Hr; [reflexivity|].
  apply not_elem_of_cons in Hr as [Hne Hr].
  cbn [fold_left]. rewrite (IH _ _ Hr). apply lookup_alter_ne. congruence.
Qed.

Lemma alter_all_listed (f : stationStop -> stationStop) (rs : list ref) :
  forall (h : store) (r : ref),
    NoDup rs -> r ∈ rs ->
    fold_left (fun h r => alter f r h) rs h !! r = f <$> h !! r.
Proof.
  induction rs as [|a rs IH]; intros h r Hnd Hr.
  - apply elem_of_nil in Hr. contradiction.
  - apply NoDup_cons in Hnd as [Ha Hnd]. cbn [fold_left].
    apply elem_of_cons in Hr as [-> | Hr].
    + rewrite alter_all_elsewhere by exact Ha. apply lookup_alter_eq.
    + rewrite (IH _ _ Hnd Hr). rewrite lookup_alter_ne; [reflexivity|].
      intros ->. exact (Ha Hr).
Qed.

(** A whole number of minutes in milliseconds. *)
Lemma whole_delay_in_ms (d : Z) :
  Z.abs (d * 60 * 1000) < 2 ^ 53 ->
  (of_Z d * 60 * 1000)%float = of_Z (d * 60 * 1000).
Proof.
  intros Hd. change 60%float with (of_Z 60). change 1000%float with (of_Z 1000).
  rewrite !mul_exact by lia. reflexivity.
Qed.

(** A time value moved by a whole number of milliseconds. *)
Lemma moved_time (t ms : Z) :
  in_Date_range t = true -> Z.abs ms < 2 ^ 53 ->
  in_Date_range (t + ms) = true ->
  TimeClip (getTime (Valid t) + of_Z ms) = Valid (t + ms).
Proof.
  rewrite !in_Date_range_spec. intros Ht Hms Hsum. cbn [getTime].
  rewrite add_exact by lia. unfold TimeClip.
  rewrite of_Z_is_finite, of_Z_abs by lia. cbn [negb].
  change 8640000000000000%float with (of_Z 8640000000000000).
  rewrite ltb_of_Z by lia.
  replace (8640000000000000 <? Z.abs (t + ms)) with false
    by (symmetry; apply Z.ltb_ge; lia).
  rewrite truncate_of_Z by lia. reflexivity.
Qed.

(** A time value moved beyond the range, or an invalid one moved. *)
Lemma moved_out_of_range (t ms : Z) :
  Z.abs t < 2 ^ 53 -> Z.abs ms < 2 ^ 53 -> Z.abs (t + ms) < 2 ^ 53 ->
  in_Date_range (t + ms) = false ->
  TimeClip (getTime (Valid t) + of_Z ms) = Invalid.
Proof.
  intros Ht Hms Hsum Hout.
  assert (Hout' : ~ (-8640000000000000 <= t + ms <= 8640000000000000)).
  { rewrite <- in_Date_range_spec, Hout. discriminate. }
  cbn [getTime].
  rewrite add_exact by lia. unfold TimeClip.
  rewrite of_Z_is_finite, of_Z_abs by lia. cbn [negb].
  change 8640000000000000%float with (of_Z 8640000000000000).
  rewrite ltb_of_Z by lia.
  replace (8640000000000000 <? Z.abs (t + ms)) with true
    by (symmetry; apply Z.ltb_lt; lia).
  reflexivity.
Qed.

Lemma moved_invalid (delayMs : float) :
  TimeClip (getTime Invalid + delayMs) = Invalid.
Proof.
  cbn [getTime].
  replace (nan + delayMs)%float with nan; [reflexivity|].
  apply Prim2SF_inj. rewrite FloatAxioms.add_spec.
  change (Prim2SF nan) with S754_nan. reflexivity.
Qed.

(** *** What a call leaves in [currentSchedule] *)







(** A delay held as a string moves the times by its value as a number
    and is appended to the total delay as text. *)
Lemma string_delay_is_appended (h : store) (schedule : trainSchedule) :
  StringToNumber "15" = 15%float ->
  NumberToString 0 = "0" ->
  totalDelay schedule = VNumber 0 ->
  totalDelay (rightShiftSchedule h schedule (VString "15")).2 = VString "015"
  /\ (forall r stop a dp,
        NoDup (stations schedule) ->
        r ∈ stations schedule -> h !! r = Some stop ->
        arrivalTime stop = Valid a -> departureTime stop = Valid dp ->
        in_Date_range a = true -> in_Date_range dp = true ->
        in_Date_range (a + 900000) = true ->
        in_Date_range (dp + 900000) = true ->
        (rightShiftSchedule h schedule (VString "15")).1 !! r
        = Some {| stationId := stationId stop;
                  arrivalTime := Valid (a + 900000);
                  departureTime := Valid (dp + 900000);
                  isHalt := isHalt stop;
                  haltDuration := haltDuration stop |}).
Proof.
  intros HtoNumber HtoString Htotal. split.
  - cbn [rightShiftSchedule snd totalDelay]. rewrite Htotal.
    cbn [plus ToString]. rewrite HtoString. reflexivity.
  - intros r stop a dp Hnd Hr Hstop Ha Hdp Hra Hrdp Hra' Hrdp'.
    unfold rightShiftSchedule. cbn [fst ToNumber].
    rewrite alter_all_listed by assumption. rewrite Hstop.
    cbn [fmap option_fmap option_map]. unfold shift. rewrite Ha, Hdp.
    rewrite HtoNumber. change (15 * 60 * 1000)%float with (of_Z 900000).
    rewrite !moved_time by (assumption || lia). reflexivity.
Qed.

End Conversions.

(** *** An evening on the Delhi-Kanpur line *)

Definition T0 : Z := 1700000000000.

Definition minutes (n : Z) : Z := n * 60 * 1000.

Definition stop_at (station : string) (arrive halt : Z) : stationStop :=
  {| stationId := station;
     arrivalTime := Valid (T0 + minutes arrive);
     departureTime := Valid (T0 + minutes (arrive + halt));
     isHalt := 0 <? halt;
     haltDuration := of_Z halt |}.

Definition evening_stops : store :=
  list_to_map
    [(0%nat, stop_at "NDLS" 0 2); (1%nat, stop_at "CNB" 60 2);
     (2%nat, stop_at "CNB" 75 15); (3%nat, stop_at "ALD" 150 15);
     (4%nat, stop_at "LKO" 20 5)].

Definition timetable (id number kind : string) (prio : float) (leave : Z)
    (rs : list ref) : trainSchedule :=
  {| trainId := id; trainNumber := number; trainType := kind;
     priority := prio; departure := Valid (T0 + minutes leave);
     stations := rs; totalDelay := VNumber 0; halts := of_nat (length rs) |}.

Definition rajdhani : trainSchedule :=
  timetable "train_vip_001" "12951" "VIP" 1 0 [0%nat; 1%nat].

Definition goods : trainSchedule :=
  timetable "train_freight_003" "FR_12345" "FREIGHT" 5 75 [2%nat; 3%nat].

Definition mail : trainSchedule :=
  timetable "train_express_002" "12619" "EXPRESS" 3 20 [4%nat].

(** Stand-ins for the two conversions where no string is involved. *)
Definition no_number (s : string) : float := nan.

Definition no_text (x : float) : string := "".



(** A delay below a millisecond is lost when the [Date] is built, and a
    time value never holds a fraction. *)
Example fraction_of_a_millisecond_is_dropped :
  (rightShiftSchedule no_number no_text evening_stops rajdhani
                      (VNumber 0.00001)).1 !! 1%nat
  = Some (stop_at "CNB" 60 2)
  /\ (rightShiftSchedule no_number no_text evening_stops rajdhani
                         (VNumber 0.5)).1 !! 1%nat
     = Some {| stationId := "CNB";
               arrivalTime := Valid (T0 + minutes 60 + 30000);
               departureTime := Valid (T0 + minutes 62 + 30000);
               isHalt := true;
               haltDuration := 2 |}.
Proof. vm_compute. split; reflexivity. Qed.

End Reconciler.


(** ** The sibling metric computation of [AITrafficOptimizer] *)

Module TrafficOptimizer.

Import JS.
Open Scope float_scope.

Record entry : Type := {
  trainId : string;
  actualTime : float;
  scheduledTime : float
}.

Record metrics : Type := {
  throughput : float;
  avgDelay : float;
  punctuality : float;
  utilization : float;
  conflicts : float;
  safetyScore : float
}.

Section Metrics.

(** [calculateSectionUtilization] is called by the class but defined
    nowhere in the sources, so the call on a schedule with entries has
    no method to run; it is taken as given, and only the empty schedule,
    which returns before the call, is used below. *)
Variable calculateSectionUtilization : list entry -> float.

(** [calculatePerformanceMetrics(schedule, trains)]; [schedule] is [None]
    for a falsy argument, [trains] are the [id]s of the train objects. *)
Definition calculatePerformanceMetrics (schedule : option (list entry))
    (trains : list string) : metrics :=
  let metrics :=
    {| throughput := 0; avgDelay := 0; punctuality := 0; utilization := 0;
       conflicts := 0; safetyScore := 100 |} in
  match schedule with
  | None | Some [] => metrics
  | Some entries =>
      let '(totalDelay, onTimeTrains) :=
        fold_left
          (fun (acc : float * nat) entry =>
             if existsb (String.eqb (trainId entry)) trains then
               let delay :=
                 Math_max 0 (actualTime entry - scheduledTime entry) in
               (acc.1 + delay, if delay <=? 300 then S acc.2 else acc.2)
             else acc)
          entries (0, 0%nat) in
      let processedTrains := length entries in
      {| throughput := of_nat processedTrains;
         avgDelay := if (0 <? processedTrains)%nat
                     then totalDelay / of_nat processedTrains else 0;
         punctuality := if (0 <? processedTrains)%nat
                        then of_nat onTimeTrains / of_nat processedTrains * 100
                        else 0;
         utilization := calculateSectionUtilization entries;
         conflicts := 0;
         safetyScore := 100 |}
  end.

End Metrics.

End TrafficOptimizer.


(** ** The optimizer on an empty train set *)

Module ZeroTrains.

Import JS.

(** What the genetic algorithm hands to the evaluation when no train was
    given: an individual whose [trains] map is empty. *)
Definition no_trains : Brain.individual :=
  {| Brain.id := "schedule_0"; Brain.trains := [];
     Brain.fitness := 0%float; Brain.conflicts := 0 |}.

(** C8 on the code.  With no train the evaluation has no event and
    divides zero by zero twice: the average delay and the on-time
    percentage are both NaN, not 0.  The sibling computation of
    [AITrafficOptimizer] returns 0 for both on an empty schedule. *)
Theorem zero_trains_metrics_are_nan (h : Brain.store) (now : Z)
    (utilization : list TrafficOptimizer.entry -> float) :
  let sim := Brain.runDiscreteEventSimulation h now no_trains in
  let sibling :=
    TrafficOptimizer.calculatePerformanceMetrics utilization (Some []) [] in
  Brain.events sim = []
  /\ Brain.residual_conflicts (Brain.simulation_metrics sim) = 0%Z
  /\ Brain.averageDelay (Brain.simulation_metrics sim) = nan
  /\ Brain.onTimePerformance (Brain.simulation_metrics sim) = nan
  /\ is_nan (Brain.onTimePerformance (Brain.simulation_metrics sim)) = true
  /\ TrafficOptimizer.avgDelay sibling = 0%float
  /\ TrafficOptimizer.punctuality sibling = 0%float.
Proof. vm_compute. repeat split. Qed.

End ZeroTrains.


(** ** Further properties of the state estimator *)

Module EstimatorProperties.

Import JS Estimator.
Open Scope float_scope.

(** *** NaN in arithmetic *)

Lemma sub_nan_l x : nan - x = nan.
Proof.
  apply Prim2SF_inj. rewrite sub_spec. change (Prim2SF nan) with S754_nan.
  reflexivity.
Qed.

Lemma mul_nan_r x : x * nan = nan.
Proof.
  apply Prim2SF_inj. rewrite mul_spec. change (Prim2SF nan) with S754_nan.
  destruct (Prim2SF x); reflexivity.
Qed.

Lemma add_nan_r x : x + nan = nan.
Proof.
  apply Prim2SF_inj. rewrite add_spec. change (Prim2SF nan) with S754_nan.
  destruct (Prim2SF x); reflexivity.
Qed.

Lemma add_nan_l x : nan + x = nan.
Proof.
  apply Prim2SF_inj. rewrite add_spec. change (Prim2SF nan) with S754_nan.
  reflexivity.
Qed.

Lemma toward_undefined x w : x + w * (ToNumber Undefined - x) = nan.
Proof. cbn [ToNumber]. rewrite sub_nan_l, mul_nan_r. apply add_nan_r. Qed.

(** *** A position that is lost stays lost *)

Definition lost : latlon := {| lat := nan; lon := nan |}.

Lemma updateWithStationReport_lost E st s e :
  position (updateWithStationReport E st s e) = lost.
Proof.
  unfold updateWithStationReport. cbn [truthy_promise position promise_get].
  rewrite !toward_undefined. reflexivity.
Qed.

Lemma updateWithTrackCircuit_lost E n st c e :
  occupied c = true -> truthy_string (trainDetected c) = true ->
  position (updateWithTrackCircuit E n st c e).1 = lost.
Proof.
  intros Ho Ht. unfold updateWithTrackCircuit. rewrite Ho, Ht.
  cbn [andb getTrackSectionPosition truthy_promise fst position promise_get].
  rewrite !toward_undefined. reflexivity.
Qed.

Lemma fuse_one_keeps_lost E e st n d :
  position st = lost -> position (fuse_one E e (st, n) d).1 = lost.
Proof.
  intros Hst. destruct d as [g | c | s | src t]; cbn [fuse_one fst].
  - unfold updateWithGPS. cbn [position]. rewrite Hst. cbn [lat lon lost].
    rewrite !add_nan_l. reflexivity.
  - destruct (occupied c && truthy_string (trainDetected c)) eqn:Hguard.
    + apply andb_true_iff in Hguard as [Ho Ht].
      apply updateWithTrackCircuit_lost; assumption.
    + unfold updateWithTrackCircuit. rewrite Hguard. exact Hst.
  - apply updateWithStationReport_lost.
  - exact Hst.
Qed.

Lemma fold_fuse_keeps_lost E e l :
  forall st n, position st = lost ->
               position (fold_left (fuse_one E e) l (st, n)).1 = lost.
Proof.
  induction l as [|d l IH]; intros st n Hst; [exact Hst|].
  cbn [fold_left].
  pose proof (fuse_one_keeps_lost E e st n d Hst) as Hd.
  destruct (fuse_one E e (st, n) d) as [st' n']. apply IH. exact Hd.
Qed.

(** The reading loses the position: a station report, or an occupancy
    reading of an occupied section with a detected train. *)
Definition loses_position (d : reading) : bool :=
  match d with
  | STATION_REPORT _ => true
  | TRACK_CIRCUIT c => occupied c && truthy_string (trainDetected c)
  | _ => false
  end.

Lemma fuse_one_loses E e st n d :
  loses_position d = true -> position (fuse_one E e (st, n) d).1 = lost.
Proof.
  destruct d as [g | c | s | src t]; cbn [loses_position fuse_one fst];
    try discriminate; intros H.
  - apply andb_true_iff in H as [Ho Ht].
    apply updateWithTrackCircuit_lost; assumption.
  - apply updateWithStationReport_lost.
Qed.

(** X1.  Whatever the estimator's state and the outside world, a batch
    that holds a station report, or an occupancy reading of an occupied
    section with a detected train, is fused to the position (NaN, NaN),
    and so is every batch fused from then on: once an estimator's
    position is NaN no sequence of readings brings it back. *)
Theorem position_is_lost_for_good (E : env) (now : Z) (n : nat) (e : estimator)
    (batch : list reading) :
  Exists (fun d => loses_position d = true) batch
  \/ position (state e) = lost ->
  fused_position (fuseDataSources E now n e batch).1.2 = lost
  /\ position (state (fuseDataSources E now n e batch).1.1) = lost.
Proof.
  intros H.
  assert (Hfold : position (fold_left (fuse_one E e) batch (state e, n)).1 = lost).
  { destruct H as [Hex | Hst]; [|apply fold_fuse_keeps_lost; exact Hst].
    generalize (state e) n. induction Hex as [d l Hd | d l Hex IH];
      intros st m; cbn [fold_left].
    - pose proof (fuse_one_loses E e st m d Hd) as Hone.
      destruct (fuse_one E e (st, m) d) as [st' m'].
      apply fold_fuse_keeps_lost. exact Hone.
    - destruct (fuse_one E e (st, m) d) as [st' m']. apply IH. }
  unfold fuseDataSources.
  destruct (fold_left (fuse_one E e) batch (state e, n)) as [st m].
  cbn in *. split; exact Hfold.
Qed.

Lemma position_is_lost_for_good_witness :
  let r := fuseDataSources surveyed_world 1700000061000 0
             (initializeKalmanFilter "12951")
             [gps_fix; arrival_report; later_fix] in
  fused_position r.1.2 = lost /\ position (state r.1.1) = lost.
Proof.
  apply (position_is_lost_for_good surveyed_world 1700000061000 0
           (initializeKalmanFilter "12951")
           [gps_fix; arrival_report; later_fix]).
  left. right. left. reflexivity.
Defined.

(** *** Induction over the calls on a hub *)

Lemma run_invariant (P : hub -> Prop) :
  P new_hub ->
  (forall E now h n id l, P h -> P (updateTrainState E now h n id l).1.1) ->
  forall calls, P (run calls).1.
Proof.
  intros Hnew Hupd calls. unfold run.
  assert (Hfold : forall acc : hub * nat,
             P acc.1 -> P (fold_left step calls acc).1);
    [|apply Hfold; exact Hnew].
  induction calls as [|c calls IH]; intros acc Hacc; [exact Hacc|].
  cbn [fold_left]. apply IH.
  destruct c as [E now d | E now id l]; cbn [step].
  - unfold processNormalizedData.
    destruct (truthy_string (data_trainId d)); [|exact Hacc].
    destruct (data_trainId d) as [id|]; [|exact Hacc].
    match goal with
    | |- context [updateTrainState E now ?h ?n id ?l] =>
        pose proof (Hupd E now h n id l Hacc) as H;
        destruct (updateTrainState E now h n id l) as [[h1 n1] f1]
    end.
    exact H.
  - apply Hupd. exact Hacc.
Qed.

(** *** Heading and acceleration *)

Lemma fuse_one_heading E e st n d :
  heading (velocity (fuse_one E e (st, n) d).1) = heading (velocity st)
  /\ acceleration (fuse_one E e (st, n) d).1 = acceleration st.
Proof.
  destruct d as [g | c | s | src t]; cbn [fuse_one fst]; try (split; reflexivity).
  - unfold updateWithTrackCircuit.
    destruct (occupied c && truthy_string (trainDetected c)); split; reflexivity.
Qed.

Lemma fold_fuse_heading E e l :
  forall st n,
    heading (velocity (fold_left (fuse_one E e) l (st, n)).1)
    = heading (velocity st)
    /\ acceleration (fold_left (fuse_one E e) l (st, n)).1 = acceleration st.
Proof.
  induction l as [|d l IH]; intros st n; [split; reflexivity|].
  cbn [fold_left]. pose proof (fuse_one_heading E e st n d) as [Hh Ha].
  destruct (fuse_one E e (st, n) d) as [st' n']. cbn [fst] in Hh, Ha.
  rewrite <- Hh, <- Ha. apply IH.
Qed.

Record heading_inv (h : hub) : Prop := {
  estimators_unturned :
    forall id e, stateEstimators h !! id = Some e ->
                 heading (velocity (state e)) = 0
                 /\ acceleration (state e) = 0;
  active_unturned :
    forall id t, activeTrains h !! id = Some t ->
                 fused_heading (current t) = 0;
  emitted_unturned : Forall (fun f => fused_heading f = 0) (emitted h)
}.

Lemma heading_inv_run calls : heading_inv (run calls).1.
Proof.
  apply run_invariant.
  - split; [| |constructor]; intros id x H; cbn in H;
      rewrite lookup_empty in H; discriminate.
  - intros E now h n id l [Hest Hact Hem]. unfold updateTrainState.
    set (e0 := match stateEstimators h !! id with
               | Some e => e | None => initializeKalmanFilter id end).
    assert (He0 : heading (velocity (state e0)) = 0 /\ acceleration (state e0) = 0).
    { subst e0. destruct (stateEstimators h !! id) eqn:Hl;
        [exact (Hest _ _ Hl) | split; reflexivity]. }
    unfold fuseDataSources.
    pose proof (fold_fuse_heading E e0 l (state e0) n) as [Hh Ha].
    destruct (fold_left (fuse_one E e0) l (state e0, n)) as [st m].
    cbn [fst snd] in *. destruct He0 as [Hh0 Ha0].
    rewrite Hh0 in Hh. rewrite Ha0 in Ha.
    split; cbn [stateEstimators activeTrains emitted].
    + intros id' x Hl. destruct (decide (id = id')) as [->|Hne].
      * rewrite lookup_insert_eq in Hl. injection Hl as <-. cbn. split; assumption.
      * rewrite lookup_insert_ne in Hl by assumption. exact (Hest _ _ Hl).
    + intros id' x Hl. destruct (decide (id = id')) as [->|Hne].
      * rewrite lookup_insert_eq in Hl. injection Hl as <-. cbn. exact Hh.
      * rewrite lookup_insert_ne in Hl by assumption. exact (Hact _ _ Hl).
    + apply Forall_app. split; [exact Hem|].
      constructor; [exact Hh | constructor].
Qed.

(** X2.  No update writes the heading or the acceleration: the heading a
    positional reading carries is not used, and after any sequence of
    calls on a new hub every fused state, stored or emitted, has heading
    0 and every estimator has acceleration 0. *)
Theorem heading_is_never_estimated (calls : list call) :
  Forall (fun f => fused_heading f = 0) (emitted (run calls).1)
  /\ (forall id t, activeTrains (run calls).1 !! id = Some t ->
                   fused_heading (current t) = 0)
  /\ (forall id e, stateEstimators (run calls).1 !! id = Some e ->
                   heading (velocity (state e)) = 0
                   /\ acceleration (state e) = 0).
Proof.
  destruct (heading_inv_run calls) as [Hest Hact Hem].
  split; [exact Hem | split; [exact Hact | exact Hest]].
Qed.

(** *** What a reading contributes *)

(** Two readings with the same payload for the fusion: the coordinates
    and speed of a fix; whether a section is occupied with a detected
    train; whether a station event is an arrival or a departure. *)
Definition same_payload (d1 d2 : reading) : Prop :=
  match d1, d2 with
  | GPS g1, GPS g2 =>
      latitude g1 = latitude g2 /\ longitude g1 = longitude g2
      /\ gps_speed g1 = gps_speed g2
  | TRACK_CIRCUIT c1, TRACK_CIRCUIT c2 =>
      occupied c1 && truthy_string (trainDetected c1)
      = occupied c2 && truthy_string (trainDetected c2)
  | STATION_REPORT s1, STATION_REPORT s2 =>
      is_arrival_or_departure (event s1) = is_arrival_or_departure (event s2)
  | OTHER _ _, OTHER _ _ => True
  | _, _ => False
  end.

Lemma fuse_one_payload E1 E2 e st n1 n2 d1 d2 :
  same_payload d1 d2 ->
  (fuse_one E1 e (st, n1) d1).1 = (fuse_one E2 e (st, n2) d2).1.
Proof.
  destruct d1 as [g1 | c1 | s1 | src1 t1], d2 as [g2 | c2 | s2 | src2 t2];
    cbn [same_payload]; try contradiction; intros H; cbn [fuse_one fst].
  - destruct H as (Hlat & Hlon & Hs). unfold updateWithGPS.
    rewrite Hlat, Hlon, Hs. reflexivity.
  - unfold updateWithTrackCircuit. rewrite H.
    destruct (occupied c2 && truthy_string (trainDetected c2)); reflexivity.
  - unfold updateWithStationReport. cbn [truthy_promise]. rewrite H. reflexivity.
  - reflexivity.
Qed.

(** X3.  The fused state depends on a batch only through the payload of
    its readings: quality scores, the accuracy and heading of a fix,
    timestamps, section and station identifiers, and which train was
    detected have no influence on the new estimator state, the position,
    the speed, the heading or the confidence. *)
Theorem fusion_reads_payload_only (E1 E2 : env) (now1 now2 : Z) (n1 n2 : nat)
    (e : estimator) (l1 l2 : list reading) :
  Forall2 same_payload l1 l2 ->
  let r1 := fuseDataSources E1 now1 n1 e l1 in
  let r2 := fuseDataSources E2 now2 n2 e l2 in
  r1.1.1 = r2.1.1
  /\ fused_position r1.1.2 = fused_position r2.1.2
  /\ fused_speed r1.1.2 = fused_speed r2.1.2
  /\ fused_heading r1.1.2 = fused_heading r2.1.2
  /\ confidence r1.1.2 = confidence r2.1.2.
Proof.
  intros Hl. cbn zeta. unfold fuseDataSources.
  assert (Hfold : (fold_left (fuse_one E1 e) l1 (state e, n1)).1
                  = (fold_left (fuse_one E2 e) l2 (state e, n2)).1).
  { generalize (state e) n1 n2.
    induction Hl as [|d1 d2 l1 l2 Hd Hl IH]; intros st m1 m2; [reflexivity|].
    cbn [fold_left].
    pose proof (fuse_one_payload E1 E2 e st m1 m2 d1 d2 Hd) as Hone.
    destruct (fuse_one E1 e (st, m1) d1) as [s1 k1].
    destruct (fuse_one E2 e (st, m2) d2) as [s2 k2].
    cbn [fst] in Hone. subst s2. apply IH. }
  destruct (fold_left (fuse_one E1 e) l1 (state e, n1)) as [s1 m1].
  destruct (fold_left (fuse_one E2 e) l2 (state e, n2)) as [s2 m2].
  cbn [fst] in Hfold. subst s2. cbn. repeat split; reflexivity.
Qed.

(** The same fix, reported with a 500 m accuracy radius, another heading
    and the lowest quality. *)
Definition doubtful_fix : reading :=
  GPS {| gps_trainId := Some "12951";
         gps_timestamp := 1700000000000;
         latitude := 19.0760; longitude := 72.8777;
         gps_accuracy := 500; gps_speed := 85; gps_heading := 270;
         gps_quality := 0.1 |}.

Lemma fusion_reads_payload_only_witness :
  let e := initializeKalmanFilter "12951" in
  let r1 := fuseDataSources steady_world 1700000000500 0 e [gps_fix] in
  let r2 := fuseDataSources steady_world 1700000000500 0 e [doubtful_fix] in
  r1.1.1 = r2.1.1
  /\ fused_position r1.1.2 = fused_position r2.1.2
  /\ fused_speed r1.1.2 = fused_speed r2.1.2
  /\ fused_heading r1.1.2 = fused_heading r2.1.2
  /\ confidence r1.1.2 = confidence r2.1.2.
Proof.
  apply (fusion_reads_payload_only steady_world steady_world
           1700000000500 1700000000500 0 0
           (initializeKalmanFilter "12951") [gps_fix] [doubtful_fix]).
  constructor; [|constructor]. cbn. repeat split.
Defined.

(** *** Readings that never reach an estimator *)

(** The call leads to a fusion update: [updateTrainState] always does,
    [processNormalizedData] only for a reading with a [trainId]. *)
Definition routed (c : call) : bool :=
  match c with
  | process _ _ d => truthy_string (data_trainId d)
  | update _ _ _ _ => true
  end.

Definition is_process (c : call) : Prop :=
  match c with
  | process _ _ _ => True
  | update _ _ _ _ => False
  end.

Lemma unrouted_step acc c : routed c = false -> step acc c = acc.
Proof.
  destruct c as [E now d | E now id l]; cbn [routed step]; [|discriminate].
  intros H. unfold processNormalizedData. rewrite H. destruct acc; reflexivity.
Qed.

Lemma fuse_without_circuit E e l :
  Forall (fun d => match d with TRACK_CIRCUIT _ => False | _ => True end) l ->
  forall st n, (fold_left (fuse_one E e) l (st, n)).2 = n.
Proof.
  induction 1 as [|d l Hd Hl IH]; intros st n; [reflexivity|].
  cbn [fold_left]. destruct d as [g | c | s | src t]; try contradiction;
    cbn [fuse_one]; apply IH.
Qed.

Lemma process_draws_nothing E now h n d :
  (processNormalizedData E now h n d).2 = n.
Proof.
  unfold processNormalizedData.
  destruct (truthy_string (data_trainId d)) eqn:Ht; [|reflexivity].
  destruct (data_trainId d) as [id|] eqn:Hid; [|reflexivity].
  assert (Hnc : match d with TRACK_CIRCUIT _ => False | _ => True end)
    by (destruct d; try exact I; discriminate Hid).
  cbn [getTrainDataBuffer app List.filter].
  unfold updateTrainState, fuseDataSources.
  match goal with
  | |- context [fold_left (fuse_one E ?e) ?l (?st, n)] =>
      pose proof (fuse_without_circuit E e l) as Hf;
      specialize (fun H => Hf H st n);
      destruct (fold_left (fuse_one E e) l (st, n)) as [st' n']
  end.
  cbn [snd] in *. apply Hf.
  destruct (_ <? _)%Z; constructor; [exact Hnc | constructor].
Qed.

(** X4.  A reading without a [trainId], and so every track-circuit
    reading, passes through [processNormalizedData] without any effect:
    taking these calls out of a sequence leaves the same hub.  The
    ingestion path therefore never evaluates [getTrackSectionPosition]
    and never draws a random number. *)
Theorem unrouted_readings_change_nothing (calls : list call) :
  run (List.filter routed calls) = run calls
  /\ (forall E now c, routed (process E now (TRACK_CIRCUIT c)) = false)
  /\ (Forall is_process calls -> (run calls).2 = 0%nat).
Proof.
  split; [|split].
  - unfold run. generalize (new_hub, 0%nat).
    induction calls as [|c calls IH]; intros acc; [reflexivity|].
    cbn [List.filter]. destruct (routed c) eqn:Hc; cbn [fold_left].
    + apply IH.
    + rewrite (unrouted_step acc c Hc). apply IH.
  - reflexivity.
  - unfold run.
    assert (Hfold : forall (h : hub) (n : nat), Forall is_process calls ->
              (fold_left step calls (h, n)).2 = n);
      [|intros Hall; apply Hfold; exact Hall].
    induction calls as [|c calls IH]; intros h n Hall; [reflexivity|].
    apply Forall_cons in Hall as [Hc Hall]. cbn [fold_left].
    destruct c as [E now d | E now id l]; [|contradiction]. cbn [step fst snd].
    pose proof (process_draws_nothing E now h n d) as Hn.
    destruct (processNormalizedData E now h n d) as [h' n'].
    cbn [snd] in Hn. subst n'. apply IH. exact Hall.
Qed.

(** *** A reading older than five minutes *)

(** X5.  A reading whose timestamp is five minutes or more behind the
    clock is filtered out before the fusion: the train's estimator keeps
    its state (a new one is created if there was none), yet an update is
    emitted and the [activeTrains] entry is overwritten, with the
    unchanged position and speed, the clock as [lastUpdate] and a data
    quality of 0. *)
Theorem stale_reading_fuses_nothing (E : env) (now : Z) (h : hub) (n : nat)
    (d : reading) (id : string) :
  data_trainId d = Some id -> truthy_string (Some id) = true ->
  (timestamp d <= now - 5 * 60 * 1000)%Z ->
  let e0 := match stateEstimators h !! id with
            | Some e => e
            | None => initializeKalmanFilter id
            end in
  let r := processNormalizedData E now h n d in
  let f := {| fused_trainId := trainId e0;
              fused_position := position (state e0);
              fused_speed := speed (velocity (state e0));
              fused_heading := heading (velocity (state e0));
              confidence := calculateConfidence e0;
              fused_timestamp := now |} in
  r.2 = n
  /\ (exists e, stateEstimators r.1 !! id = Some e /\ state e = state e0)
  /\ activeTrains r.1 !! id
     = Some {| current := f; lastUpdate := now; dataQuality := 0 |}
  /\ emitted r.1 = emitted h ++ [f].
Proof.
  intros Hid Ht Hold. cbn zeta. unfold processNormalizedData.
  rewrite Hid, Ht. cbn [getTrainDataBuffer app List.filter].
  replace (now - 5 * 60 * 1000 <? timestamp d)%Z with false
    by (symmetry; apply Z.ltb_ge; exact Hold).
  unfold updateTrainState, fuseDataSources. cbn [fold_left fst snd].
  cbn [stateEstimators activeTrains emitted].
  rewrite !lookup_insert_eq. repeat split; eauto.
Qed.

Lemma stale_reading_fuses_nothing_witness :
  let r := processNormalizedData steady_world (1700000000000 + 5 * 60 * 1000)
             new_hub 0 gps_fix in
  let e0 := initializeKalmanFilter "12951" in
  let f := {| fused_trainId := trainId e0;
              fused_position := position (state e0);
              fused_speed := speed (velocity (state e0));
              fused_heading := heading (velocity (state e0));
              confidence := calculateConfidence e0;
              fused_timestamp := (1700000000000 + 5 * 60 * 1000)%Z |} in
  r.2 = 0%nat
  /\ (exists e, stateEstimators r.1 !! "12951" = Some e /\ state e = state e0)
  /\ activeTrains r.1 !! "12951"
     = Some {| current := f;
               lastUpdate := (1700000000000 + 5 * 60 * 1000)%Z;
               dataQuality := 0 |}
  /\ emitted r.1 = emitted new_hub ++ [f].
Proof.
  apply (stale_reading_fuses_nothing steady_world
           (1700000000000 + 5 * 60 * 1000) new_hub 0 gps_fix "12951").
  - reflexivity.
  - reflexivity.
  - cbn. lia.
Defined.

End EstimatorProperties.


(** ** Telemetry normaliser: quality of circuit readings and station reports *)

Module Quality.

Import JS.
Open Scope float_scope.

(** The fields of a raw track-circuit reading that
    [calculateCircuitQuality] reads.  [occupied] is the truthiness of the
    raw field of that name ([false] when the reading has none: the
    normaliser derives its own [occupied] from [status]). *)
Record circuitData : Type := {
  status : option string;
  occupied : bool;
  signalState : option string
}.

Definition strict_equals (v : option string) (s : string) : bool :=
  match v with
  | Some x => String.eqb x s
  | None => false
  end.

Definition calculateCircuitQuality (c : circuitData) : float :=
  let quality := 1.0 in
  let quality :=
    if strict_equals (status c) "UNKNOWN" then quality * 0.3 else quality in
  let quality :=
    if occupied c && strict_equals (signalState c) "GREEN"
    then quality * 0.5 else quality in
  Math_max 0.1 quality.

(** The fields of a raw station report that
    [calculateStationReportQuality] reads; [delay] after the numeric
    coercion of the comparison. *)
Record reportData : Type := {
  event : option string;
  trainId : option string;
  delay : value;
  stationMaster : option string
}.

Definition calculateStationReportQuality (r : reportData) : float :=
  let quality := 1.0 in
  let quality :=
    if negb (truthy_string (event r)) || negb (truthy_string (trainId r))
    then quality * 0.5 else quality in
  let quality := if 480 <? ToNumber (delay r) then quality * 0.7 else quality in
  let quality :=
    if negb (truthy_string (stationMaster r)) then quality * 0.8 else quality in
  Math_max 0.1 quality.

(** The reading or report gives no reason to lower the score. *)
Definition consistent (c : circuitData) : bool :=
  negb (strict_equals (status c) "UNKNOWN")
  && negb (occupied c && strict_equals (signalState c) "GREEN").

Definition complete (r : reportData) : bool :=
  truthy_string (event r) && truthy_string (trainId r)
  && negb (480 <? ToNumber (delay r))
  && truthy_string (stationMaster r).

(** X6.  The quality of a track-circuit reading and that of a station
    report lie strictly above the floor of 0.1 and at most at 1, so the
    floor is never the value returned: the lowest scores are 0.3 * 0.5
    and 0.5 * 0.7 * 0.8.  Either score is 1 exactly when no degradation
    applies. *)
Theorem circuit_and_report_quality_range (c : circuitData) (r : reportData) :
  let qc := calculateCircuitQuality c in
  let qr := calculateStationReportQuality r in
  ((0.1 <? qc) = true /\ (0.3 * 0.5 <=? qc) = true /\ (qc <=? 1) = true
   /\ (qc =? 1) = consistent c)
  /\ ((0.1 <? qr) = true /\ (0.5 * 0.7 * 0.8 <=? qr) = true
      /\ (qr <=? 1) = true /\ (qr =? 1) = complete r).
Proof.
  cbn zeta. split.
  - unfold calculateCircuitQuality, consistent.
    destruct (strict_equals (status c) "UNKNOWN"),
      (occupied c && strict_equals (signalState c) "GREEN");
      vm_compute; repeat split; reflexivity.
  - unfold calculateStationReportQuality, complete.
    destruct (truthy_string (event r)), (truthy_string (trainId r)),
      (480 <? ToNumber (delay r)), (truthy_string (stationMaster r));
      vm_compute; repeat split; reflexivity.
Qed.

End Quality.


(** ** Resource over-allocation: any number of halted trains *)

Module PlatformOccupancyProperties.

Import JS PlatformOccupancy.

Lemma map_replicate {A B : Type} (f : A -> B) (n : nat) (x : A) :
  map f (replicate n x) = replicate n (f x).
Proof. induction n as [|n IH]; cbn; [|rewrite IH]; reflexivity. Qed.

(** X7.  When the trains near-stationary at a station are scanned within
    one 10-minute bucket, the conflicts located at the station number
    two fewer than those trains (none for up to two trains), and every
    one of them lists all the halted trains in scan order, also those
    scanned after the conflict was pushed: each conflict holds the
    bucket's own array. *)
Theorem halted_trains_conflicts (getCurrentStation : string -> option string)
    (Date_now : nat -> Z) (station : string) (B : Z) (trains : list train) :
  (forall i t, trains !! i = Some t ->
               halted_at getCurrentStation station t = true ->
               bucket (Date_now i) = B) ->
  let ids :=
    map trainId (List.filter (halted_at getCurrentStation station) trains) in
  List.filter (fun x => bool_decide (location x = station))
    (detectResourceOverallocation getCurrentStation Date_now trains)
  = replicate (length ids - 2) (overallocation station ids).
Proof.
  intros HB. cbn zeta. unfold detectResourceOverallocation. cbn zeta.
  rewrite filter_location_map.
  destruct (scan_from_station getCurrentStation Date_now station B trains 0
              {| platformOccupancy := ∅; conflicts := [] |}) as [Hocc Hconf].
  { intros j t Hj Ht. apply (HB j t); assumption. }
  cbn zeta in Hocc, Hconf. cbn [platformOccupancy conflicts] in Hocc, Hconf.
  rewrite lookup_empty in Hocc, Hconf. cbn [default] in Hocc, Hconf.
  cbn [List.filter app length] in Hconf. rewrite Hconf.
  unfold pushes_over_capacity. cbn [Nat.add Nat.sub].
  rewrite Nat.sub_0_r, map_replicate. cbn [fst]. rewrite Hocc. reflexivity.
Qed.

Lemma halted_trains_conflicts_witness :
  List.filter (fun x => bool_decide (location x = "NDLS"))
    (detectResourceOverallocation station_of scan_clock
       (evening_trains ++ [halted "12002" 1; halted "12003" 2]))
  = replicate 3
      (overallocation "NDLS" ["12951"; "12619"; "12301"; "12002"; "12003"]).
Proof.
  apply (halted_trains_conflicts station_of scan_clock "NDLS" 2833333
           (evening_trains ++ [halted "12002" 1; halted "12003" 2])).
  intros i t Hi _. do 7 (destruct i as [|i]; [reflexivity|]).
  discriminate Hi.
Defined.

End PlatformOccupancyProperties.


(** ** Conflict detector: delay bubble-up *)

Module DelayBubbleUp.

Import JS.
Open Scope float_scope.

(** The fields of a scanned train this check reads; an [activeTrains]
    entry has no [delay]. *)
Record train : Type := {
  trainId : string;
  delay : value
}.

(** The field of a stored train document the check reads. *)
Record trainData : Type := {
  trainType : string
}.

Record conflict : Type := {
  type : string;
  severity : string;
  trains : list string;
  delayedTrain : string;
  affectedTrains : list train;
  description : string;
  recommendedAction : string
}.

(** Outcome of an awaited call: the promise is rejected or fulfilled. *)
Inductive outcome (A : Type) : Type :=
| Rejected
| Fulfilled (x : A).
Arguments Rejected {A}.
Arguments Fulfilled {A} _.

Definition findAffectedHigherPriorityTrains (delayedTrain : train) : list train :=
  [].

Section Detect.

(** [Train.findById(trainId)]: the stored document or [null], or a
    rejection (the call is awaited outside any [try]). *)
Variable findById : string -> outcome (option trainData).

Definition bubble_up (t : train) (d : trainData) (affected : list train)
  : conflict :=
  {| type := "DELAY_BUBBLE_UP";
     severity := "HIGH";
     trains := trainId t :: map trainId affected;
     delayedTrain := trainId t;
     affectedTrains := affected;
     description :=
       String.append "Delay from "
         (String.append (trainType d)
            (String.append " train "
               (String.append (trainId t) " affecting higher priority trains")));
     recommendedAction := "PRIORITY_RESEQUENCING" |}.

Fixpoint scan (trains : list train) (conflicts : list conflict)
  : outcome (list conflict) :=
  match trains with
  | [] => Fulfilled conflicts
  | t :: later =>
      match findById (trainId t) with
      | Rejected => Rejected
      | Fulfilled found =>
          match found with
          | Some d =>
              if 0 <? ToNumber (delay t) then
                let affected := findAffectedHigherPriorityTrains t in
                if (0 <? length affected)%nat
                then scan later (conflicts ++ [bubble_up t d affected])
                else scan later conflicts
              else scan later conflicts
          | None => scan later conflicts
          end
      end
  end.

Definition detectDelayBubbleUp (trains : list train) : outcome (list conflict) :=
  scan trains [].

Definition lookup_succeeds (t : train) : bool :=
  match findById (trainId t) with
  | Rejected => false
  | Fulfilled _ => true
  end.

Lemma scan_reports_nothing trains :
  forall conflicts,
    scan trains conflicts
    = if forallb lookup_succeeds trains then Fulfilled conflicts else Rejected.
Proof.
  induction trains as [|t later IH]; intros conflicts; [reflexivity|].
  cbn [scan forallb]. unfold lookup_succeeds at 1.
  destruct (findById (trainId t)) as [|[d|]]; cbn [andb]; [reflexivity| |apply IH].
  destruct (0 <? ToNumber (delay t)); apply IH.
Qed.

(** X8.  The delay bubble-up check never reports a conflict, whatever
    the delays and the stored trains: the search for affected trains of
    higher priority returns an empty list for every train.  The check
    fulfils with the empty list when every train lookup succeeds and is
    rejected when one fails. *)
Theorem detectDelayBubbleUp_reports_nothing (trains : list train) :
  detectDelayBubbleUp trains
  = if forallb lookup_succeeds trains then Fulfilled [] else Rejected.
Proof. apply scan_reports_nothing. Qed.

End Detect.

End DelayBubbleUp.


(** ** Conflict detector: converging paths *)

Module ConvergingPaths.

Import JS Estimator.
Open Scope float_scope.

(** The object [findConvergencePoint] returns. *)
Record junction : Type := {
  name : string;
  junction_position : latlon
}.

Definition findConvergencePoint (trainId1 trainId2 : string) : junction :=
  {| name := "Junction XY";
     junction_position := {| lat := 28.6139; lon := 77.2090 |} |}.

(** The conflict object, without its [description] (a rendering of the
    two train ids and of the junction's name).  [estimatedConflictTime]
    is the number handed to [new Date]. *)
Record conflict : Type := {
  type : string;
  severity : string;
  trains : list string;
  location : junction;
  estimatedConflictTime : float;
  recommendedAction : string
}.

Section Detect.

(** The haversine formula on binary64 numbers, whose [Math.sin],
    [Math.cos] and [Math.atan2] are left open. *)
Variable calculateDistance : latlon -> latlon -> float.

(** [Date_now n] is the value of the [n]-th call of [Date.now()]. *)
Variable Date_now : nat -> float.

Definition calculateETA (n : nat) (train : active_train) (destination : junction)
  : float :=
  let distance :=
    calculateDistance (fused_position (current train))
                      (junction_position destination) in
  let travelTime := distance / fused_speed (current train) * 3600 * 1000 in
  Date_now n + travelTime.

Definition converging (train1 train2 : active_train) (convergencePoint : junction)
    (eta1 eta2 : float) : conflict :=
  {| type := "CONVERGING_PATHS";
     severity := "HIGH";
     trains := [fused_trainId (current train1); fused_trainId (current train2)];
     location := convergencePoint;
     estimatedConflictTime := Math_min eta1 eta2;
     recommendedAction := "PRIORITY_BASED_SEQUENCING" |}.

(** The body of the inner loop; the state is the list of conflicts and
    the number of clock readings so far.  The convergence point is an
    object, so the test on it always passes. *)
Definition check_pair (train1 : active_train) (acc : list conflict * nat)
    (train2 : active_train) : list conflict * nat :=
  let '(conflicts, n) := acc in
  let convergencePoint :=
    findConvergencePoint (fused_trainId (current train1))
                         (fused_trainId (current train2)) in
  let eta1 := calculateETA n train1 convergencePoint in
  let eta2 := calculateETA (S n) train2 convergencePoint in
  if abs (eta1 - eta2) <? 5 * 60 * 1000
  then (conflicts ++ [converging train1 train2 convergencePoint eta1 eta2],
        S (S n))
  else (conflicts, S (S n)).

Fixpoint detect_from (trains : list active_train) (acc : list conflict * nat)
  : list conflict * nat :=
  match trains with
  | [] => acc
  | train1 :: later => detect_from later (fold_left (check_pair train1) later acc)
  end.

Definition detectConvergingPaths (trains : list active_train) : list conflict :=
  (detect_from trains ([], 0%nat)).1.

(** *** Numbers that are not finite *)

Definition unreal (x : float) : bool :=
  match Prim2SF x with
  | S754_infinity _ | S754_nan => true
  | _ => false
  end.

Lemma div_by_zero_unreal d v : (v =? 0) = true -> unreal (d / v) = true.
Proof.
  rewrite FloatAxioms.eqb_spec. unfold unreal. rewrite FloatAxioms.div_spec.
  change (Prim2SF 0) with (S754_zero false).
  destruct (Prim2SF v) as [s| s | |s m e]; try destruct s; try discriminate;
    intros _; destruct (Prim2SF d); reflexivity.
Qed.

Lemma SFeqb_refl x : x <> S754_nan -> SFeqb x x = true.
Proof.
  destruct x as [s| s | |s m e]; intros H; try destruct s; try reflexivity;
    try contradiction; unfold SFeqb, SFcompare; rewrite Z.compare_refl;
    change (PosDef.Pos.compare_cont Eq m m) with (m ?= m)%positive;
    rewrite Pos.compare_refl; reflexivity.
Qed.

Lemma div_by_nan_unreal d v : is_nan v = true -> unreal (d / v) = true.
Proof.
  unfold is_nan. rewrite FloatAxioms.eqb_spec. unfold unreal. rewrite FloatAxioms.div_spec.
  intros H. assert (Hv : Prim2SF v = S754_nan).
  { destruct (Prim2SF v) eqn:E; try reflexivity;
      rewrite SFeqb_refl in H by discriminate; discriminate. }
  rewrite Hv. destruct (Prim2SF d); reflexivity.
Qed.

Lemma mul_unreal x c s m e :
  Prim2SF c = S754_finite s m e -> unreal x = true -> unreal (x * c) = true.
Proof.
  unfold unreal. rewrite FloatAxioms.mul_spec. intros ->.
  destruct (Prim2SF x); try discriminate; reflexivity.
Qed.

Lemma add_unreal now x : unreal x = true -> unreal (now + x) = true.
Proof.
  unfold unreal. rewrite FloatAxioms.add_spec.
  destruct (Prim2SF x) as [|sx| |]; try discriminate; intros _;
    destruct (Prim2SF now) as [| s | |]; try destruct s; try destruct sx;
    reflexivity.
Qed.

Lemma unreal_not_close a b :
  unreal a = true \/ unreal b = true -> (abs (a - b) <? 5 * 60 * 1000) = false.
Proof.
  replace (5 * 60 * 1000) with 300000 by reflexivity.
  rewrite FloatAxioms.ltb_spec, FloatAxioms.abs_spec, FloatAxioms.sub_spec. unfold unreal.
  set (c := Prim2SF 300000). vm_compute in c. subst c.
  intros [H | H].
  - destruct (Prim2SF a) as [|sa| |]; try discriminate;
      destruct (Prim2SF b) as [|sb| |]; try destruct sa; try destruct sb;
      reflexivity.
  - destruct (Prim2SF b) as [|sb| |]; try discriminate;
      destruct (Prim2SF a) as [|sa| |]; try destruct sa; try destruct sb;
      reflexivity.
Qed.

(** *** Which pairs are reported *)

(** The train has a speed, and it is not zero. *)
Definition moving (t : active_train) : bool :=
  negb (fused_speed (current t) =? 0) && negb (is_nan (fused_speed (current t))).

Lemma calculateETA_unreal n t destination :
  moving t = false -> unreal (calculateETA n t destination) = true.
Proof.
  unfold moving, calculateETA. intros H. cbn zeta.
  apply add_unreal.
  apply (mul_unreal _ 1000 false 8796093022208000 (-43)); [reflexivity|].
  apply (mul_unreal _ 3600 false 7916483719987200 (-41)); [reflexivity|].
  apply andb_false_iff in H as [H | H]; apply negb_false_iff in H.
  - apply div_by_zero_unreal. exact H.
  - apply div_by_nan_unreal. exact H.
Qed.

(** What a reported conflict says of the pair it was pushed for. *)
Definition reports (c : conflict) (train1 train2 : active_train) : Prop :=
  moving train1 = true /\ moving train2 = true
  /\ type c = "CONVERGING_PATHS"
  /\ severity c = "HIGH"
  /\ trains c = [fused_trainId (current train1); fused_trainId (current train2)]
  /\ location c
     = {| name := "Junction XY";
          junction_position := {| lat := 28.6139; lon := 77.2090 |} |}
  /\ recommendedAction c = "PRIORITY_BASED_SEQUENCING".

Lemma converging_pair_spec train1 acc train2 c :
  In c (check_pair train1 acc train2).1 ->
  In c acc.1 \/ reports c train1 train2.
Proof.
  destruct acc as [conflicts n]. unfold check_pair.
  destruct (abs _ <? _) eqn:Hclose; cbn [fst]; [|auto].
  rewrite in_app_iff. intros [Hc | [<- | []]]; [auto|]. right.
  destruct (moving train1) eqn:H1; [destruct (moving train2) eqn:H2|].
  - repeat split; assumption.
  - rewrite unreal_not_close in Hclose; [discriminate|].
    right. apply calculateETA_unreal. exact H2.
  - rewrite unreal_not_close in Hclose; [discriminate|].
    left. apply calculateETA_unreal. exact H1.
Qed.

Lemma converging_inner_loop_spec train1 later :
  forall acc c,
    In c (fold_left (check_pair train1) later acc).1 ->
    In c acc.1
    \/ exists j train2, later !! j = Some train2 /\ reports c train1 train2.
Proof.
  induction later as [|t later IH]; intros acc c Hc; [auto|].
  cbn [fold_left] in Hc. apply IH in Hc as [Hc | (j & t2 & Hj & Hr)].
  - apply converging_pair_spec in Hc as [Hc | Hr]; [auto|].
    right. exists 0%nat, t. auto.
  - right. exists (S j), t2. auto.
Qed.

Lemma detect_from_spec trains :
  forall acc c,
    In c (detect_from trains acc).1 ->
    In c acc.1
    \/ exists i j train1 train2,
         (i < j)%nat /\ trains !! i = Some train1 /\ trains !! j = Some train2
         /\ reports c train1 train2.
Proof.
  induction trains as [|t later IH]; intros acc c Hc; [auto|].
  cbn [detect_from] in Hc.
  apply IH in Hc as [Hc | (i & j & t1 & t2 & Hij & Hi & Hj & Hr)].
  - apply converging_inner_loop_spec in Hc as [Hc | (j & t2 & Hj & Hr)]; [auto|].
    right. exists 0%nat, (S j), t, t2. repeat split; auto; try apply Hr. lia.
  - right. exists (S i), (S j), t1, t2. repeat split; auto; try apply Hr. lia.
Qed.

(** X9.  Every converging-paths conflict is reported for two trains of
    the scanned list, in scan order, that both have a non-zero speed: a
    train at speed 0 (its arrival time is not finite) is in no such
    conflict, whatever the distances and the clock.  The conflict is of
    severity HIGH with action PRIORITY_BASED_SEQUENCING, and its
    location is the same junction for every pair. *)
Theorem converging_paths_need_two_moving_trains (trains : list active_train)
    (c : conflict) :
  In c (detectConvergingPaths trains) ->
  exists i j train1 train2,
    (i < j)%nat /\ trains !! i = Some train1 /\ trains !! j = Some train2
    /\ reports c train1 train2.
Proof.
  intros Hc. apply detect_from_spec in Hc as [[] | H]. exact H.
Qed.

Lemma no_conflict_among_stationary trains :
  Forall (fun t => moving t = false) trains -> detectConvergingPaths trains = [].
Proof.
  intros Hall. destruct (detectConvergingPaths trains) as [|c cs] eqn:E;
    [reflexivity|].
  assert (Hc : In c (detectConvergingPaths trains)) by (rewrite E; left; reflexivity).
  apply detect_from_spec in Hc as [[] | (i & j & t1 & t2 & _ & Hi & _ & Hm & _)].
  rewrite List.Forall_forall in Hall.
  rewrite (Hall t1) in Hm; [discriminate|].
  apply list_elem_of_In, list_elem_of_lookup. exists i. exact Hi.
Qed.

End Detect.

(** *** Two trains approaching the junction *)

Definition approaching (id : string) (v : float) : active_train :=
  {| current := {| fused_trainId := id;
                   fused_position := {| lat := 28.5; lon := 77.1 |};
                   fused_speed := v;
                   fused_heading := 0;
                   confidence := 0.9;
                   fused_timestamp := 1700000000000 |};
     lastUpdate := 1700000000000;
     dataQuality := 1 |}.

Definition twenty_km (pos1 pos2 : latlon) : float := 20.

Definition steady_clock (n : nat) : float := 1700000000000.

Lemma converging_paths_need_two_moving_trains_witness :
  exists i j train1 train2,
    (i < j)%nat
    /\ [approaching "12951" 60; approaching "14000" 0; approaching "12619" 55]
       !! i = Some train1
    /\ [approaching "12951" 60; approaching "14000" 0; approaching "12619" 55]
       !! j = Some train2
    /\ reports (converging (approaching "12951" 60) (approaching "12619" 55)
                  (findConvergencePoint "12951" "12619")
                  (calculateETA twenty_km steady_clock 2 (approaching "12951" 60)
                     (findConvergencePoint "12951" "12619"))
                  (calculateETA twenty_km steady_clock 3 (approaching "12619" 55)
                     (findConvergencePoint "12951" "12619")))
               train1 train2.
Proof.
  apply (converging_paths_need_two_moving_trains twenty_km steady_clock
           [approaching "12951" 60; approaching "14000" 0; approaching "12619" 55]).
  vm_compute. left. reflexivity.
Defined.

End ConvergingPaths.


(** ** Trains that never had a positional reading *)

Module StationaryTrains.

Import JS Estimator.
Open Scope float_scope.

Definition is_gps (d : reading) : bool :=
  match d with
  | GPS _ => true
  | _ => false
  end.

(** The call hands a positional reading to the estimator of train [id]. *)
Definition feeds_gps (id : string) (c : call) : bool :=
  match c with
  | process _ _ d => is_gps d && bool_decide (data_trainId d = Some id)
  | update _ _ trainId newData =>
      bool_decide (trainId = id) && existsb is_gps newData
  end.

Lemma fuse_one_speed E e st n d :
  is_gps d = false ->
  speed (velocity st) = 0 ->
  speed (velocity (fuse_one E e (st, n) d).1) = 0.
Proof.
  intros Hd Hs. destruct d as [g | c | s | src t]; [discriminate| | |exact Hs].
  - cbn [fuse_one]. unfold updateWithTrackCircuit.
    destruct (occupied c && truthy_string (trainDetected c)); exact Hs.
  - cbn [fuse_one fst]. unfold updateWithStationReport. cbn.
    destruct (is_arrival_or_departure (event s)); [reflexivity | exact Hs].
Qed.

Lemma fold_fuse_speed E e l :
  existsb is_gps l = false ->
  forall st n,
    speed (velocity st) = 0 ->
    speed (velocity (fold_left (fuse_one E e) l (st, n)).1) = 0.
Proof.
  induction l as [|d l IH]; intros Hl st n Hs; [exact Hs|].
  cbn [existsb] in Hl. apply orb_false_iff in Hl as [Hd Hl].
  cbn [fold_left].
  pose proof (fuse_one_speed E e st n d Hd Hs) as H1.
  destruct (fuse_one E e (st, n) d) as [st' n']. apply IH; assumption.
Qed.

(** The estimator of [id], if any, and its [activeTrains] entry, if any,
    are at speed 0. *)
Record at_rest (id : string) (h : hub) : Prop := {
  estimator_at_rest :
    forall e, stateEstimators h !! id = Some e -> speed (velocity (state e)) = 0;
  entry_at_rest :
    forall t, activeTrains h !! id = Some t -> fused_speed (current t) = 0
}.

Lemma updateTrainState_at_rest E now h n id id' l :
  (id' = id -> existsb is_gps l = false) ->
  at_rest id h -> at_rest id (updateTrainState E now h n id' l).1.1.
Proof.
  intros Hl [He Ht]. unfold updateTrainState, fuseDataSources.
  set (e0 := match stateEstimators h !! id' with
             | Some e => e
             | None => initializeKalmanFilter id'
             end).
  destruct (fold_left (fuse_one E e0) l (state e0, n)) as [st n'] eqn:Hfold.
  cbn [fst stateEstimators activeTrains].
  destruct (decide (id' = id)) as [-> | Hne].
  - assert (Hst : speed (velocity st) = 0).
    { change st with (st, n').1. rewrite <- Hfold.
      apply fold_fuse_speed; [apply Hl; reflexivity|].
      unfold e0. destruct (stateEstimators h !! id) as [e|] eqn:Hlook;
        [apply He; reflexivity | reflexivity]. }
    split; intros x; cbn [stateEstimators activeTrains];
      rewrite lookup_insert_eq; intros [= <-]; exact Hst.
  - split; intros x; cbn [stateEstimators activeTrains];
      rewrite lookup_insert_ne by exact Hne; auto.
Qed.

Lemma step_at_rest id acc c :
  feeds_gps id c = false -> at_rest id acc.1 -> at_rest id (step acc c).1.
Proof.
  destruct acc as [h n]. destruct c as [E now d | E now id' l];
    cbn [feeds_gps step fst snd]; intros Hc Hh.
  - unfold processNormalizedData.
    destruct (truthy_string (data_trainId d)); [|exact Hh].
    destruct (data_trainId d) as [id'|] eqn:Hid; [|exact Hh].
    cbn [getTrainDataBuffer app].
    match goal with
    | |- context [updateTrainState E now h n id' ?l] =>
        pose proof (updateTrainState_at_rest E now h n id id' l) as Hu;
        destruct (updateTrainState E now h n id' l) as [[h' n'] f]
    end.
    cbn [fst] in *. apply Hu; [|exact Hh].
    intros ->. rewrite bool_decide_eq_true_2 in Hc by reflexivity.
    rewrite andb_true_r in Hc. cbn [List.filter].
    destruct (_ <? _)%Z; cbn [existsb]; [rewrite Hc|]; reflexivity.
  - apply updateTrainState_at_rest; [|exact Hh].
    intros ->. rewrite bool_decide_eq_true_2 in Hc by reflexivity. exact Hc.
Qed.

(** X10.  A train whose estimator was never handed a positional reading
    is held at speed 0, whatever station reports and track-circuit
    readings were fused for it: the speed only ever comes from a
    positional reading.  The converging-paths check therefore takes it
    for a train that is not moving. *)
Theorem speed_comes_from_gps_only (calls : list call) (id : string) :
  Forall (fun c => feeds_gps id c = false) calls ->
  (forall e, stateEstimators (run calls).1 !! id = Some e ->
             speed (velocity (state e)) = 0)
  /\ (forall t, activeTrains (run calls).1 !! id = Some t ->
                fused_speed (current t) = 0
                /\ ConvergingPaths.moving t = false).
Proof.
  intros Hall.
  assert (H : at_rest id (run calls).1).
  { unfold run.
    assert (Hfold : forall acc : hub * nat,
               at_rest id acc.1 -> at_rest id (fold_left step calls acc).1).
    { induction Hall as [|c calls Hc _ IH]; intros acc Hacc; [exact Hacc|].
      cbn [fold_left]. apply IH. apply step_at_rest; assumption. }
    apply Hfold. split; intros x; cbn; rewrite lookup_empty; discriminate. }
  destruct H as [He Ht]. split; [exact He|].
  intros t Hlook. pose proof (Ht t Hlook) as Hs. split; [exact Hs|].
  unfold ConvergingPaths.moving. rewrite Hs. reflexivity.
Qed.

Definition halt_report : reading :=
  STATION_REPORT {| stationId := "NDLS";
                    report_timestamp := 1700000000000;
                    report_trainId := Some "12951";
                    event := Some "HALT_START";
                    platform := Some "3";
                    delay := 0;
                    passengerCount := 0;
                    reportedBy := Some "SM-NDLS";
                    report_quality := 1 |}.

Definition fix_of_another_train : reading :=
  GPS {| gps_trainId := Some "12619";
         gps_timestamp := 1700000000000;
         latitude := 19.2; longitude := 72.9;
         gps_accuracy := 3.0; gps_speed := 90; gps_heading := 45;
         gps_quality := 1.0 |}.

Definition reported_only : list call :=
  [process steady_world 1700000000000 halt_report;
   process steady_world 1700000000000 fix_of_another_train;
   update steady_world 1700000000000 "12951"
     [TRACK_CIRCUIT (section_occupied_by "12951")]].

Lemma speed_comes_from_gps_only_witness :
  (forall e, stateEstimators (run reported_only).1 !! "12951" = Some e ->
             speed (velocity (state e)) = 0)
  /\ (forall t, activeTrains (run reported_only).1 !! "12951" = Some t ->
                fused_speed (current t) = 0
                /\ ConvergingPaths.moving t = false).
Proof.
  apply (speed_comes_from_gps_only reported_only "12951").
  repeat constructor.
Defined.

End StationaryTrains.

(** ** The safety distance of trains without a position *)

Module SafetyDistanceProperties.

Import JS Estimator SafetyDistance.
Open Scope float_scope.

Lemma is_nan_eq x : is_nan x = true -> x = nan.
Proof.
  intros Hx. apply Prim2SF_inj. change (Prim2SF nan) with S754_nan.
  unfold is_nan in Hx. rewrite FloatAxioms.eqb_spec in Hx.
  destruct (Prim2SF x) as [s|s| |s m e]; try reflexivity; exfalso;
    rewrite ConvergingPaths.SFeqb_refl in Hx by discriminate; discriminate Hx.
Qed.

Lemma sub_nan_r x : x - nan = nan.
Proof.
  apply Prim2SF_inj. rewrite FloatAxioms.sub_spec.
  change (Prim2SF nan) with S754_nan. destruct (Prim2SF x); reflexivity.
Qed.

Lemma mul_nan_l x : nan * x = nan.
Proof.
  apply Prim2SF_inj. rewrite FloatAxioms.mul_spec.
  change (Prim2SF nan) with S754_nan. reflexivity.
Qed.

Lemma div_nan_l x : nan / x = nan.
Proof.
  apply Prim2SF_inj. rewrite FloatAxioms.div_spec.
  change (Prim2SF nan) with S754_nan. reflexivity.
Qed.

(** A position both of whose coordinates are numbers. *)
Definition located (p : latlon) : bool :=
  negb (is_nan (lat p)) && negb (is_nan (lon p)).

Section Laws.

Variable Math_sin Math_cos : float -> float.
Variable Math_atan2 : float -> float -> float.

(** What the language fixes of the three functions: NaN in, NaN out, and
    the values at zero. *)
Hypothesis sin_nan : Math_sin nan = nan.
Hypothesis atan2_nan : forall x, Math_atan2 nan x = nan.
Hypothesis sin_zero : Math_sin 0 = 0.
Hypothesis cos_zero : Math_cos 0 = 1.
Hypothesis atan2_zero : Math_atan2 0 1 = 0.

Local Abbreviation calculateDistance :=
  (SafetyDistance.calculateDistance Math_sin Math_cos Math_atan2).
Local Abbreviation violation :=
  (SafetyDistance.violation Math_sin Math_cos Math_atan2).
Local Abbreviation detectSafetyDistanceViolations :=
  (SafetyDistance.detectSafetyDistanceViolations Math_sin Math_cos Math_atan2).

Lemma distance_of_nan_term a :
  a = nan ->
  6371 * (2 * Math_atan2 (PrimFloat.sqrt a) (PrimFloat.sqrt (1 - a))) = nan.
Proof.
  intros ->. change (PrimFloat.sqrt nan) with nan.
  rewrite atan2_nan. reflexivity.
Qed.

Lemma distance_without_latitude p1 p2 :
  lat p1 = nan \/ lat p2 = nan -> calculateDistance p1 p2 = nan.
Proof.
  intros H. unfold SafetyDistance.calculateDistance. cbn zeta.
  apply distance_of_nan_term.
  assert (Hd : lat p2 - lat p1 = nan).
  { destruct H as [-> | ->]; [apply sub_nan_r | apply EstimatorProperties.sub_nan_l]. }
  rewrite Hd, mul_nan_l, !div_nan_l, sin_nan.
  change (nan * nan) with nan. apply EstimatorProperties.add_nan_l.
Qed.

Lemma distance_without_longitude p1 p2 :
  lon p1 = nan \/ lon p2 = nan -> calculateDistance p1 p2 = nan.
Proof.
  intros H. unfold SafetyDistance.calculateDistance. cbn zeta.
  apply distance_of_nan_term.
  assert (Hd : lon p2 - lon p1 = nan).
  { destruct H as [-> | ->]; [apply sub_nan_r | apply EstimatorProperties.sub_nan_l]. }
  rewrite Hd, mul_nan_l, !div_nan_l, sin_nan.
  rewrite EstimatorProperties.mul_nan_r.
  apply EstimatorProperties.add_nan_r.
Qed.

Lemma distance_of_unlocated p1 p2 :
  located p1 && located p2 = false -> calculateDistance p1 p2 = nan.
Proof.
  unfold located. intros H.
  destruct (is_nan (lat p1)) eqn:H1;
    [apply distance_without_latitude; left; apply is_nan_eq, H1|].
  destruct (is_nan (lat p2)) eqn:H2;
    [apply distance_without_latitude; right; apply is_nan_eq, H2|].
  destruct (is_nan (lon p1)) eqn:H3;
    [apply distance_without_longitude; left; apply is_nan_eq, H3|].
  destruct (is_nan (lon p2)) eqn:H4;
    [apply distance_without_longitude; right; apply is_nan_eq, H4|].
  discriminate H.
Qed.

Lemma distance_at_origin :
  calculateDistance {| lat := 0; lon := 0 |} {| lat := 0; lon := 0 |} = 0.
Proof.
  unfold SafetyDistance.calculateDistance. cbn [lat lon]. cbn zeta.
  change ((0 - 0) * Math_PI / 180 / 2) with 0.
  change (0 * Math_PI / 180) with 0.
  rewrite sin_zero, cos_zero.
  change (0 * 0 + 1 * 1 * 0 * 0) with 0.
  change (PrimFloat.sqrt 0) with 0. change (PrimFloat.sqrt (1 - 0)) with 1.
  rewrite atan2_zero. reflexivity.
Qed.

(** X11.  A train without a position is invisible to the safety-distance
    check.  When a coordinate of either position is NaN, as both are
    after a station report, the haversine formula gives NaN, which is
    not below 2: every reported pair consists of two trains of the
    scanned list whose four coordinates are numbers, and a list of
    trains none of which has a position is reported free of violations.
    Two trains at the estimator's initial position (0, 0) are reported,
    at distance 0. *)
Theorem unlocated_trains_are_never_too_close :
  (forall p1 p2,
     located p1 && located p2 = false -> calculateDistance p1 p2 = nan)
  /\ (forall trains c,
        In c (detectSafetyDistanceViolations trains) ->
        exists train1 train2,
          In train1 trains /\ In train2 trains
          /\ c = violation train1 train2
          /\ located (fused_position (current train1)) = true
          /\ located (fused_position (current train2)) = true)
  /\ (forall trains,
        Forall (fun t => fused_position (current t) = EstimatorProperties.lost)
               trains ->
        detectSafetyDistanceViolations trains = [])
  /\ (forall train1 train2,
        fused_position (current train1) = {| lat := 0; lon := 0 |} ->
        fused_position (current train2) = {| lat := 0; lon := 0 |} ->
        detectSafetyDistanceViolations [train1; train2]
        = [violation train1 train2]
        /\ distance (violation train1 train2) = 0).
Proof.
  assert (Hpairs : forall trains c,
             In c (detectSafetyDistanceViolations trains) ->
             exists train1 train2,
               In train1 trains /\ In train2 trains
               /\ c = violation train1 train2
               /\ located (fused_position (current train1)) = true
               /\ located (fused_position (current train2)) = true).
  { intros trains c Hc.
    apply detect_spec in Hc as (i & j & t1 & t2 & _ & Hi & Hj & Hlt & ->).
    exists t1, t2.
    split; [apply list_elem_of_In, list_elem_of_lookup; eauto|].
    split; [apply list_elem_of_In, list_elem_of_lookup; eauto|].
    split; [reflexivity|].
    unfold too_close in Hlt.
    destruct (located (fused_position (current t1))
              && located (fused_position (current t2))) eqn:Hloc.
    - apply andb_true_iff in Hloc. exact Hloc.
    - rewrite (distance_of_unlocated _ _ Hloc) in Hlt. discriminate Hlt. }
  split; [exact distance_of_unlocated|]. split; [exact Hpairs|]. split.
  - intros trains Hall.
    destruct (detectSafetyDistanceViolations trains) as [|c l] eqn:Hd;
      [reflexivity|].
    destruct (Hpairs trains c) as (t1 & t2 & H1 & _ & _ & Hloc & _);
      [rewrite Hd; left; reflexivity|].
    rewrite Forall_forall in Hall.
    rewrite (Hall t1) in Hloc by (apply list_elem_of_In; exact H1).
    discriminate Hloc.
  - intros train1 train2 H1 H2.
    cbn [SafetyDistance.detectSafetyDistanceViolations flat_map app].
    unfold check_pair, SafetyDistance.violation. cbn [distance]. cbn zeta.
    rewrite H1, H2, distance_at_origin. split; reflexivity.
Qed.

End Laws.

(** Small-angle stand-ins for the three functions meet the five laws. *)
Lemma unlocated_trains_are_never_too_close_witness :
  let Math_sin := fun x : float => x in
  let Math_cos := fun x : float => 1 - x * x / 2 in
  let Math_atan2 := fun y x : float => y / x in
  (Math_sin nan = nan
   /\ (forall x, Math_atan2 nan x = nan)
   /\ Math_sin 0 = 0 /\ Math_cos 0 = 1 /\ Math_atan2 0 1 = 0)
  /\ SafetyDistance.detectSafetyDistanceViolations Math_sin Math_cos Math_atan2
       [ {| current := {| fused_trainId := "12951";
                          fused_position := EstimatorProperties.lost;
                          fused_speed := 0; fused_heading := 0;
                          confidence := 0; fused_timestamp := 0 |};
            lastUpdate := 0; dataQuality := 0 |} ] = [].
Proof.
  cbv zeta.
  split; [repeat split; try reflexivity; intros x; apply div_nan_l|].
  apply (unlocated_trains_are_never_too_close
           (fun x => x) (fun x => 1 - x * x / 2) (fun y x => y / x)
           eq_refl div_nan_l eq_refl eq_refl eq_refl).
  repeat constructor.
Defined.

End SafetyDistanceProperties.

(** ** Further properties of the schedule reconciler *)

Module ShiftProperties.

Import JS SafeIntegers Reconciler.
Open Scope Z_scope.

(** *** Right shifts within the range of [Date] *)

(** A stop moved by a whole number of milliseconds. *)
Definition move (ms : Z) (stop : stationStop) : stationStop :=
  {| stationId := stationId stop;
     arrivalTime := match arrivalTime stop with
                    | Valid a => Valid (a + ms)
                    | Invalid => Invalid
                    end;
     departureTime := match departureTime stop with
                      | Valid dp => Valid (dp + ms)
                      | Invalid => Invalid
                      end;
     isHalt := isHalt stop;
     haltDuration := haltDuration stop |}.

(** The stop holds valid dates, and they are valid dates still when
    moved by [ms]. *)
Definition movable (ms : Z) (stop : stationStop) : bool :=
  match arrivalTime stop, departureTime stop with
  | Valid a, Valid dp =>
      in_Date_range a && in_Date_range dp
      && in_Date_range (a + ms) && in_Date_range (dp + ms)
  | _, _ => false
  end.

Definition all_movable (h : store) (rs : list ref) (ms : Z) : bool :=
  forallb (fun r => match h !! r with
                    | Some stop => movable ms stop
                    | None => true
                    end) rs.

Lemma all_movable_spec (h : store) (rs : list ref) (ms : Z) :
  all_movable h rs ms = true ->
  forall r stop, r ∈ rs -> h !! r = Some stop -> movable ms stop = true.
Proof.
  unfold all_movable. rewrite forallb_forall. intros Hall r stop Hr Hstop.
  specialize (Hall r). rewrite Hstop in Hall. apply Hall.
  apply list_elem_of_In. exact Hr.
Qed.

Lemma shift_move (ms : Z) (stop : stationStop) :
  Z.abs ms < 2 ^ 53 -> movable ms stop = true ->
  shift (of_Z ms) stop = move ms stop.
Proof.
  unfold movable, shift, move. intros Hms Hmov.
  destruct (arrivalTime stop) as [|a]; [discriminate|].
  destruct (departureTime stop) as [|dp]; [discriminate|].
  apply andb_true_iff in Hmov as [Hmov Hdp'].
  apply andb_true_iff in Hmov as [Hmov Ha'].
  apply andb_true_iff in Hmov as [Ha Hdp].
  rewrite !moved_time by assumption. reflexivity.
Qed.

Lemma move_move (a b : Z) (stop : stationStop) :
  move a (move b stop) = move (b + a) stop.
Proof.
  unfold move. cbn.
  destruct (arrivalTime stop), (departureTime stop); f_equal; f_equal; lia.
Qed.

Lemma move_0 (stop : stationStop) : move 0 stop = stop.
Proof.
  destruct stop as [s a dp i hd]. unfold move. cbn.
  destruct a, dp; f_equal; f_equal; lia.
Qed.

(** A stop of the integer model of [Brain], as a stop holding valid
    dates. *)
Definition valid_stop (stop : Brain.stationStop) : stationStop :=
  {| stationId := Brain.stationId stop;
     arrivalTime := Valid (Brain.arrivalTime stop);
     departureTime := Valid (Brain.departureTime stop);
     isHalt := Brain.isHalt stop;
     haltDuration := of_Z (Brain.haltDuration stop) |}.

(** On whole minutes and within the range of [Date] the loop body on
    numbers does what the integer model does. *)
Lemma integer_model_agrees (d : Z) (stop : Brain.stationStop) :
  Z.abs (d * 60 * 1000) < 2 ^ 53 ->
  movable (d * 60 * 1000) (valid_stop stop) = true ->
  shift (of_Z d * 60 * 1000)%float (valid_stop stop)
  = valid_stop (Brain.shift (d * 60 * 1000) stop).
Proof.
  intros Hd Hmov. rewrite whole_delay_in_ms by exact Hd.
  rewrite shift_move by assumption. reflexivity.
Qed.

Section Conversions.

Variable StringToNumber : string -> float.
Variable NumberToString : float -> string.

Local Abbreviation rightShiftSchedule :=
  (Reconciler.rightShiftSchedule StringToNumber NumberToString).

(** The store after a right shift by whole minutes within the range. *)
Lemma right_shift_lookup (h : store) (schedule : trainSchedule) (d : Z)
    (r : ref) :
  NoDup (stations schedule) ->
  Z.abs (d * 60 * 1000) < 2 ^ 53 ->
  all_movable h (stations schedule) (d * 60 * 1000) = true ->
  (rightShiftSchedule h schedule (VNumber (of_Z d))).1 !! r
  = if decide (r ∈ stations schedule)
    then move (d * 60 * 1000) <$> h !! r
    else h !! r.
Proof.
  intros Hnd Hd Hall. unfold Reconciler.rightShiftSchedule. cbn [fst ToNumber].
  rewrite whole_delay_in_ms by exact Hd.
  destruct (decide (r ∈ stations schedule)) as [Hr | Hr].
  - rewrite alter_all_listed by assumption.
    destruct (h !! r) as [stop|] eqn:Hstop; [|reflexivity].
    cbn [fmap option_fmap option_map]. f_equal.
    apply shift_move; [exact Hd|].
    exact (all_movable_spec h _ _ Hall r stop Hr Hstop).
  - apply alter_all_elsewhere. exact Hr.
Qed.

(** X13.  Right shifts of a schedule of distinct stops by whole numbers
    of minutes compose as long as every time stays a valid date: two
    shifts in succession are one shift by the sum of the delays, on the
    stops and on the returned schedule, and a shift followed by the
    opposite shift gives back the stops and the schedule, its total
    delay included. *)
Theorem right_shifts_compose (h : store) (schedule : trainSchedule)
    (d1 d2 T : Z) :
  NoDup (stations schedule) ->
  Z.abs (d1 * 60 * 1000) < 2 ^ 53 ->
  Z.abs (d2 * 60 * 1000) < 2 ^ 53 ->
  Z.abs ((d1 + d2) * 60 * 1000) < 2 ^ 53 ->
  all_movable h (stations schedule) (d1 * 60 * 1000) = true ->
  all_movable h (stations schedule) ((d1 + d2) * 60 * 1000) = true ->
  totalDelay schedule = VNumber (of_Z T) ->
  Z.abs T < 2 ^ 53 -> Z.abs (T + d1) < 2 ^ 53 ->
  Z.abs (T + d1 + d2) < 2 ^ 53 ->
  rightShiftSchedule (rightShiftSchedule h schedule (VNumber (of_Z d1))).1
                     (rightShiftSchedule h schedule (VNumber (of_Z d1))).2
                     (VNumber (of_Z d2))
  = rightShiftSchedule h schedule (VNumber (of_Z (d1 + d2)))
  /\ (d2 = - d1 ->
      rightShiftSchedule (rightShiftSchedule h schedule (VNumber (of_Z d1))).1
                         (rightShiftSchedule h schedule (VNumber (of_Z d1))).2
                         (VNumber (of_Z d2))
      = (h, schedule)).
Proof.
  intros Hnd H1 H2 H12 Hm1 Hm12 Htotal HT HT1 HT12.
  set (first := rightShiftSchedule h schedule (VNumber (of_Z d1))).
  assert (Hstations : stations first.2 = stations schedule) by reflexivity.
  assert (Hm2 : all_movable first.1 (stations first.2) (d2 * 60 * 1000) = true).
  { rewrite Hstations. unfold all_movable. apply forallb_forall. intros r Hr.
    apply list_elem_of_In in Hr. unfold first.
    rewrite right_shift_lookup by assumption.
    rewrite decide_True by exact Hr.
    destruct (h !! r) as [stop|] eqn:Hstop; [|reflexivity].
    cbn [fmap option_fmap option_map].
    pose proof (all_movable_spec h _ _ Hm1 r stop Hr Hstop) as Hs1.
    pose proof (all_movable_spec h _ _ Hm12 r stop Hr Hstop) as Hs12.
    unfold movable, move in *. cbn [arrivalTime departureTime].
    destruct (arrivalTime stop) as [|a]; [discriminate|].
    destruct (departureTime stop) as [|dp]; [discriminate|].
    rewrite !andb_true_iff in Hs1, Hs12. rewrite !andb_true_iff.
    replace (a + d1 * 60 * 1000 + d2 * 60 * 1000)
      with (a + (d1 + d2) * 60 * 1000) by lia.
    replace (dp + d1 * 60 * 1000 + d2 * 60 * 1000)
      with (dp + (d1 + d2) * 60 * 1000) by lia.
    tauto. }
  assert (Hcompose : rightShiftSchedule first.1 first.2 (VNumber (of_Z d2))
                     = rightShiftSchedule h schedule (VNumber (of_Z (d1 + d2)))).
  { apply injective_projections.
    - apply map_eq. intros r.
      rewrite right_shift_lookup by (rewrite ?Hstations; assumption).
      rewrite Hstations. unfold first.
      rewrite !right_shift_lookup by assumption.
      destruct (decide (r ∈ stations schedule)); [|reflexivity].
      destruct (h !! r) as [stop|]; [|reflexivity].
      cbn [fmap option_fmap option_map]. rewrite move_move.
      do 2 f_equal. lia.
    - unfold first, Reconciler.rightShiftSchedule.
      cbn [snd trainId trainNumber trainType priority departure stations
           totalDelay halts].
      rewrite Htotal. cbn [plus ToNumber].
      rewrite !add_exact by lia. do 3 f_equal. lia. }
  split; [exact Hcompose|]. intros ->. rewrite Hcompose.
  replace (d1 + - d1) with 0 in * by lia.
  apply injective_projections.
  - apply map_eq. intros r. rewrite right_shift_lookup by assumption.
    cbn [fst].
    destruct (decide (r ∈ stations schedule)); [|reflexivity].
    destruct (h !! r) as [stop|]; [|reflexivity].
    cbn [fmap option_fmap option_map]. change (0 * 60 * 1000) with 0.
    rewrite move_0. reflexivity.
  - destruct schedule. unfold Reconciler.rightShiftSchedule.
    cbn [snd trainId trainNumber trainType priority departure stations
         totalDelay halts] in *.
    rewrite Htotal. cbn [plus ToNumber]. rewrite add_exact by lia.
    rewrite Z.add_0_r. reflexivity.
Qed.

End Conversions.

(** The Rajdhani moved by a quarter of an hour and back. *)
Lemma right_shifts_compose_witness :
  let first := Reconciler.rightShiftSchedule no_number no_text evening_stops
                 rajdhani (VNumber (of_Z 15)) in
  Reconciler.rightShiftSchedule no_number no_text first.1 first.2
    (VNumber (of_Z (-15)))
  = (evening_stops, rajdhani).
Proof.
  cbv zeta.
  apply (right_shifts_compose no_number no_text evening_stops rajdhani
           15 (-15) 0); try reflexivity.
  apply (bool_decide_unpack _). reflexivity.
Defined.

End ShiftProperties.


(** ** What a real-time update leaves in the brain *)

Module ReconcilerProperties.

Import JS Brain.
Open Scope Z_scope.

Lemma map_set_keys {V : Type} (k : string) (v : V) (m : list (string * V)) :
  forall x, x ∈ map fst (map_set k v m) <-> x = k \/ x ∈ map fst m.
Proof.
  induction m as [|[k' v'] m IH]; intros x; cbn [map_set map fst].
  - rewrite elem_of_cons. split; intros [H | H]; auto.
  - destruct (String.eqb k' k) eqn:Hk; cbn [map fst].
    + apply String.eqb_eq in Hk. subst k'. rewrite elem_of_cons. tauto.
    + rewrite !elem_of_cons, IH. tauto.
Qed.

Lemma map_set_NoDup {V : Type} (k : string) (v : V) (m : list (string * V)) :
  NoDup (map fst m) -> NoDup (map fst (map_set k v m)).
Proof.
  induction m as [|[k' v'] m IH]; cbn [map_set map fst]; intros Hnd.
  - apply NoDup_singleton.
  - destruct (String.eqb k' k) eqn:Hk; cbn [map fst]; [exact Hnd|].
    apply NoDup_cons in Hnd as [Hk' Hnd]. apply NoDup_cons. split; [|auto].
    rewrite map_set_keys. intros [-> | H]; [|contradiction].
    rewrite String.eqb_refl in Hk. discriminate.
Qed.

(** The affected-schedule map after the loop over [ids]. *)
Lemma affected_keys (cs : gmap string trainSchedule) (updated : trainSchedule)
    (ids : list string) :
  forall acc,
    NoDup (map fst acc) ->
    let aff :=
      fold_left
        (fun acc affectedTrainId =>
           match cs !! affectedTrainId with
           | Some affectedSchedule =>
               map_set affectedTrainId
                 (localRepair affectedSchedule updated) acc
           | None => acc
           end)
        ids acc in
    NoDup (map fst aff)
    /\ (forall x, x ∈ map fst aff <->
                  x ∈ map fst acc \/ (x ∈ ids /\ is_Some (cs !! x))).
Proof.
  induction ids as [|y ids IH]; intros acc Hnd; cbn zeta; cbn [fold_left].
  - split; [exact Hnd|]. intros x. rewrite elem_of_nil. tauto.
  - destruct (cs !! y) as [sy|] eqn:Hy.
    + destruct (IH (map_set y (localRepair sy updated) acc)
                  (map_set_NoDup _ _ _ Hnd)) as [IHnd IHkeys].
      split; [exact IHnd|]. intros x. cbn zeta in IHkeys.
      rewrite IHkeys, map_set_keys, elem_of_cons.
      assert (Hxy : x = y -> is_Some (cs !! x)) by (intros ->; rewrite Hy; eauto).
      tauto.
    + destruct (IH acc Hnd) as [IHnd IHkeys].
      split; [exact IHnd|]. intros x. cbn zeta in IHkeys.
      rewrite IHkeys, elem_of_cons.
      assert (Hxy : x = y -> ~ is_Some (cs !! x))
        by (intros -> [? H2]; rewrite Hy in H2; discriminate H2).
      tauto.
Qed.

(** X14.  An update for a train with a schedule never adds a train to
    the brain's schedule map nor removes one.  The affected schedules it
    returns are, once each, the listed trains that have a schedule, each
    with the schedule the brain held for it before the call; the updated
    schedule is the right-shifted one. *)
Theorem update_keeps_the_fleet (b : brain) (X : string)
    (pos : Estimator.latlon) (d : Z) (affected : list string)
    (s : trainSchedule) :
  currentSchedule b !! X = Some s ->
  exists b' result,
    handleRealTimeUpdate b X pos d affected = Returned b' result
    /\ (forall Y, is_Some (currentSchedule b' !! Y)
                  <-> is_Some (currentSchedule b !! Y))
    /\ NoDup (map fst (affectedSchedules result))
    /\ (forall Y sY, (Y, sY) ∈ affectedSchedules result
                     <-> Y ∈ affected /\ currentSchedule b !! Y = Some sY)
    /\ updatedSchedule result = (rightShiftSchedule (stops b) s d).2.
Proof.
  intros Hs.
  destruct (handleRealTimeUpdate_others b X pos d affected s Hs)
    as (b' & result & Hcall & Hothers & _ & Hheld).
  destruct (handleRealTimeUpdate_reporting b X pos d affected s Hs)
    as (b2 & result2 & s' & Hcall2 & Hshift & Hs' & _).
  rewrite Hcall in Hcall2. injection Hcall2 as <- <-.
  exists b', result. split; [exact Hcall|].
  split; [|split; [|split]].
  - intros Y. destruct (decide (Y = X)) as [-> | Hne].
    + rewrite Hs, Hs'. split; eauto.
    + rewrite (Hothers Y Hne). reflexivity.
  - unfold handleRealTimeUpdate in Hcall. rewrite Hs in Hcall.
    destruct (rightShiftSchedule (stops b) s d) as [h upd].
    injection Hcall as _ <-. cbn [affectedSchedules].
    apply (affected_keys (currentSchedule b) upd affected []). constructor.
  - intros Y sY. rewrite Forall_forall in Hheld. split.
    + intros Hin. destruct (Hheld _ Hin) as [H1 H2]. auto.
    + intros [Hin HY].
      unfold handleRealTimeUpdate in Hcall. rewrite Hs in Hcall.
      destruct (rightShiftSchedule (stops b) s d) as [h upd].
      injection Hcall as _ <-. cbn [affectedSchedules] in *.
      destruct (affected_keys (currentSchedule b) upd affected [])
        as [_ Hkeys]; [constructor|]. cbn zeta in Hkeys.
      assert (HYkey : Y ∈ map fst
                (fold_left
                   (fun acc affectedTrainId =>
                      match currentSchedule b !! affectedTrainId with
                      | Some affectedSchedule =>
                          map_set affectedTrainId
                            (localRepair affectedSchedule upd) acc
                      | None => acc
                      end) affected [])).
      { apply Hkeys. right. split; [exact Hin | rewrite HY; eauto]. }
      apply list_elem_of_In, in_map_iff in HYkey as ([Y' v] & HfstY & Hentry).
      cbn in HfstY. subst Y'. apply list_elem_of_In in Hentry.
      destruct (Hheld _ Hentry) as [H1 _]. cbn in H1.
      assert (v = sY) by congruence. subst v. exact Hentry.
  - rewrite <- Hshift. reflexivity.
Qed.

Lemma update_keeps_the_fleet_witness :
  exists b' result,
    handleRealTimeUpdate evening "train_vip_001" mumbai 15
      ["train_freight_003"; "train_unknown"; "train_freight_003"]
    = Returned b' result
    /\ (forall Y, is_Some (currentSchedule b' !! Y)
                  <-> is_Some (currentSchedule evening !! Y))
    /\ NoDup (map fst (affectedSchedules result))
    /\ (forall Y sY, (Y, sY) ∈ affectedSchedules result
                     <-> Y ∈ ["train_freight_003"; "train_unknown";
                              "train_freight_003"]
                         /\ currentSchedule evening !! Y = Some sY)
    /\ updatedSchedule result = (rightShiftSchedule (stops evening) rajdhani 15).2.
Proof.
  apply (update_keeps_the_fleet evening "train_vip_001" mumbai 15
           ["train_freight_003"; "train_unknown"; "train_freight_003"] rajdhani).
  reflexivity.
Defined.

End ReconcilerProperties.


(** ** What the discrete-event evaluation measures *)

Module EvaluationProperties.

Import JS Brain.
Open Scope Z_scope.

Definition is_arrival (ev : event) : bool :=
  match kind ev with
  | ARRIVAL => true
  | DEPARTURE => false
  end.

(** The events in the order the two loops push them. *)
Definition generated (h : store) (schedule : individual) : list event :=
  flat_map (fun ts => flat_map (events_of_stop h ts) (stations ts))
           (map snd (trains schedule)).

Definition by_time (a b : event) : Prop := time a <= time b.

(** *** The sort *)

Lemma insert_by_time_Permutation e l :
  Permutation (insert_by_time e l) (e :: l).
Proof.
  induction l as [|e' l IH]; cbn [insert_by_time]; [reflexivity|].
  destruct (time e <=? time e'); [reflexivity|].
  rewrite IH. apply perm_swap.
Qed.

Lemma sort_by_time_Permutation l : Permutation (sort_by_time l) l.
Proof.
  induction l as [|e l IH]; cbn; [reflexivity|].
  rewrite insert_by_time_Permutation. constructor. exact IH.
Qed.

Lemma insert_by_time_Sorted e l :
  Sorted by_time l -> Sorted by_time (insert_by_time e l).
Proof.
  induction 1 as [|e' l Hl IH Hhd]; cbn [insert_by_time].
  - repeat constructor.
  - destruct (time e <=? time e') eqn:Hle.
    + apply Z.leb_le in Hle. repeat constructor; assumption.
    + apply Z.leb_gt in Hle. constructor; [exact IH|].
      destruct Hhd as [|e'' l' Hle'']; cbn [insert_by_time].
      * constructor. unfold by_time. lia.
      * destruct (time e <=? time e''); constructor; unfold by_time in *; lia.
Qed.

Lemma sort_by_time_Sorted l : Sorted by_time (sort_by_time l).
Proof.
  induction l as [|e l IH]; cbn; [constructor|].
  apply insert_by_time_Sorted. exact IH.
Qed.

(** *** The processing loop *)

Lemma process_counts_arrivals (l : list event) :
  forall acc,
    fold_left process l acc
    = (acc.1, (acc.2 + length (List.filter is_arrival l))%nat).
Proof.
  induction l as [|ev l IH]; intros [z n]; cbn [fold_left List.filter fst snd].
  - cbn [length]. rewrite Nat.add_0_r. reflexivity.
  - rewrite IH. unfold process, is_arrival.
    destruct (kind ev); cbn [fst snd length].
    + rewrite Z.sub_diag. change (Z.max 0 0) with 0.
      change (0 <=? 5 * 60 * 1000) with true. cbn iota.
      rewrite Z.add_0_r, Nat.add_succ_r. reflexivity.
    + reflexivity.
Qed.

Lemma arrivals_of_Permutation (l l' : list event) :
  Permutation l l' ->
  length (List.filter is_arrival l) = length (List.filter is_arrival l').
Proof.
  induction 1 as [|x l l' _ IH|x y l|l l' l'' _ IH1 _ IH2]; cbn [List.filter].
  - reflexivity.
  - destruct (is_arrival x); cbn [length]; rewrite IH; reflexivity.
  - destruct (is_arrival x), (is_arrival y); reflexivity.
  - rewrite IH1. exact IH2.
Qed.

(** X15.  The evaluation replays the schedule's own events, ordered by
    time.  It measures every arrival against its own time: the delay
    summed is always 0 and every arrival counts as on time, so the
    average delay is 0 divided by the number of trains, and the on-time
    percentage is the share of arrivals among all events (arrivals and
    the departures of halts), whatever the times in the schedule. *)
Theorem evaluation_counts_every_arrival_on_time (h : store) (now : Z)
    (schedule : individual) :
  let sim := runDiscreteEventSimulation h now schedule in
  let arrivals := length (List.filter is_arrival (generated h schedule)) in
  Permutation (events sim) (generated h schedule)
  /\ Sorted by_time (events sim)
  /\ averageDelay (simulation_metrics sim)
     = (0 / of_nat (length (trains schedule)) / (60 * 1000))%float
  /\ onTimePerformance (simulation_metrics sim)
     = (of_nat arrivals / of_nat (length (generated h schedule)) * 100)%float.
Proof.
  cbn zeta. unfold runDiscreteEventSimulation. cbn zeta.
  fold (generated h schedule).
  rewrite process_counts_arrivals. cbn [fst snd Nat.add events simulation_metrics
    averageDelay onTimePerformance].
  pose proof (sort_by_time_Permutation (generated h schedule)) as Hperm.
  split; [exact Hperm|]. split; [apply sort_by_time_Sorted|]. split.
  - rewrite length_map. reflexivity.
  - rewrite (arrivals_of_Permutation _ _ Hperm), (Permutation_length Hperm).
    reflexivity.
Qed.

End EvaluationProperties.


(** ** What [detectConflicts] counts *)

Module ConflictCount.

Import JS Brain.
Open Scope Z_scope.

(** The keys [`${stationId}_${arrivalTime}`] in the order the two loops
    form them.  The time is rendered as an integer, so the key names the
    pair. *)
Definition keys_of_stops (h : store) (rs : list ref) : list (string * Z) :=
  omap (fun r => (fun stop => (stationId stop, arrivalTime stop)) <$> h !! r) rs.

Definition keys_of (h : store) (schedule : individual) : list (string * Z) :=
  flat_map (fun entry : string * trainSchedule =>
              keys_of_stops h (stations entry.2))
           (trains schedule).

(** The counter and the occupancy map after the keys [seen]. *)
Record counted (acc : Z * gmap (string * Z) string) (seen : list (string * Z))
  : Prop := {
  counted_total : acc.1 + Z.of_nat (size acc.2) = Z.of_nat (length seen);
  counted_keys : dom acc.2 = list_to_set (C := gset (string * Z)) seen
}.

Lemma keys_of_stops_cons h r rs :
  keys_of_stops h (r :: rs)
  = match h !! r with
    | Some stop => (stationId stop, arrivalTime stop) :: keys_of_stops h rs
    | None => keys_of_stops h rs
    end.
Proof.
  unfold keys_of_stops. cbn [omap list_omap].
  destruct (h !! r); reflexivity.
Qed.

Lemma occupy_counted h train acc seen r :
  counted acc seen ->
  counted (occupy h train acc r) (seen ++ keys_of_stops h [r]).
Proof.
  intros [Htotal Hkeys]. rewrite keys_of_stops_cons. unfold occupy.
  change (keys_of_stops h []) with (@nil (string * Z)).
  destruct (h !! r) as [stop|];
    [|rewrite app_nil_r; split; assumption].
  set (key := (stationId stop, arrivalTime stop)).
  destruct (acc.2 !! key) as [owner|] eqn:Hkey; cbn [fst snd].
  - split; cbn [fst snd].
    + rewrite length_app. cbn [length]. lia.
    + rewrite list_to_set_app_L, <- Hkeys. cbn [list_to_set foldr].
      assert (Hin : key ∈ dom acc.2) by (apply elem_of_dom; eauto).
      apply set_eq. intros x.
      rewrite !elem_of_union, elem_of_singleton, elem_of_empty.
      split; [auto | intros [Hx | [-> | []]]; auto].
  - split; cbn [fst snd].
    + rewrite map_size_insert_None by exact Hkey.
      rewrite length_app. cbn [length]. lia.
    + rewrite dom_insert_L, list_to_set_app_L, <- Hkeys.
      cbn [list_to_set foldr]. apply set_eq. intros x.
      rewrite !elem_of_union, elem_of_singleton, elem_of_empty. tauto.
Qed.

Lemma occupy_all_counted h train rs :
  forall acc seen,
    counted acc seen ->
    counted (fold_left (occupy h train) rs acc) (seen ++ keys_of_stops h rs).
Proof.
  induction rs as [|r rs IH]; intros acc seen Hacc; cbn [fold_left].
  - change (keys_of_stops h []) with (@nil (string * Z)).
    rewrite app_nil_r. exact Hacc.
  - replace (keys_of_stops h (r :: rs))
      with (keys_of_stops h [r] ++ keys_of_stops h rs).
    + rewrite List.app_assoc. apply IH. apply occupy_counted. exact Hacc.
    + rewrite !keys_of_stops_cons.
      change (keys_of_stops h []) with (@nil (string * Z)).
      destruct (h !! r); reflexivity.
Qed.

Lemma detectConflicts_counted h (l : list (string * trainSchedule)) :
  forall acc seen,
    counted acc seen ->
    counted
      (fold_left
         (fun acc (entry : string * trainSchedule) =>
            fold_left (occupy h (trainId entry.2)) (stations entry.2) acc)
         l acc)
      (seen ++ flat_map (fun entry : string * trainSchedule =>
                           keys_of_stops h (stations entry.2)) l).
Proof.
  induction l as [|entry l IH]; intros acc seen Hacc; cbn [fold_left flat_map].
  - rewrite app_nil_r. exact Hacc.
  - rewrite List.app_assoc. apply IH. apply occupy_all_counted. exact Hacc.
Qed.

Lemma size_list_to_set_le (l : list (string * Z)) :
  (size (list_to_set (C := gset (string * Z)) l) <= length l)%nat
  /\ (size (list_to_set (C := gset (string * Z)) l) = length l -> NoDup l).
Proof.
  induction l as [|x l [IHle IHnd]]; cbn [list_to_set foldr length].
  - split; [rewrite size_empty; lia | constructor].
  - destruct (decide (x ∈ (list_to_set l : gset (string * Z)))) as [Hin | Hnin].
    + replace ({[x]} ∪ list_to_set l) with (list_to_set l : gset (string * Z)).
      * split; [lia | intros Heq; lia].
      * apply set_eq. intros y. rewrite elem_of_union, elem_of_singleton.
        split; [auto | intros [-> | Hy]; auto].
    + rewrite size_union by (apply disjoint_singleton_l; exact Hnin).
      rewrite size_singleton.
      split; [lia|]. intros Heq. apply NoDup_cons. split.
      * intros Hx. apply Hnin. apply elem_of_list_to_set. exact Hx.
      * apply IHnd. lia.
Qed.

(** X16.  The conflict count of a schedule is the number of stops less
    the number of distinct pairs of station and arrival time among them:
    it is never negative, it is 0 exactly when no two stops (of one train
    or of two) share station and arrival time to the millisecond, and it
    does not depend on the order of the trains. *)
Theorem detectConflicts_counts_repeated_keys (h : store) (schedule : individual) :
  let keys := keys_of h schedule in
  detectConflicts h schedule
  = Z.of_nat (length keys)
    - Z.of_nat (size (list_to_set (C := gset (string * Z)) keys))
  /\ 0 <= detectConflicts h schedule
  /\ (detectConflicts h schedule = 0 <-> NoDup keys)
  /\ (forall other : individual,
        Permutation (trains schedule) (trains other) ->
        detectConflicts h other = detectConflicts h schedule).
Proof.
  assert (Hcount : forall s : individual,
             detectConflicts h s
             = Z.of_nat (length (keys_of h s))
               - Z.of_nat (size (list_to_set (C := gset (string * Z))
                                   (keys_of h s)))).
  { intros s. unfold detectConflicts, keys_of.
    destruct (detectConflicts_counted h (trains s) (0, ∅) [])
      as [Htotal Hkeys].
    { split; cbn [fst snd length]; [rewrite map_size_empty; reflexivity|].
      rewrite dom_empty_L. reflexivity. }
    cbn [app] in Htotal, Hkeys. rewrite <- Hkeys, size_dom. lia. }
  cbn zeta. pose proof (size_list_to_set_le (keys_of h schedule)) as [Hle Hnd].
  split; [apply Hcount|]. split; [rewrite Hcount; lia|]. split.
  - rewrite Hcount. split.
    + intros H0. apply Hnd. lia.
    + intros Hno. rewrite (size_list_to_set _ Hno). lia.
  - intros other Hperm. rewrite !Hcount.
    assert (Hk : Permutation (keys_of h schedule) (keys_of h other)).
    { unfold keys_of. apply Permutation_flat_map. exact Hperm. }
    rewrite (Permutation_length Hk).
    replace (list_to_set (keys_of h other) : gset (string * Z))
      with (list_to_set (keys_of h schedule) : gset (string * Z));
      [reflexivity|].
    apply set_eq. intros x. rewrite !elem_of_list_to_set.
    split; intros Hx; [rewrite <- Hk | rewrite Hk]; exact Hx.
Qed.

End ConflictCount.


(** ** The hub's bookkeeping *)

Module HubProperties.

Import JS Estimator EstimatorProperties.
Open Scope float_scope.

(** Everything in an estimator but its [state] is as
    [initializeKalmanFilter] made it. *)
Definition as_initialized (id : string) (e : estimator) : Prop :=
  e = {| trainId := id;
         state := state e;
         covariance := covariance (initializeKalmanFilter id);
         processNoise := processNoise (initializeKalmanFilter id);
         measurementNoise := measurementNoise (initializeKalmanFilter id) |}.

Record books (h : hub) : Prop := {
  same_trains :
    forall id, is_Some (activeTrains h !! id) <-> is_Some (stateEstimators h !! id);
  estimators_as_initialized :
    forall id e, stateEstimators h !! id = Some e -> as_initialized id e;
  entries_emitted :
    forall id t, activeTrains h !! id = Some t ->
                 fused_trainId (current t) = id /\ In (current t) (emitted h)
}.

Lemma fuseDataSources_as_initialized E now n id e l :
  as_initialized id e ->
  as_initialized id (fuseDataSources E now n e l).1.1
  /\ fused_trainId (fuseDataSources E now n e l).1.2 = id.
Proof.
  intros He. unfold fuseDataSources.
  destruct (fold_left (fuse_one E e) l (state e, n)) as [st m].
  cbn [fst snd fused_trainId]. rewrite He. split; reflexivity.
Qed.

Lemma books_run calls : books (run calls).1.
Proof.
  apply run_invariant.
  - split; intros id; [|intros x H; cbn in H; rewrite lookup_empty in H;
                        discriminate..].
    cbn. rewrite !lookup_empty. split; intros [x H]; discriminate H.
  - intros E now h n id l [Hsame Hest Hact]. unfold updateTrainState.
    set (e0 := match stateEstimators h !! id with
               | Some e => e | None => initializeKalmanFilter id end).
    assert (He0 : as_initialized id e0).
    { subst e0. destruct (stateEstimators h !! id) eqn:Hl;
        [exact (Hest _ _ Hl) | reflexivity]. }
    pose proof (fuseDataSources_as_initialized E now n id e0 l He0) as [He Hf].
    destruct (fuseDataSources E now n e0 l) as [[e f] m].
    cbn [fst snd] in *.
    split; cbn [stateEstimators activeTrains emitted].
    + intros id'. destruct (decide (id = id')) as [->|Hne].
      * rewrite !lookup_insert_eq. split; eauto.
      * rewrite !lookup_insert_ne by assumption. apply Hsame.
    + intros id' x Hl. destruct (decide (id = id')) as [->|Hne].
      * rewrite lookup_insert_eq in Hl. injection Hl as <-. exact He.
      * rewrite lookup_insert_ne in Hl by assumption. exact (Hest _ _ Hl).
    + intros id' x Hl. rewrite in_app_iff. destruct (decide (id = id')) as [->|Hne].
      * rewrite lookup_insert_eq in Hl. injection Hl as <-. cbn [current].
        split; [exact Hf | right; left; reflexivity].
      * rewrite lookup_insert_ne in Hl by assumption.
        destruct (Hact _ _ Hl) as [H1 H2]. auto.
Qed.

Lemma emitted_per_routed_call calls :
  forall acc : hub * nat,
    length (emitted (fold_left step calls acc).1)
    = (length (emitted acc.1) + length (List.filter routed calls))%nat.
Proof.
  induction calls as [|c calls IH]; intros [h n]; cbn [fold_left List.filter].
  - cbn [length]. rewrite Nat.add_0_r. reflexivity.
  - rewrite IH. destruct c as [E now d | E now id l]; cbn [step routed fst snd].
    + unfold processNormalizedData.
      destruct (truthy_string (data_trainId d)) eqn:Ht; [|reflexivity].
      destruct (data_trainId d) as [id|]; [|discriminate Ht].
      cbn [getTrainDataBuffer app].
      unfold updateTrainState.
      destruct (fuseDataSources _ _ _ _ _) as [[e f] m].
      cbn [fst emitted length]. rewrite length_app. cbn [length]. lia.
    + unfold updateTrainState.
      destruct (fuseDataSources _ _ _ _ _) as [[e f] m].
      cbn [fst emitted length]. rewrite length_app. cbn [length]. lia.
Qed.

(** X17.  After any sequence of calls on a new hub the two maps hold the
    same trains; every estimator is the initial one but for its state,
    under its own train id; every [activeTrains] entry carries the id it
    is stored under and is one of the updates emitted; and one update
    was emitted for each call that reached [updateTrainState], a reading
    dropped as too old included. *)
Theorem hub_books_are_consistent (calls : list call) :
  let h := (run calls).1 in
  (forall id, is_Some (activeTrains h !! id) <-> is_Some (stateEstimators h !! id))
  /\ (forall id e, stateEstimators h !! id = Some e -> as_initialized id e)
  /\ (forall id t, activeTrains h !! id = Some t ->
                   fused_trainId (current t) = id /\ In (current t) (emitted h))
  /\ length (emitted h) = length (List.filter routed calls).
Proof.
  cbn zeta. destruct (books_run calls) as [H1 H2 H3].
  split; [exact H1|]. split; [exact H2|]. split; [exact H3|].
  unfold run. rewrite emitted_per_routed_call. reflexivity.
Qed.

(** X18.  The weights of the fusion never adapt: for every estimator the
    hub holds after any sequence of calls, a positional reading moves
    latitude, longitude and speed by 10/13 of the difference to the
    measured value, whatever was fused before. *)
Theorem fusion_weights_are_constant (calls : list call) (id : string)
    (e : estimator) :
  stateEstimators (run calls).1 !! id = Some e ->
  calculateKalmanGain (of_position (covariance e)) (gps (measurementNoise e))
  = 10 / 13
  /\ calculateKalmanGain (of_position (covariance e))
                         (trackCircuit (measurementNoise e)) = 10 / 60
  /\ calculateKalmanGain (of_position (covariance e))
                         (stationReport (measurementNoise e)) = 10 / 110
  /\ forall st g,
       updateWithGPS st g e
       = {| position :=
              {| lat := lat (position st)
                        + 10 / 13 * (latitude g - lat (position st));
                 lon := lon (position st)
                        + 10 / 13 * (longitude g - lon (position st)) |};
            velocity :=
              {| speed := speed (velocity st)
                          + 10 / 13 * (gps_speed g - speed (velocity st));
                 heading := heading (velocity st) |};
            acceleration := acceleration st |}.
Proof.
  intros Hl. destruct (books_run calls) as [_ Hest _].
  pose proof (Hest id e Hl) as He. unfold as_initialized in He.
  assert (Hc : covariance e = covariance (initializeKalmanFilter id))
    by (rewrite He; reflexivity).
  assert (Hm : measurementNoise e = measurementNoise (initializeKalmanFilter id))
    by (rewrite He; reflexivity).
  unfold updateWithGPS. rewrite Hc, Hm.
  split; [reflexivity|]. split; [reflexivity|]. split; [reflexivity|].
  intros st g. reflexivity.
Qed.

Lemma fusion_weights_are_constant_witness :
  let e := {| trainId := "12951";
              state := {| position := {| lat := 14.673846153846155;
                                         lon := 56.059769230769234 |};
                          velocity := {| speed := 65.384615384615387;
                                         heading := 0 |};
                          acceleration := 0 |};
              covariance := covariance (initializeKalmanFilter "12951");
              processNoise := processNoise (initializeKalmanFilter "12951");
              measurementNoise :=
                measurementNoise (initializeKalmanFilter "12951") |} in
  calculateKalmanGain (of_position (covariance e)) (gps (measurementNoise e))
  = 10 / 13
  /\ calculateKalmanGain (of_position (covariance e))
                         (trackCircuit (measurementNoise e)) = 10 / 60
  /\ calculateKalmanGain (of_position (covariance e))
                         (stationReport (measurementNoise e)) = 10 / 110
  /\ forall st g,
       updateWithGPS st g e
       = {| position :=
              {| lat := lat (position st)
                        + 10 / 13 * (latitude g - lat (position st));
                 lon := lon (position st)
                        + 10 / 13 * (longitude g - lon (position st)) |};
            velocity :=
              {| speed := speed (velocity st)
                          + 10 / 13 * (gps_speed g - speed (velocity st));
                 heading := heading (velocity st) |};
            acceleration := acceleration st |}.
Proof.
  apply (fusion_weights_are_constant
           [process steady_world 1700000000000 gps_fix] "12951").
  vm_compute. reflexivity.
Defined.

End HubProperties.


(** ** The constraint layer *)

Module ConstraintProgramming.

Import JS Brain.
Open Scope Z_scope.

(** A constraint violation; [resolveConstraintViolation] reads its
    [type] for the log. *)
Record violation : Type := {
  violation_type : string
}.

Definition checkTrainConflicts (schedule1 schedule2 : trainSchedule)
  : list violation :=
  [].

Definition checkPlatformCapacity (trainSchedules : list trainSchedule)
  : list violation :=
  [].

(** The two nested loops over [trainSchedules[i]], [trainSchedules[j]]. *)
Fixpoint pairwise_violations (trainSchedules : list trainSchedule)
  : list violation :=
  match trainSchedules with
  | [] => []
  | schedule1 :: later =>
      flat_map (checkTrainConflicts schedule1) later ++ pairwise_violations later
  end.

Definition detectConstraintViolations (schedule : individual) : list violation :=
  let trainSchedules := map snd (trains schedule) in
  pairwise_violations trainSchedules ++ checkPlatformCapacity trainSchedules.

(** [resolveConstraintViolation(schedule, violation)] only writes a log
    line. *)
Definition resolveConstraintViolation (schedule : individual) (v : violation)
  : individual :=
  schedule.

Definition applyConstraintProgramming (schedule : individual) : individual :=
  let feasibleSchedule := schedule in
  let violations := detectConstraintViolations schedule in
  if (0 <? length violations)%nat
  then fold_left resolveConstraintViolation violations feasibleSchedule
  else feasibleSchedule.

Lemma pairwise_violations_none trainSchedules :
  pairwise_violations trainSchedules = [].
Proof.
  induction trainSchedules as [|s later IH]; [reflexivity|].
  cbn [pairwise_violations]. rewrite IH, app_nil_r.
  clear IH. induction later as [|s' later IH]; [reflexivity|].
  cbn [flat_map checkTrainConflicts app]. exact IH.
Qed.

(** X19.  The constraint layer finds no violation in any schedule and
    hands back the schedule it was given, so the schedule that is
    evaluated is the one the search returned: the conflicts the
    evaluation reports are those [detectConflicts] counts on the search
    result, whatever their number. *)
Theorem constraint_layer_passes_every_schedule (h : store) (now : Z)
    (schedule : individual) :
  detectConstraintViolations schedule = []
  /\ applyConstraintProgramming schedule = schedule
  /\ runDiscreteEventSimulation h now (applyConstraintProgramming schedule)
     = runDiscreteEventSimulation h now schedule
  /\ residual_conflicts
       (simulation_metrics
          (runDiscreteEventSimulation h now (applyConstraintProgramming schedule)))
     = detectConflicts h schedule.
Proof.
  assert (Hnone : detectConstraintViolations schedule = []).
  { unfold detectConstraintViolations. cbn zeta.
    rewrite pairwise_violations_none. reflexivity. }
  assert (Hsame : applyConstraintProgramming schedule = schedule).
  { unfold applyConstraintProgramming. cbn zeta. rewrite Hnone. reflexivity. }
  rewrite Hsame. repeat split; try assumption.
  unfold runDiscreteEventSimulation. cbn zeta.
  destruct (fold_left process _ _) as [totalDelay onTimeCount]. reflexivity.
Qed.

End ConstraintProgramming.


(** ** Choice of the best what-if scenario *)

Module ScenarioSelection.

Import JS.
Open Scope float_scope.

(** The fields of a scenario result that [identifyBestScenario] reads.
    [delayIncrease] is [impact?.delayIncrease]: [Undefined] for the
    result of a failed scenario, which has no [impact]. *)
Record scenarioResult : Type := {
  scenarioId : string;
  feasibility : option string;
  error : option string;
  delayIncrease : value
}.

Definition valid (s : scenarioResult) : bool :=
  negb (match feasibility s with
        | Some f => String.eqb f "IMPOSSIBLE"
        | None => false
        end)
  && negb (truthy_string (error s)).

(** [s.impact?.delayIncrease || Infinity] *)
Definition impact_or_Infinity (s : scenarioResult) : float :=
  match delayIncrease s with
  | Undefined => infinity
  | Number d => if is_nan d || is_zero d then infinity else d
  end.

(** The callback of [reduce]. *)
Definition better (best current : scenarioResult) : scenarioResult :=
  let bestImpact := impact_or_Infinity best in
  let currentImpact := impact_or_Infinity current in
  if currentImpact <? bestImpact then current else best.

Definition identifyBestScenario (scenarioResults : list scenarioResult)
  : option scenarioResult :=
  match List.filter valid scenarioResults with
  | [] => None
  | first :: rest => Some (fold_left better rest first)
  end.

(** *** The order of binary64 numbers *)

Ltac compare_cases :=
  repeat match goal with
  | |- context [PosDef.Pos.compare_cont Eq ?m ?n] =>
      change (PosDef.Pos.compare_cont Eq m n) with (m ?= n)%positive
  | H : context [PosDef.Pos.compare_cont Eq ?m ?n] |- _ =>
      change (PosDef.Pos.compare_cont Eq m n) with (m ?= n)%positive in H
  end;
  repeat match goal with
  | |- context [(?a ?= ?b)%Z] => destruct (Z.compare_spec a b)
  | H : context [(?a ?= ?b)%Z] |- _ => destruct (Z.compare_spec a b)
  | |- context [(?a ?= ?b)%positive] => destruct (Pos.compare_spec a b)
  | H : context [(?a ?= ?b)%positive] |- _ => destruct (Pos.compare_spec a b)
  end;
  cbn in *; try discriminate; try reflexivity; try lia.

Definition number (x : spec_float) : bool :=
  match x with
  | S754_nan => false
  | _ => true
  end.

Lemma SFleb_refl a : number a = true -> SFleb a a = true.
Proof.
  unfold SFleb, SFcompare. destruct a as [sa|sa| |sa ma ea]; try destruct sa;
    try discriminate; try reflexivity; intros _; compare_cases.
Qed.

Lemma SFltb_SFleb_trans a b c :
  SFltb a b = true -> SFleb b c = true -> SFleb a c = true.
Proof.
  unfold SFltb, SFleb, SFcompare.
  destruct a as [sa|sa| |sa ma ea], b as [sb|sb| |sb mb eb],
    c as [sc|sc| |sc mc ec];
    try destruct sa; try destruct sb; try destruct sc; try discriminate;
    try reflexivity; intros Hab Hbc; compare_cases.
Qed.

Lemma SFleb_trans a b c :
  SFleb a b = true -> SFleb b c = true -> SFleb a c = true.
Proof.
  unfold SFleb, SFcompare.
  destruct a as [sa|sa| |sa ma ea], b as [sb|sb| |sb mb eb],
    c as [sc|sc| |sc mc ec];
    try destruct sa; try destruct sb; try destruct sc; try discriminate;
    try reflexivity; intros Hab Hbc; compare_cases.
Qed.

Lemma SFleb_total a b :
  number a = true -> number b = true -> SFltb a b = false -> SFleb b a = true.
Proof.
  unfold SFltb, SFleb, SFcompare.
  destruct a as [sa|sa| |sa ma ea], b as [sb|sb| |sb mb eb];
    try destruct sa; try destruct sb; try discriminate;
    try reflexivity; intros _ _ Hab; compare_cases.
Qed.

Lemma is_nan_number x : is_nan x = false -> number (Prim2SF x) = true.
Proof.
  unfold is_nan. rewrite FloatAxioms.eqb_spec.
  destruct (Prim2SF x); try reflexivity. discriminate.
Qed.

Lemma impact_or_Infinity_number s : number (Prim2SF (impact_or_Infinity s)) = true.
Proof.
  unfold impact_or_Infinity. destruct (delayIncrease s) as [|d]; [reflexivity|].
  destruct (is_nan d) eqn:Hnan; cbn [orb]; [reflexivity|].
  destruct (is_zero d); [reflexivity|]. apply is_nan_number. exact Hnan.
Qed.

(** *** The scenario chosen *)

Definition at_most (a b : scenarioResult) : Prop :=
  (impact_or_Infinity a <=? impact_or_Infinity b) = true.

Lemma better_least best current :
  (better best current = best \/ better best current = current)
  /\ at_most (better best current) best
  /\ at_most (better best current) current
  /\ forall s, at_most best s -> at_most (better best current) s.
Proof.
  unfold better, at_most. cbn zeta.
  pose proof (impact_or_Infinity_number best) as Hb.
  pose proof (impact_or_Infinity_number current) as Hc.
  destruct (impact_or_Infinity current <? impact_or_Infinity best) eqn:Hlt;
    rewrite FloatAxioms.ltb_spec in Hlt; rewrite !FloatAxioms.leb_spec.
  - split; [auto|]. split; [|split].
    + apply (SFltb_SFleb_trans _ _ _ Hlt). apply SFleb_refl. exact Hb.
    + apply SFleb_refl. exact Hc.
    + intros s. rewrite !FloatAxioms.leb_spec. apply SFltb_SFleb_trans. exact Hlt.
  - split; [auto|]. split; [|split].
    + apply SFleb_refl. exact Hb.
    + apply SFleb_total; assumption.
    + intros s Hs. exact Hs.
Qed.

Lemma reduce_least rest :
  forall first,
    let best := fold_left better rest first in
    In best (first :: rest)
    /\ forall s, In s (first :: rest) -> at_most best s.
Proof.
  induction rest as [|current rest IH]; intros first; cbn zeta; cbn [fold_left].
  - split; [left; reflexivity|]. intros s [<- | []].
    unfold at_most. rewrite FloatAxioms.leb_spec. apply SFleb_refl.
    apply impact_or_Infinity_number.
  - destruct (IH (better first current)) as [Hin Hleast].
    destruct (better_least first current) as (Hwhich & Hfirst & Hcurrent & _).
    assert (Htrans : forall a b c, at_most a b -> at_most b c -> at_most a c).
    { intros a b c. unfold at_most. rewrite !FloatAxioms.leb_spec.
      apply SFleb_trans. }
    split.
    + destruct Hin as [Heq | Hin]; [|right; right; exact Hin].
      rewrite <- Heq.
      destruct Hwhich as [Hw | Hw]; rewrite Hw; [left | right; left];
        reflexivity.
    + intros s [<- | [<- | Hs]].
      * apply (Htrans _ (better first current)); [|exact Hfirst].
        apply Hleast. left. reflexivity.
      * apply (Htrans _ (better first current)); [|exact Hcurrent].
        apply Hleast. left. reflexivity.
      * apply Hleast. right. exact Hs.
Qed.

(** X20.  No scenario is chosen exactly when every scenario is
    impossible or failed.  Otherwise the choice is a valid scenario of
    the list whose delay increase, read with 0 and NaN replaced by
    Infinity, is the least among the valid ones.  A scenario that adds
    no delay thus ranks last: it is chosen only if no valid scenario has
    a finite non-zero delay increase. *)
Theorem best_scenario_has_least_nonzero_delay (scenarioResults : list scenarioResult) :
  (identifyBestScenario scenarioResults = None
   <-> forall s, In s scenarioResults -> valid s = false)
  /\ (forall best,
        identifyBestScenario scenarioResults = Some best ->
        In best scenarioResults /\ valid best = true
        /\ forall s, In s scenarioResults -> valid s = true ->
                     (impact_or_Infinity best <=? impact_or_Infinity s) = true)
  /\ (forall s, delayIncrease s = Number 0 -> impact_or_Infinity s = infinity)
  /\ (forall best s,
        identifyBestScenario scenarioResults = Some best ->
        In s scenarioResults -> valid s = true ->
        (impact_or_Infinity s <? infinity) = true ->
        (impact_or_Infinity best <? infinity) = true
        /\ delayIncrease best <> Number 0).
Proof.
  assert (Hsome : forall best,
             identifyBestScenario scenarioResults = Some best ->
             In best scenarioResults /\ valid best = true
             /\ forall s, In s scenarioResults -> valid s = true ->
                          at_most best s).
  { intros best. unfold identifyBestScenario.
    destruct (List.filter valid scenarioResults) as [|first rest] eqn:Hvalid;
      [discriminate|].
    intros [= <-]. destruct (reduce_least rest first) as [Hin Hleast].
    cbn zeta in Hin, Hleast. rewrite <- Hvalid in Hin, Hleast.
    apply filter_In in Hin as [Hin Hv]. split; [exact Hin|]. split; [exact Hv|].
    intros s Hs Hsv. apply Hleast. apply filter_In. auto. }
  assert (Hzero : forall s, delayIncrease s = Number 0 ->
                            impact_or_Infinity s = infinity).
  { intros s Hs. unfold impact_or_Infinity. rewrite Hs. reflexivity. }
  split; [|split; [exact Hsome|split; [exact Hzero|]]].
  - unfold identifyBestScenario.
    destruct (List.filter valid scenarioResults) as [|first rest] eqn:Hvalid.
    + split; [|reflexivity]. intros _ s Hs.
      destruct (valid s) eqn:Hv; [|reflexivity].
      assert (Hin : In s (List.filter valid scenarioResults))
        by (apply filter_In; auto).
      rewrite Hvalid in Hin. destruct Hin.
    + split; [discriminate|]. intros Hnone.
      assert (Hin : In first (List.filter valid scenarioResults))
        by (rewrite Hvalid; left; reflexivity).
      apply filter_In in Hin as [Hin Hv]. rewrite (Hnone first Hin) in Hv.
      discriminate Hv.
  - intros best s Hbest Hs Hsv Hfinite.
    destruct (Hsome best Hbest) as (_ & _ & Hleast).
    specialize (Hleast s Hs Hsv). unfold at_most in Hleast.
    assert (Hb : (impact_or_Infinity best <? infinity) = true).
    { revert Hleast Hfinite.
      rewrite FloatAxioms.leb_spec, !FloatAxioms.ltb_spec.
      change (Prim2SF infinity) with (S754_infinity false).
      unfold SFltb, SFleb, SFcompare.
      destruct (Prim2SF (impact_or_Infinity best)) as [sb|sb| |sb mb eb],
        (Prim2SF (impact_or_Infinity s)) as [ss|ss| |ss ms es];
        try destruct sb; try destruct ss; try discriminate; reflexivity. }
    split; [exact Hb|]. intros H0. rewrite (Hzero best H0) in Hb.
    discriminate Hb.
Qed.

(** A scenario that adds no delay loses to one that adds twelve
    minutes. *)
Example harmless_scenario_is_not_chosen :
  let harmless := {| scenarioId := "S1"; feasibility := Some "HIGH";
                     error := None; delayIncrease := Number 0 |} in
  let failed := {| scenarioId := "S2"; feasibility := Some "IMPOSSIBLE";
                   error := Some "Section not found";
                   delayIncrease := Undefined |} in
  let costly := {| scenarioId := "S3"; feasibility := Some "LOW";
                   error := None; delayIncrease := Number 12 |} in
  identifyBestScenario [harmless; failed; costly] = Some costly.
Proof. vm_compute. reflexivity. Qed.

End ScenarioSelection.


(** ** What the fitness of a schedule measures *)

Module Fitness.

Import JS SafeIntegers Reconciler ShiftProperties.
Open Scope float_scope.

#[global] Instance date_eq_dec : EqDecision date.
Proof. solve_decision. Defined.

#[global] Instance date_countable : Countable date.
Proof.
  apply (inj_countable'
           (fun d => match d with Invalid => None | Valid t => Some t end)
           (fun o => match o with None => Invalid | Some t => Valid t end)).
  intros []; reflexivity.
Defined.

(** The object the genetic algorithm evaluates; [trains] is a [Map] in
    insertion order. *)
Record individual : Type := {
  id : string;
  trains : list (string * trainSchedule);
  fitness : float;
  conflicts : Z
}.

(** [detectConflicts]: the key of a stop is its station and the time
    value of its arrival. *)
Definition occupy (h : store) (train : string)
    (acc : Z * gmap (string * date) string) (r : ref)
  : Z * gmap (string * date) string :=
  match h !! r with
  | Some stop =>
      let key := (stationId stop, arrivalTime stop) in
      match acc.2 !! key with
      | Some _ => ((acc.1 + 1)%Z, acc.2)
      | None => (acc.1, <[key := train]> acc.2)
      end
  | None => acc
  end.

Definition detectConflicts (h : store) (schedule : individual) : Z :=
  (fold_left
     (fun acc (entry : string * trainSchedule) =>
        fold_left (occupy h (trainId entry.2)) (stations entry.2) acc)
     (trains schedule) (0%Z, ∅)).1.

(** One turn of the inner loop of [evaluateFitness]: the time between
    arrival and departure at the stop, in minutes, is added to
    [trainDelay]. *)
Definition add_stop (h : store) (trainDelay : float) (r : ref) : float :=
  match h !! r with
  | Some stop =>
      trainDelay
      + Math_max 0 (getTime (departureTime stop) - getTime (arrivalTime stop))
        / (60 * 1000)
  | None => trainDelay
  end.

(** One turn of the outer loop. *)
Definition add_train (h : store) (totalWeightedDelay : float)
    (schedule : trainSchedule) : float :=
  let priorityWeight := 6 - priority schedule in
  let trainDelay := fold_left (add_stop h) (stations schedule) 0 in
  totalWeightedDelay + trainDelay * priorityWeight.

Definition totalWeightedDelay (h : store) (individual_ : individual) : float :=
  fold_left (add_train h) (map snd (trains individual_)) 0.

Definition evaluateFitness (h : store) (individual_ : individual) : float :=
  let conflictPenalty := of_Z (detectConflicts h individual_) in
  totalWeightedDelay h individual_ + conflictPenalty * 1000.

(** Two stores hold, under every reference, stops with the same time
    between arrival and departure. *)
Definition same_dwell (h h' : store) : Prop :=
  forall r,
    match h !! r, h' !! r with
    | Some stop, Some stop' =>
        getTime (departureTime stop') - getTime (arrivalTime stop')
        = getTime (departureTime stop) - getTime (arrivalTime stop)
    | None, None => True
    | _, _ => False
    end.

(** The time between arrival and departure is below 2^53 ms. *)
Definition dwell_fits (stop : stationStop) : bool :=
  match arrivalTime stop, departureTime stop with
  | Valid a, Valid dp => (Z.abs (dp - a) <? 2 ^ 53)%Z
  | _, _ => false
  end.

Definition all_dwells_fit (h : store) (rs : list ref) : bool :=
  forallb (fun r => match h !! r with
                    | Some stop => dwell_fits stop
                    | None => true
                    end) rs.

Lemma add_stop_same_dwell h h' :
  same_dwell h h' -> forall acc r, add_stop h' acc r = add_stop h acc r.
Proof.
  intros Hsame acc r. unfold add_stop. specialize (Hsame r).
  destruct (h !! r) as [stop|], (h' !! r) as [stop'|]; try contradiction;
    [rewrite Hsame|]; reflexivity.
Qed.

Lemma totalWeightedDelay_same_dwell h h' individual_ :
  same_dwell h h' ->
  totalWeightedDelay h' individual_ = totalWeightedDelay h individual_.
Proof.
  intros Hsame. unfold totalWeightedDelay. generalize 0.
  induction (map snd (trains individual_)) as [|s l IH]; intros acc;
    [reflexivity|].
  cbn [fold_left]. rewrite IH. f_equal. unfold add_train. cbn zeta.
  do 2 f_equal. generalize 0.
  induction (stations s) as [|r rs IHr]; intros acc'; [reflexivity|].
  cbn [fold_left]. rewrite IHr, (add_stop_same_dwell h h' Hsame). reflexivity.
Qed.

Lemma move_same_dwell (ms : Z) (stop : stationStop) :
  movable ms stop = true -> dwell_fits stop = true ->
  getTime (departureTime (move ms stop)) - getTime (arrivalTime (move ms stop))
  = getTime (departureTime stop) - getTime (arrivalTime stop).
Proof.
  unfold movable, dwell_fits, move. cbn [departureTime arrivalTime].
  destruct (arrivalTime stop) as [|a]; [discriminate|].
  destruct (departureTime stop) as [|dp]; [discriminate|].
  rewrite !andb_true_iff, !in_Date_range_spec, Z.ltb_lt.
  intros [[[Ha Hdp] Ha'] Hdp'] Hfit. cbn [getTime].
  rewrite !sub_exact by lia. f_equal. lia.
Qed.

Section Conversions.

Variable StringToNumber : string -> float.
Variable NumberToString : float -> string.

Local Abbreviation rightShiftSchedule :=
  (Reconciler.rightShiftSchedule StringToNumber NumberToString).

(** X21.  The delay term of the fitness is the time the trains stand at
    their stops, weighted by 6 minus the priority.  It is the same
    before and after a right shift of a schedule of distinct stops by a
    whole number of minutes that leaves every time a valid date (the
    stops standing for less than 2^53 ms): such a shift changes the
    fitness of an individual only through the number of conflicts. *)
Theorem fitness_is_blind_to_right_shifts (h : store) (schedule : trainSchedule)
    (d : Z) (individual_ : individual) :
  NoDup (stations schedule) ->
  (Z.abs (d * 60 * 1000) < 2 ^ 53)%Z ->
  all_movable h (stations schedule) (d * 60 * 1000) = true ->
  all_dwells_fit h (stations schedule) = true ->
  let h' := (rightShiftSchedule h schedule (VNumber (of_Z d))).1 in
  totalWeightedDelay h' individual_ = totalWeightedDelay h individual_
  /\ evaluateFitness h' individual_
     = totalWeightedDelay h individual_
       + of_Z (detectConflicts h' individual_) * 1000.
Proof.
  intros Hnd Hd Hmov Hfit. cbn zeta.
  assert (Hsame : same_dwell h (rightShiftSchedule h schedule (VNumber (of_Z d))).1).
  { intros r. rewrite right_shift_lookup by assumption.
    destruct (decide (r ∈ stations schedule)) as [Hr | Hr].
    - destruct (h !! r) as [stop|] eqn:Hstop; [|exact I].
      cbn [fmap option_fmap option_map]. apply move_same_dwell.
      + exact (all_movable_spec h _ _ Hmov r stop Hr Hstop).
      + unfold all_dwells_fit in Hfit. rewrite forallb_forall in Hfit.
        specialize (Hfit r). rewrite Hstop in Hfit. apply Hfit.
        apply list_elem_of_In. exact Hr.
    - destruct (h !! r); [reflexivity | exact I]. }
  pose proof (totalWeightedDelay_same_dwell h _ individual_ Hsame) as Heq.
  split; [exact Heq|]. unfold evaluateFitness. cbn zeta.
  rewrite Heq. reflexivity.
Qed.

End Conversions.

(** The evening's three schedules as an individual. *)
Definition evening : individual :=
  {| id := "current";
     trains := [("train_vip_001", rajdhani); ("train_freight_003", goods);
                ("train_express_002", mail)];
     fitness := 0;
     conflicts := 0 |}.

Lemma fitness_is_blind_to_right_shifts_witness :
  let h' := (Reconciler.rightShiftSchedule no_number no_text evening_stops
               rajdhani (VNumber (of_Z 15))).1 in
  totalWeightedDelay h' evening = totalWeightedDelay evening_stops evening
  /\ evaluateFitness h' evening
     = totalWeightedDelay evening_stops evening
       + of_Z (detectConflicts h' evening) * 1000.
Proof.
  apply (fitness_is_blind_to_right_shifts no_number no_text evening_stops
           rajdhani 15 evening); try reflexivity.
  apply (bool_decide_unpack _). reflexivity.
Defined.

(** The evening timetable: 39 minutes at the stops, weighted to 65, and
    after the Rajdhani's 15-minute shift the same 65 and the penalty of
    the one conflict.  A shift out of the range of [Date] leaves no
    number. *)
Example evening_fitness :
  evaluateFitness evening_stops evening = 65
  /\ evaluateFitness
       (Reconciler.rightShiftSchedule no_number no_text evening_stops rajdhani
          (VNumber (of_Z 15))).1 evening = 1065
  /\ is_nan (evaluateFitness
               (Reconciler.rightShiftSchedule no_number no_text evening_stops
                  rajdhani (VNumber 144000000000)).1 evening) = true.
Proof. vm_compute. repeat split; reflexivity. Qed.

End Fitness.
